(** * Ascentrade backend: background job scheduler and indicator pipeline

    A shallow embedding of [tasks.py], [utils.py], [indicator_factory.py]
    and the parts of [indicators/indicators.py], [database.py] and
    [resolvers/mutation.py] that the verified properties talk about,
    followed by the properties themselves.

    Conventions.
    - Python objects that travel through JSON or through [**kwargs] are
      values of [Py.pyval]; an operation that raises is a function into
      [option] (or into a sum that names the handler that catches it).
    - A text is a string of ASCII characters: [str.lower], [str.upper],
      [str.isdecimal] and the blanks that [int] and [float] skip are
      defined on such texts, where they depend on the ASCII letters,
      digits and blanks only.
    - A double is a value of [Py.fval]: a rational, an infinity or NaN.
      Arithmetic on finite values goes through a rounding function [rnd],
      which is a parameter of every definition that computes; the laws a
      proof needs of it are [Float.rounding], and [Float.rnd_exact] is
      arithmetic without rounding error.
    - A pandas frame is a record with its index labels and its columns in
      order; a column is a list of cells.
    - The backup file, the quotes table and the indicators table are
      explicit components of the state that the operations thread. *)

From Stdlib Require Import ZArith QArith Qminmax String Ascii List Bool Lia Lqa.
From stdpp Require Import base option list strings gmap pretty sorting.

Set Warnings "-register-all".

Local Open Scope string_scope.
Local Open Scope list_scope.
Local Open Scope Z_scope.

(* ===================================================================== *)
(** * Python values and JSON documents                                    *)
(* ===================================================================== *)

Module Py.

(** A double: NaN, a signed infinity or a finite rational. The two
    zeros are one value; a number divided by zero gets the sign of the
    number. *)
Inductive fval : Type :=
| FNaN
| FInf (neg : bool)
| FFin (q : Q).

(** Keys of a [dict]: the hashable scalars that occur as keys in this
    program and in decoded JSON. *)
Inductive pykey : Type :=
| KNone
| KBool (b : bool)
| KInt (z : Z)
| KStr (s : string).

(** Python values. [PDecimal z] is a [decimal.Decimal] with exponent 0,
    which is the only kind [parseParameters] builds. A [dict] is the list
    of its items in insertion order. *)
Inductive pyval : Type :=
| PNone
| PBool (b : bool)
| PInt (z : Z)
| PFloat (x : fval)
| PDecimal (z : Z)
| PStr (s : string)
| PList (l : list pyval)
| PTuple (l : list pyval)
| PDict (d : list (pykey * pyval)).

Definition pydict : Type := list (pykey * pyval).

(** [True == 1] and [False == 0], also as dictionary keys. *)
Definition key_eqb (a b : pykey) : bool :=
  match a, b with
  | KNone, KNone => true
  | KStr s, KStr t => String.eqb s t
  | KInt x, KInt y => Z.eqb x y
  | KBool x, KBool y => Bool.eqb x y
  | KBool x, KInt y | KInt y, KBool x => Z.eqb (Z.b2z x) y
  | _, _ => false
  end.

(** [d[k]], [None] standing for [KeyError]. *)
Fixpoint dict_get (d : pydict) (k : pykey) : option pyval :=
  match d with
  | [] => None
  | (k', v) :: d' => if key_eqb k' k then Some v else dict_get d' k
  end.

(** [d[k] = v]: an existing key keeps its position, a new one goes last. *)
Fixpoint dict_set (d : pydict) (k : pykey) (v : pyval) : pydict :=
  match d with
  | [] => [(k, v)]
  | (k', v') :: d' =>
      if key_eqb k' k then (k', v) :: d' else (k', v') :: dict_set d' k v
  end.

Definition dict_of_items (items : list (pykey * pyval)) : pydict :=
  fold_left (fun d kv => dict_set d (fst kv) (snd kv)) items [].

Definition dict_keys (d : pydict) : list pykey := map fst d.

(** JSON documents, the content of a well-formed JSON text. *)
Inductive json : Type :=
| JNull
| JBool (b : bool)
| JInt (z : Z)
| JFloat (x : fval)
| JStr (s : string)
| JArr (l : list json)
| JObj (m : list (string * json)).

(** How [json.dumps] writes a dictionary key. *)
Definition json_key (k : pykey) : string :=
  match k with
  | KNone => "null"
  | KBool true => "true"
  | KBool false => "false"
  | KInt z => pretty z
  | KStr s => s
  end.

(** [json.dumps v] up to the concrete text; [None] is the [TypeError] of
    a value the encoder does not know. Tuples are written as arrays. *)
Fixpoint json_dumps (v : pyval) : option json :=
  match v with
  | PNone => Some JNull
  | PBool b => Some (JBool b)
  | PInt z => Some (JInt z)
  | PFloat x => Some (JFloat x)
  | PDecimal _ => None
  | PStr s => Some (JStr s)
  | PList l => JArr <$> mapM json_dumps l
  | PTuple l => JArr <$> mapM json_dumps l
  | PDict d =>
      JObj <$> mapM (fun kv => pair (json_key (fst kv)) <$> json_dumps (snd kv)) d
  end.

(** [json.loads] on a well-formed text with content [j]; a repeated member
    name keeps its last value. *)
Fixpoint json_loads (j : json) : pyval :=
  match j with
  | JNull => PNone
  | JBool b => PBool b
  | JInt z => PInt z
  | JFloat x => PFloat x
  | JStr s => PStr s
  | JArr l => PList (map json_loads l)
  | JObj m => PDict (dict_of_items (map (fun kv => (KStr (fst kv), json_loads (snd kv))) m))
  end.

(** Values that JSON represents as they are: no tuples, no decimals,
    string keys only, no key twice. *)
Definition is_str_key (k : pykey) : bool :=
  match k with KStr _ => true | _ => false end.

Fixpoint distinct_keys (ks : list pykey) : bool :=
  match ks with
  | [] => true
  | k :: ks' => negb (existsb (key_eqb k) ks') && distinct_keys ks'
  end.

Fixpoint json_native (v : pyval) : bool :=
  match v with
  | PNone | PBool _ | PInt _ | PFloat _ | PStr _ => true
  | PDecimal _ | PTuple _ => false
  | PList l => forallb json_native l
  | PDict d =>
      forallb (fun kv => is_str_key (fst kv) && json_native (snd kv)) d
      && distinct_keys (map fst d)
  end.

(** The canonical form of a key: keys are equal in Python when their
    canonical forms are the same. *)
Definition canon (k : pykey) : pykey :=
  match k with KBool b => KInt (Z.b2z b) | _ => k end.

(** Induction on Python values that reaches into lists and dictionaries. *)
Section pyval_nested_ind.
Variable P : pyval → Prop.
Hypothesis HNone : P PNone.
Hypothesis HBool : ∀ b, P (PBool b).
Hypothesis HInt : ∀ z, P (PInt z).
Hypothesis HFloat : ∀ x, P (PFloat x).
Hypothesis HDecimal : ∀ z, P (PDecimal z).
Hypothesis HStr : ∀ s, P (PStr s).
Hypothesis HList : ∀ l, Forall P l → P (PList l).
Hypothesis HTuple : ∀ l, Forall P l → P (PTuple l).
Hypothesis HDict : ∀ d, Forall (fun kv => P (snd kv)) d → P (PDict d).

Fixpoint pyval_nested_ind (v : pyval) : P v :=
  match v with
  | PNone => HNone
  | PBool b => HBool b
  | PInt z => HInt z
  | PFloat x => HFloat x
  | PDecimal z => HDecimal z
  | PStr s => HStr s
  | PList l =>
      HList l ((fix go (l : list pyval) : Forall P l :=
                  match l with
                  | [] => @List.Forall_nil _ P
                  | x :: r => @List.Forall_cons _ P x r (pyval_nested_ind x) (go r)
                  end) l)
  | PTuple l =>
      HTuple l ((fix go (l : list pyval) : Forall P l :=
                   match l with
                   | [] => @List.Forall_nil _ P
                   | x :: r => @List.Forall_cons _ P x r (pyval_nested_ind x) (go r)
                   end) l)
  | PDict d =>
      HDict d ((fix go (d : list (pykey * pyval)) : Forall (fun kv => P (snd kv)) d :=
                  match d with
                  | [] => @List.Forall_nil _ _
                  | kv :: r => @List.Forall_cons _ _ kv r (pyval_nested_ind (snd kv)) (go r)
                  end) d)
  end.
End pyval_nested_ind.

(** ** Text to integer *)

Definition is_digit (c : ascii) : bool :=
  let n := nat_of_ascii c in (48 <=? n)%nat && (n <=? 57)%nat.

Definition digit_value (c : ascii) : Z := Z.of_nat (nat_of_ascii c) - 48.

(** The blanks that [int] and [float] skip around a text of ASCII
    characters: the space, and the tab, line feed, vertical tab, form
    feed and carriage return. *)
Definition is_space (c : ascii) : bool :=
  let n := nat_of_ascii c in
  ((9 <=? n)%nat && (n <=? 13)%nat) || (n =? 32)%nat.

(** [str.isdecimal] on a text of ASCII characters: not empty, digits only. *)
Definition isdecimal (s : string) : bool :=
  match list_ascii_of_string s with
  | [] => false
  | cs => forallb is_digit cs
  end.

Definition digits_value (cs : list ascii) : Z :=
  fold_left (fun acc c => 10 * acc + digit_value c) cs 0.

(** The digits of an integer literal: single underscores may separate
    digits. [None] is [ValueError]. *)
Fixpoint int_digits (cs : list ascii) (after_digit : bool) (acc : Z) : option Z :=
  match cs with
  | [] => if after_digit then Some acc else None
  | c :: cs' =>
      if is_digit c then int_digits cs' true (10 * acc + digit_value c)
      else if Ascii.eqb c "_"%char && after_digit then
        match cs' with
        | d :: _ => if is_digit d then int_digits cs' false acc else None
        | [] => None
        end
      else None
  end.

Fixpoint drop_spaces (cs : list ascii) : list ascii :=
  match cs with
  | [] => []
  | c :: cs' => if is_space c then drop_spaces cs' else cs
  end.

Definition strip (cs : list ascii) : list ascii :=
  rev (drop_spaces (rev (drop_spaces cs))).

(** [sys.int_max_str_digits] as the interpreter sets it: a text with
    more digits is refused by [int], and an integer with more digits by
    [str], both with a [ValueError]. *)
Definition int_max_str_digits : nat := 4300.

(** [int(s)] for a text [s] of ASCII characters: surrounding blanks, an
    optional sign, digits; the digits are counted without the sign, the
    blanks and the underscores. *)
Definition int_of_str (s : string) : option Z :=
  let body := strip (list_ascii_of_string s) in
  if (int_max_str_digits <? length (filter (fun c => is_digit c = true) body))%nat
  then None
  else
    match body with
    | c :: cs =>
        if Ascii.eqb c "-"%char then Z.opp <$> int_digits cs false 0
        else if Ascii.eqb c "+"%char then int_digits cs false 0
        else int_digits (c :: cs) false 0
    | [] => None
    end.

(** [int(v)]: [None] is the [TypeError], [ValueError] or [OverflowError]
    that Python raises. A float is truncated toward zero. *)
Definition py_int (v : pyval) : option Z :=
  match v with
  | PInt z => Some z
  | PBool b => Some (Z.b2z b)
  | PDecimal z => Some z
  | PStr s => int_of_str s
  | PFloat (FFin q) => Some (Z.quot (Qnum q) (Z.pos (Qden q)))
  | PFloat _ => None
  | PNone | PList _ | PTuple _ | PDict _ => None
  end.

End Py.

(* ===================================================================== *)
(** * Logging                                                             *)
(* ===================================================================== *)

(** A log is the list of the records written so far, each with its level
    and the fixed part of its message. *)
Module Logging.

Inductive level : Type := DEBUG | INFO | WARNING | ERROR.

Definition record : Type := (level * string)%type.

End Logging.

(* ===================================================================== *)
(** * utils.py                                                            *)
(* ===================================================================== *)

Module Utils.
Import Py.

(** [parseInt(value, default)]. The [try] swallows the [ValueError] of
    [int(value)]; a value of any other type falls through to [default]. *)
Definition parseInt (value : pyval) (default : Z) : Z :=
  match value with
  | PNone => default
  | PInt z => z
  | PBool b => Z.b2z b
  | PStr s => match int_of_str s with Some z => z | None => default end
  | _ => default
  end.

End Utils.

(* ===================================================================== *)
(** * tasks.py                                                            *)
(* ===================================================================== *)

Module Tasks.
Import Py Logging.

(** The dataclass [BackgroundJobData]. Python checks no annotation, so a
    field holds whatever value it was given. *)
Record BackgroundJobData : Type := mkJob {
  timestamp : pyval;
  uuid : pyval;
  table : pyval;
  id1 : pyval;
  id2 : pyval;
  date1 : pyval;
  date2 : pyval;
  data : pyval
}.

(** What [datetime.utcnow()] and [uuid4()] answer when a job is built. *)
Record Entropy : Type := { utcnow : Z; uuid4 : string }.

(** [BackgroundJobData.__init__]. *)
Definition BackgroundJobData_init (e : Entropy)
    (table id1 id2 date1 date2 data timestamp uuid : pyval) : BackgroundJobData :=
  {| timestamp := match timestamp with PNone => PInt (utcnow e) | t => t end;
     uuid := match uuid with PNone => PStr (uuid4 e) | u => u end;
     table := table; id1 := id1; id2 := id2;
     date1 := date1; date2 := date2; data := data |}.

(** [BackgroundJobData(table, id1)], the call of the quotes mutation. *)
Definition new_job (e : Entropy) (table id1 : pyval) : BackgroundJobData :=
  BackgroundJobData_init e table id1 PNone PNone PNone (PDict []) PNone PNone.

(** [BackgroundJobData.fromDict]; [None] is the [KeyError] or [TypeError]
    of a subscript that fails. *)
Definition fromDict (e : Entropy) (dictIn : pyval) : option BackgroundJobData :=
  match dictIn with
  | PDict d =>
      table ← dict_get d (KStr "table");
      id1 ← dict_get d (KStr "id1");
      id2 ← dict_get d (KStr "id2");
      date1 ← dict_get d (KStr "date1");
      date2 ← dict_get d (KStr "date2");
      data ← dict_get d (KStr "data");
      timestamp ← dict_get d (KStr "timestamp");
      uuid ← dict_get d (KStr "uuid");
      Some (BackgroundJobData_init e table id1 id2 date1 date2 data timestamp uuid)
  | _ => None
  end.

(** [dataclasses.asdict], which [EnhancedJSONEncoder.default] applies to
    every job: the fields in declaration order. *)
Definition asdict (j : BackgroundJobData) : pyval :=
  PDict [ (KStr "timestamp", timestamp j); (KStr "uuid", uuid j);
          (KStr "table", table j); (KStr "id1", id1 j); (KStr "id2", id2 j);
          (KStr "date1", date1 j); (KStr "date2", date2 j);
          (KStr "data", data j) ].

(** [json.dumps(jobs, cls=EnhancedJSONEncoder)]. *)
Definition dumps_jobs (jobs : list BackgroundJobData) : option json :=
  json_dumps (PList (map asdict jobs)).

(** A file on disk, seen through [json.loads]: a text the decoder rejects
    (the empty text is one) or a text with a JSON document as content. *)
Inductive file_content : Type :=
| Unparsable
| Document (doc : json).

(** What the handler shares with the rest of the host: the two files, the
    worker processes that are alive (each with the seconds it still
    runs), and the log. *)
Record World : Type := {
  jobs_json : option file_content;
  indicators_json : option file_content;
  active_children : list nat;
  logged : list record
}.

Definition say (l : level) (msg : string) (w : World) : World :=
  {| jobs_json := jobs_json w; indicators_json := indicators_json w;
     active_children := active_children w;
     logged := logged w ++ [(l, msg)] |}.

Definition write_jobs_json (c : file_content) (w : World) : World :=
  {| jobs_json := Some c; indicators_json := indicators_json w;
     active_children := active_children w; logged := logged w |}.

(** [p.start()] of a worker that runs for [secs] seconds. *)
Definition start_process (secs : nat) (w : World) : World :=
  {| jobs_json := jobs_json w; indicators_json := indicators_json w;
     active_children := active_children w ++ [secs]; logged := logged w |}.

(** [await asyncio.sleep(n)]: time passes, workers that are done exit. *)
Definition sleep (n : nat) (w : World) : World :=
  {| jobs_json := jobs_json w; indicators_json := indicators_json w;
     active_children :=
       filter (fun t => (0 <? t)%nat) (map (fun t => (t - n)%nat) (active_children w));
     logged := logged w |}.

Record TaskHandler : Type := {
  parallelProcesses : Z;
  jobQueue : list BackgroundJobData;
  backgroundTasks : list nat;
  shutdownRequest : bool;
  task_cancelled : bool;
  indicatorConfig : pyval
}.

Definition set_queue (q : list BackgroundJobData) (th : TaskHandler) : TaskHandler :=
  {| parallelProcesses := parallelProcesses th; jobQueue := q;
     backgroundTasks := backgroundTasks th;
     shutdownRequest := shutdownRequest th;
     task_cancelled := task_cancelled th;
     indicatorConfig := indicatorConfig th |}.

(** The first [try] of [__init__]: [int(cpu_count()/2.0)], and 1 when
    [cpu_count()] raises. [int] truncates toward zero. *)
Definition default_parallelProcesses (cpu_count : option Z) : Z :=
  match cpu_count with
  | Some n => Z.quot n 2
  | None => 1
  end.

(** [TaskHandler.__init__]. [env] is [os.environ.get('parallelProcesses')].
    Reading [indicators.json] is outside any [try]: [None] is the
    exception that leaves [__init__]. *)
Definition init (cpu_count : option Z) (env : pyval) (w : World)
    : option (TaskHandler * World) :=
  let w := say INFO "TaskHandler.__init__" w in
  let w := match cpu_count with
           | Some _ => w
           | None => say WARNING "Unable to read CPU count, fallback to 1 process" w
           end in
  let n := Utils.parseInt env (default_parallelProcesses cpu_count) in
  let w := say INFO ("Using " +:+ pretty n +:+ " process to calculate indicators") w in
  match indicators_json w with
  | Some (Document doc) =>
      Some ({| parallelProcesses := n; jobQueue := [];
               backgroundTasks := []; shutdownRequest := false;
               task_cancelled := false;
               indicatorConfig := json_loads doc |}, w)
  | _ => None
  end.

(** The [for job in backup] loop of [loadJobs]. The flag says whether the
    loop ran to its end; a job that [fromDict] rejects raises out of it,
    with the jobs before it already in the queue. *)
Fixpoint load_loop (e : Entropy) (backup : list pyval) (th : TaskHandler)
    : bool * TaskHandler :=
  match backup with
  | [] => (true, th)
  | job :: rest =>
      match fromDict e job with
      | Some j => load_loop e rest (set_queue (jobQueue th ++ [j]) th)
      | None => (false, th)
      end
  end.

(** [TaskHandler.loadJobs]: the returned flag and the new state. *)
Definition loadJobs (e : Entropy) (th : TaskHandler) (w : World)
    : bool * TaskHandler * World :=
  let failed w := say WARNING "Unable to load file jobs.json" w in
  match jobs_json w with
  | None => (false, th, failed w)
  | Some Unparsable => (false, th, failed w)
  | Some (Document doc) =>
      match json_loads doc with
      | PList backup =>
          if (0 <? length backup)%nat then
            match load_loop e backup th with
            | (true, th') =>
                (true, th',
                 say INFO ("Loaded " +:+ pretty (length (jobQueue th'))
                           +:+ " backuped jobs from file") w)
            | (false, th') => (false, th', failed w)
            end
          else (false, th, say INFO "No jobs in backup file" w)
      | _ => (false, th,
              say WARNING "Backup file jobs.json contains no valid job backup" w)
      end
  end.

(** [TaskHandler.addJob]. *)
Definition addJob (jobData : BackgroundJobData) (th : TaskHandler) : TaskHandler :=
  set_queue (jobQueue th ++ [jobData]) th.

(** The [while len(self.backgroundTasks) > 0] loop of [shutdown]; every
    round sleeps one second. [None]: still waiting when the fuel is
    used up. *)
Fixpoint wait_backgroundTasks (fuel : nat) (th : TaskHandler) (w : World)
    : option World :=
  if (0 <? length (backgroundTasks th))%nat then
    match fuel with
    | O => None
    | S fuel' =>
        wait_backgroundTasks fuel' th
          (sleep 1 (say INFO ("Wait for " +:+ pretty (length (backgroundTasks th))
                              +:+ " tasks to finish...") w))
    end
  else Some w.

(** [TaskHandler.shutdown]. The queue is emptied before the file is
    opened; opening truncates the file, so a [TypeError] of [json.dumps]
    leaves an empty file behind. *)
Definition shutdown (fuel : nat) (th : TaskHandler) (w : World)
    : option (TaskHandler * World) :=
  let w := say INFO "TaskHandler.shutdown()" w in
  let th := {| parallelProcesses := parallelProcesses th;
               jobQueue := jobQueue th;
               backgroundTasks := backgroundTasks th;
               shutdownRequest := true;
               task_cancelled := true;
               indicatorConfig := indicatorConfig th |} in
  w ← wait_backgroundTasks fuel th w;
  let jobs := jobQueue th in
  let th := set_queue [] th in
  let w := say INFO ("Write " +:+ pretty (length jobs)
                     +:+ " jobs to jobs.json backup file") w in
  match dumps_jobs jobs with
  | Some doc => Some (th, write_jobs_json (Document doc) w)
  | None => Some (th, say ERROR "json.dumps" (write_jobs_json Unparsable w))
  end.

(** The inner loop of [scheduleTasks]: while fewer workers are alive
    than [parallelProcesses] and a job is queued, take the oldest job and
    start a process for it if its table is [quotes]. [run_time] is how
    long the worker of a job runs. *)
Fixpoint dispatch (run_time : BackgroundJobData → nat)
    (queue : list BackgroundJobData) (limit : Z) (w : World)
    : list BackgroundJobData * World :=
  match queue with
  | [] => ([], w)
  | jobData :: rest =>
      if Z.of_nat (length (active_children w)) <? limit then
        match table jobData with
        | PStr "quotes" => dispatch run_time rest limit (start_process (run_time jobData) w)
        | _ =>
            dispatch run_time rest limit
              (say WARNING "No background processing job for table defined" w)
        end
      else (queue, w)
  end.

(** One round of the outer loop of [scheduleTasks], its five seconds of
    sleep included. [workingOnTasks] is the local flag of the loop. *)
Definition scheduleTasks_round (run_time : BackgroundJobData → nat)
    (workingOnTasks : bool) (th : TaskHandler) (w : World)
    : bool * TaskHandler * World :=
  let '(q, w) := dispatch run_time (jobQueue th) (parallelProcesses th) w in
  let '(workingOnTasks, w) :=
    if (0 <? length q)%nat then
      (true, say INFO ("Active processes=" +:+ pretty (length (active_children w))
                       +:+ ", queue=" +:+ pretty (length q)) w)
    else
      (false, if workingOnTasks then say INFO "All processes finished!" w else w) in
  (workingOnTasks, set_queue q th, sleep 5 w).

(** The annotations of the dataclass as a check on a job. An [int] or
    [str] field may hold [None], its default; [__init__] leaves neither
    the timestamp nor the uuid [None]. The payload is a dictionary that
    JSON represents as it is. *)
Definition is_int (v : pyval) : bool := match v with PInt _ => true | _ => false end.
Definition is_str (v : pyval) : bool := match v with PStr _ => true | _ => false end.
Definition is_none (v : pyval) : bool := match v with PNone => true | _ => false end.
Definition is_dict (v : pyval) : bool := match v with PDict _ => true | _ => false end.

Definition annotated (j : BackgroundJobData) : bool :=
  is_int (timestamp j) && is_str (uuid j) && is_str (table j)
  && (is_int (id1 j) || is_none (id1 j))
  && (is_int (id2 j) || is_none (id2 j))
  && (is_str (date1 j) || is_none (date1 j))
  && (is_str (date2 j) || is_none (date2 j))
  && is_dict (data j) && json_native (data j).

(** The states of a handler and its world that the program reaches:
    [__init__], then any sequence of [addJob], [loadJobs] and rounds of
    the scheduling loop. *)
Inductive reachable : TaskHandler → World → Prop :=
| reach_init cpu_count env w th w' :
    init cpu_count env w = Some (th, w') → reachable th w'
| reach_addJob jobData th w :
    reachable th w → reachable (addJob jobData th) w
| reach_loadJobs e th w :
    reachable th w →
    reachable (snd (fst (loadJobs e th w))) (snd (loadJobs e th w))
| reach_round run_time workingOnTasks th w :
    reachable th w →
    shutdownRequest th = false →
    reachable (snd (fst (scheduleTasks_round run_time workingOnTasks th w)))
              (snd (scheduleTasks_round run_time workingOnTasks th w)).

End Tasks.

(* ===================================================================== *)
(** * Double arithmetic                                                   *)
(* ===================================================================== *)

Module Float.
Import Py.

Definition Qneg_b (q : Q) : bool := (Qnum q <? 0)%Z.
Definition Qzero_b (q : Q) : bool := (Qnum q =? 0)%Z.
Definition Qlt_b (p q : Q) : bool := negb (Qle_bool q p).

Definition f0 : fval := FFin 0.
Definition f1 : fval := FFin 1.
Definition f100 : fval := FFin 100.
Definition of_Z (z : Z) : fval := FFin (inject_Z z).

Definition is_nan (x : fval) : bool :=
  match x with FNaN => true | _ => false end.

(** Comparisons: every comparison with NaN is false. *)
Definition flt (x y : fval) : bool :=
  match x, y with
  | FNaN, _ | _, FNaN => false
  | FInf s, FInf t => s && negb t
  | FInf s, FFin _ => s
  | FFin _, FInf t => negb t
  | FFin a, FFin b => Qlt_b a b
  end.

Definition fle (x y : fval) : bool :=
  match x, y with
  | FNaN, _ | _, FNaN => false
  | FInf s, FInf t => s || negb t
  | FInf s, FFin _ => s
  | FFin _, FInf t => negb t
  | FFin a, FFin b => Qle_bool a b
  end.

Definition fgt (x y : fval) : bool := flt y x.

(** Negation is exact. *)
Definition fneg (x : fval) : fval :=
  match x with
  | FNaN => FNaN
  | FInf s => FInf (negb s)
  | FFin q => FFin (- q)
  end.

Definition fmax (x y : fval) : fval := if flt x y then y else x.
Definition fmin (x y : fval) : fval := if flt y x then y else x.

Section Rounded.

(** [rnd q] is the double that the exact result [q] of an operation is
    rounded to; it is an infinity when [q] is out of range. *)
Variable rnd : Q → fval.

Definition fadd (x y : fval) : fval :=
  match x, y with
  | FNaN, _ | _, FNaN => FNaN
  | FInf s, FInf t => if Bool.eqb s t then FInf s else FNaN
  | FInf s, FFin _ => FInf s
  | FFin _, FInf t => FInf t
  | FFin a, FFin b => rnd (a + b)
  end.

Definition fsub (x y : fval) : fval := fadd x (fneg y).

Definition fmul (x y : fval) : fval :=
  match x, y with
  | FNaN, _ | _, FNaN => FNaN
  | FInf s, FInf t => FInf (xorb s t)
  | FInf s, FFin q | FFin q, FInf s =>
      if Qzero_b q then FNaN else FInf (xorb s (Qneg_b q))
  | FFin a, FFin b => rnd (a * b)
  end.

Definition fdiv (x y : fval) : fval :=
  match x, y with
  | FNaN, _ | _, FNaN => FNaN
  | FInf _, FInf _ => FNaN
  | FInf s, FFin q => FInf (xorb s (Qneg_b q))
  | FFin _, FInf _ => f0
  | FFin a, FFin b =>
      if Qzero_b b then (if Qzero_b a then FNaN else FInf (Qneg_b a))
      else rnd (a / b)
  end.

(** Sum from the left, starting at zero. *)
Definition fsum (xs : list fval) : fval := fold_left fadd xs f0.

(** [numpy.mean] of a slice; the mean of nothing is NaN. *)
Definition fmean (xs : list fval) : fval :=
  fdiv (fsum xs) (of_Z (Z.of_nat (length xs))).

End Rounded.

(** Arithmetic without rounding error. *)
Definition rnd_exact (q : Q) : fval := FFin (Qred q).

(** What is asked of a rounding where a proof needs it: the result is a
    number (finite or infinite), a greater exact result never rounds to
    a smaller double, and 0, 1 and 100 are doubles. Rounding to nearest,
    as the hardware does it, is such a rounding. *)
Record rounding (rnd : Q → fval) : Prop := {
  rnd_number : ∀ q, is_nan (rnd q) = false;
  rnd_monotone : ∀ p q, (p <= q)%Q → fle (rnd p) (rnd q) = true;
  rnd_fixes : ∀ q, (q == 0 ∨ q == 1 ∨ q == 100)%Q → ∃ r, rnd q = FFin r ∧ (r == q)%Q
}.

End Float.

(* ===================================================================== *)
(** * pandas frames                                                       *)
(* ===================================================================== *)

Module Frame.
Import Py Float.

(** An index label: a position or a date (days since 1970-01-01). *)
Inductive label : Type :=
| LInt (i : Z)
| LDate (d : Z).

(** A column with its dtype: [float64], [bool], [datetime64] (where
    [None] is NaT) or [object]. *)
Inductive column : Type :=
| ColFloat (xs : list fval)
| ColBool (bs : list bool)
| ColDate (ds : list (option Z))
| ColObject (vs : list pyval).

Record frame : Type := {
  index : list label;
  columns : list (string * column)
}.

Definition len (df : frame) : nat := length (index df).

(** [df[k]] read; [None] is [KeyError]. *)
Fixpoint lookup_col (cols : list (string * column)) (k : string) : option column :=
  match cols with
  | [] => None
  | (k', c) :: rest => if String.eqb k' k then Some c else lookup_col rest k
  end.

Definition get_col (df : frame) (k : string) : option column :=
  lookup_col (columns df) k.

(** [df[k] = c]: a column that exists is replaced where it stands, a new
    one is added last. *)
Fixpoint store_col (cols : list (string * column)) (k : string) (c : column)
    : list (string * column) :=
  match cols with
  | [] => [(k, c)]
  | (k', c') :: rest =>
      if String.eqb k' k then (k', c) :: rest else (k', c') :: store_col rest k c
  end.

Definition set_col (df : frame) (k : string) (c : column) : frame :=
  {| index := index df; columns := store_col (columns df) k c |}.

(** [df[k] = None]: an object column of [None]. *)
Definition set_none (df : frame) (k : string) : frame :=
  set_col df k (ColObject (replicate (len df) PNone)).

Definition set_all_none (df : frame) (ks : list string) : frame :=
  fold_left set_none ks df.

Fixpoint remove_col (cols : list (string * column)) (k : string)
    : list (string * column) :=
  match cols with
  | [] => []
  | (k', c) :: rest =>
      if String.eqb k' k then rest else (k', c) :: remove_col rest k
  end.

(** [del df[k]] and [df.drop([k], axis=1)]; [None] is [KeyError]. *)
Definition del_col (df : frame) (k : string) : option frame :=
  match get_col df k with
  | Some _ => Some {| index := index df; columns := remove_col (columns df) k |}
  | None => None
  end.

Fixpoint drop_columns (df : frame) (ks : list string) : option frame :=
  match ks with
  | [] => Some df
  | k :: ks' => df' ← del_col df k; drop_columns df' ks'
  end.

Fixpoint lookup_name (mapping : list (string * string)) (k : string) : option string :=
  match mapping with
  | [] => None
  | (k', v) :: rest => if String.eqb k' k then Some v else lookup_name rest k
  end.

(** [df.rename(columns=mapping)]. *)
Definition rename (df : frame) (mapping : list (string * string)) : frame :=
  {| index := index df;
     columns := map (fun kc => (default (fst kc) (lookup_name mapping (fst kc)), snd kc))
                    (columns df) |}.

(** The numbers of a [float64] column; any other dtype makes the numeric
    operations of this development raise. *)
Definition floats (df : frame) (k : string) : option (list fval) :=
  match get_col df k with
  | Some (ColFloat xs) => Some xs
  | _ => None
  end.

(** [s.shift(1)]. *)
Definition shift1 (xs : list fval) : list fval :=
  match xs with
  | [] => []
  | _ => FNaN :: removelast xs
  end.

(** Cell [i] of a column as a Python value, as [iloc[i].to_dict()] gives it. *)
Definition cell (c : column) (i : nat) : option pyval :=
  match c with
  | ColFloat xs => PFloat <$> xs !! i
  | ColBool bs => PBool <$> bs !! i
  | ColDate ds => (fun d => match d with Some z => PInt z | None => PNone end) <$> ds !! i
  | ColObject vs => vs !! i
  end.

(** [df.replace({np.nan: None})] on one column. *)
Definition nan_to_none (c : column) : column :=
  match c with
  | ColFloat xs =>
      if existsb is_nan xs
      then ColObject (map (fun x => if is_nan x then PNone else PFloat x) xs)
      else c
  | ColObject vs =>
      ColObject (map (fun v => match v with PFloat FNaN => PNone | _ => v end) vs)
  | _ => c
  end.

Section Rounded.
Variable rnd : Q → fval.

(** [s.diff()]. *)
Definition diff (xs : list fval) : list fval :=
  zip_with (fsub rnd) xs (shift1 xs).

(** [s.pct_change(fill_method=None)]. *)
Definition pct_change (xs : list fval) : list fval :=
  zip_with (fun x p => fsub rnd (fdiv rnd x p) f1) xs (shift1 xs).

(** The window of [n] values that ends at row [i], if there are [n]. *)
Definition window (n : nat) (xs : list fval) (i : nat) : option (list fval) :=
  if (n <=? S i)%nat then Some (take n (drop (S i - n)%nat xs)) else None.

(** [s.rolling(n).mean()]: NaN unless the window holds [n] numbers. *)
Definition rolling_mean (n : nat) (xs : list fval) : list fval :=
  imap (fun i _ =>
          match window n xs i with
          | Some w => if existsb is_nan w then FNaN else fmean rnd w
          | None => FNaN
          end) xs.

End Rounded.

End Frame.

(* ===================================================================== *)
(** * indicators/indicators.py                                            *)
(* ===================================================================== *)

Module Indicators.
Import Py Float Frame.

(** What a call [success, df, keys = f(df, **params)] leaves behind:
    [mutated] is the caller's frame object after the assignments the
    function made in place, [returned] is the frame it returns. *)
Record outcome : Type := {
  success : bool;
  mutated : frame;
  returned : frame;
  keys : list string
}.

(** An indicator function; [None] is an exception that leaves the call
    (a [TypeError] while the keyword arguments are bound). *)
Definition indicator_fn : Type := frame → pydict → option outcome.

Definition same_frame (ok : bool) (df : frame) (ks : list string) : outcome :=
  {| success := ok; mutated := df; returned := df; keys := ks |}.

Definition key_name (k : pykey) : option string :=
  match k with KStr s => Some s | _ => None end.

(** Binding [**params] to a signature, given as the parameter names with
    their defaults: a key that names no parameter and a parameter left
    without a value are [TypeError]s. *)
Definition kwargs (signature : list (string * option pyval)) (params : pydict)
    : option (list pyval) :=
  if forallb (fun kv => match key_name (fst kv) with
                        | Some s => existsb (String.eqb s) (map fst signature)
                        | None => false
                        end) params
  then mapM (fun p => match dict_get params (KStr (fst p)) with
                      | Some v => Some v
                      | None => snd p
                      end) signature
  else None.

Definition column_name (v : pyval) : option string :=
  match v with PStr s => Some s | _ => None end.

(** [x[start:stop]] with Python's treatment of negative and large bounds. *)
Definition py_slice {A} (xs : list A) (start stop : Z) : list A :=
  let n := Z.of_nat (length xs) in
  let norm i := if i <? 0 then Z.max 0 (n + i) else Z.min i n in
  take (Z.to_nat (norm stop - norm start)) (drop (Z.to_nat (norm start)) xs).

(** The position that [a[i]] names in a sequence of length [n]; [None] is
    [IndexError]. *)
Definition py_index (n : nat) (i : Z) : option nat :=
  if (0 <=? i) && (i <? Z.of_nat n) then Some (Z.to_nat i)
  else if (- Z.of_nat n <=? i) && (i <? 0) then Some (Z.to_nat (Z.of_nat n + i))
  else None.

Section Rounded.
Variable rnd : Q → fval.

(** ** Slope *)
Definition Slope (df : frame) (params : pydict) : option outcome :=
  args ← kwargs [("source", None)] params;
  match args with
  | [source] =>
      let body :=
        s ← column_name source;
        xs ← floats df s;
        Some (set_col df "slope" (ColBool (map (fun d => fgt d f0) (diff rnd xs)))) in
      Some match body with
           | Some df' => same_frame true df' ["slope"]
           | None => same_frame false (set_none df "slope") ["slope"]
           end
  | _ => None
  end.

(** ** Larger *)
Definition Larger (df : frame) (params : pydict) : option outcome :=
  args ← kwargs [("source1", None); ("source2", None)] params;
  match args with
  | [source1; source2] =>
      let body :=
        s1 ← column_name source1;
        s2 ← column_name source2;
        xs ← floats df s1;
        ys ← floats df s2;
        Some (set_col df "larger" (ColBool (zip_with fgt xs ys))) in
      Some match body with
           | Some df' => same_frame true df' ["larger"]
           | None => same_frame false (set_none df "larger") ["larger"]
           end
  | _ => None
  end.

(** ** SimpleMovingAverage *)
Definition SimpleMovingAverage (df : frame) (params : pydict) : option outcome :=
  args ← kwargs [("period", None); ("source", Some (PStr "adjusted_close"))] params;
  match args with
  | [period; source] =>
      let ks := ["sma"; "rising"] in
      let body :=
        N ← py_int period;
        if Z.of_nat (len df) >? N then
          s ← column_name source;
          xs ← floats df s;
          (* rolling(N) with a negative N is a ValueError *)
          if N <? 0 then None else
          let sma := rolling_mean rnd (Z.to_nat N) xs in
          let df1 := set_col df "sma" (ColFloat sma) in
          sma' ← floats df1 "sma";
          Some (set_col df1 "rising"
                  (ColBool (map (fun c => fgt c f0) (pct_change rnd sma'))))
        else Some (set_all_none df ks) in
      Some match body with
           | Some df' => same_frame true df' ks
           | None => same_frame false (set_all_none df ks) ks
           end
  | _ => None
  end.

(** ** RSI *)

(** One round of the loop of [rma]. *)
Definition rma_step (x : list fval) (n : Z) (a : option (list fval)) (i : Z)
    : option (list fval) :=
  a ← a;
  j ← py_index (length a) i;
  jp ← py_index (length a) (i - 1);
  ap ← a !! jp;
  jx ← py_index (length x) i;
  xi ← x !! jx;
  Some (<[j := fdiv rnd (fadd rnd (fmul rnd ap (of_Z (n - 1))) xi) (of_Z n)]> a).

(** The local function [rma(x, n)] of [RSI]; [None] is [IndexError]. *)
Definition rma (x : list fval) (n : Z) : option (list fval) :=
  let a := replicate (length x) FNaN in
  k ← py_index (length a) n;
  let a := <[k := fmean rnd (py_slice x 1 (n + 1))]> a in
  fold_left (rma_step x n) (seqZ (n + 1) (Z.of_nat (length x) - (n + 1))) (Some a).

(** The body of the [try] of [RSI] when [len(df) > N], up to the point
    where it raises: the frame so far, and whether the end was reached. *)
Definition RSI_compute (df : frame) (N : Z) (s : string) : bool * frame :=
  match floats df s with
  | None => (false, df)
  | Some src =>
      let change := diff rnd src in
      let df := set_col df "change" (ColFloat change) in
      let gain := map (fun c => if flt c f0 then f0 else c) change in
      let df := set_col df "gain" (ColFloat gain) in
      let loss := map (fun c => fneg (if fgt c f0 then fneg f0 else c)) change in
      let df := set_col df "loss" (ColFloat loss) in
      match rma gain N with
      | None => (false, df)
      | Some avg_gain =>
          let df := set_col df "avg_gain" (ColFloat avg_gain) in
          match rma loss N with
          | None => (false, df)
          | Some avg_loss =>
              let df := set_col df "avg_loss" (ColFloat avg_loss) in
              let rs := zip_with (fdiv rnd) avg_gain avg_loss in
              let df := set_col df "rs" (ColFloat rs) in
              let rsi := map (fun r => fsub rnd f100 (fdiv rnd f100 (fadd rnd f1 r))) rs in
              let df := set_col df "rsi" (ColFloat rsi) in
              match drop_columns df ["change"; "gain"; "loss"; "avg_gain"; "avg_loss"; "rs"] with
              | Some df' => (true, df')
              | None => (false, df)
              end
          end
      end
  end.

Definition RSI (df : frame) (params : pydict) : option outcome :=
  args ← kwargs [("period", Some (PDecimal 14)); ("source", Some (PStr "close"))] params;
  match args with
  | [period; source] =>
      Some match py_int period with
           | None => same_frame false (set_none df "rsi") ["rsi"]
           | Some N =>
               if Z.of_nat (len df) >? N then
                 match column_name source with
                 | None => same_frame false (set_none df "rsi") ["rsi"]
                 | Some s =>
                     match RSI_compute df N s with
                     | (true, df') => same_frame true df' ["rsi"]
                     | (false, df') => same_frame false (set_none df' "rsi") ["rsi"]
                     end
                 end
               else same_frame true (set_none df "rsi") ["rsi"]
           end
  | _ => None
  end.

(** The functions of this module that are modelled, by name, as
    [globals()] finds them. *)
Definition builtin (name : string) : option indicator_fn :=
  if String.eqb name "Slope" then Some Slope
  else if String.eqb name "Larger" then Some Larger
  else if String.eqb name "SimpleMovingAverage" then Some SimpleMovingAverage
  else if String.eqb name "RSI" then Some RSI
  else None.

End Rounded.

End Indicators.

(* ===================================================================== *)
(** * Calendar                                                            *)
(* ===================================================================== *)

(** Dates are days since 1970-01-01, a Thursday. *)
Module Calendar.

(** Year, month and day of a date (proleptic Gregorian calendar). *)
Definition civil_from_days (z : Z) : Z * Z * Z :=
  let z := z + 719468 in
  let era := z / 146097 in
  let doe := z - era * 146097 in
  let yoe := (doe - doe / 1460 + doe / 36524 - doe / 146096) / 365 in
  let doy := doe - (365 * yoe + yoe / 4 - yoe / 100) in
  let mp := (5 * doy + 2) / 153 in
  let d := doy - (153 * mp + 2) / 5 + 1 in
  let m := if mp <? 10 then mp + 3 else mp - 9 in
  let y := yoe + era * 400 in
  (if m <=? 2 then y + 1 else y, m, d).

Definition days_from_civil (y m d : Z) : Z :=
  let y := if m <=? 2 then y - 1 else y in
  let era := y / 400 in
  let yoe := y - era * 400 in
  let doy := (153 * (if 2 <? m then m - 3 else m + 9) + 2) / 5 + d - 1 in
  let doe := yoe * 365 + yoe / 4 - yoe / 100 + doy in
  era * 146097 + doe - 719468.

(** The week of a date, weeks running from Monday to Sunday, numbered by
    their Sundays; week 0 ends on 1970-01-04. *)
Definition week_of (d : Z) : Z := (d + 3) / 7.
Definition week_end (k : Z) : Z := 7 * k + 3.

(** The month of a date, numbered from year 0. *)
Definition month_of (d : Z) : Z :=
  let '(y, m, _) := civil_from_days d in 12 * y + (m - 1).
Definition month_end (k : Z) : Z :=
  days_from_civil ((k + 1) / 12) ((k + 1) mod 12 + 1) 1 - 1.

End Calendar.

(* ===================================================================== *)
(** * indicator_factory.py                                                *)
(* ===================================================================== *)

Module Factory.
Import Py Logging Float Frame Indicators Calendar.

Inductive Interval : Type := DAILY | WEEKLY | MONTHLY.

Definition Interval_value (i : Interval) : nat :=
  match i with DAILY => 0 | WEEKLY => 1 | MONTHLY => 2 end%nat.

(** [str.lower] on a text of ASCII characters. *)
Definition lower_char (c : ascii) : ascii :=
  let n := nat_of_ascii c in
  if (65 <=? n)%nat && (n <=? 90)%nat then ascii_of_nat (n + 32) else c.

Definition lower (s : string) : string :=
  string_of_list_ascii (map lower_char (list_ascii_of_string s)).

Definition one_of (s : string) (l : list string) : bool := existsb (String.eqb s) l.

(** [intervalFromStr]; [None] is [NotImplementedError]. *)
Definition intervalFromStr (input : string) : option Interval :=
  if one_of (lower input) ["d"; "day"; "daily"] then Some DAILY
  else if one_of (lower input) ["w"; "week"; "weekly"] then Some WEEKLY
  else if one_of (lower input) ["m"; "month"; "monthly"] then Some MONTHLY
  else None.

(** ** parseParameters *)

Definition parse_value (v : pyval) : pyval :=
  match v with
  | PStr s => if isdecimal s then PDecimal (digits_value (list_ascii_of_string s)) else PStr s
  | _ => v
  end.

Definition parseParameters (input : pydict) : pydict :=
  fold_left (fun output kv => dict_set output (fst kv) (parse_value (snd kv))) input [].

(** ** Quotes *)

(** A row of the [quotes] table as the two queries read it; a NULL
    arrives in the frame as NaN. *)
Record quote : Type := {
  q_date : Z;
  q_open : fval;
  q_high : fval;
  q_low : fval;
  q_close : fval;
  q_split_adjusted_open : fval;
  q_split_adjusted_high : fval;
  q_split_adjusted_low : fval;
  q_split_adjusted_close : fval;
  q_adjusted_close : fval;
  q_volume : fval
}.

Definition range (n : nat) : list label := map LInt (seqZ 0 (Z.of_nat n)).

(** [pd.DataFrame(quotes)] followed by [pd.to_datetime] on the dates.
    The volume, which the query of [calculate] reads without a cast, is
    a double here as well, with the same value. *)
Definition DataFrame (rows : list quote) : frame :=
  {| index := range (length rows);
     columns :=
       [ ("date", ColDate (map (fun r => Some (q_date r)) rows));
         ("open", ColFloat (map q_open rows));
         ("high", ColFloat (map q_high rows));
         ("low", ColFloat (map q_low rows));
         ("close", ColFloat (map q_close rows));
         ("split_adjusted_open", ColFloat (map q_split_adjusted_open rows));
         ("split_adjusted_high", ColFloat (map q_split_adjusted_high rows));
         ("split_adjusted_low", ColFloat (map q_split_adjusted_low rows));
         ("split_adjusted_close", ColFloat (map q_split_adjusted_close rows));
         ("adjusted_close", ColFloat (map q_adjusted_close rows));
         ("volume", ColFloat (map q_volume rows)) ] |}.

(** ** Resampling *)

(** The aggregations that [agg] is asked for; each skips NaN and NaT. *)
Inductive how : Type := First | Last | Max | Min | Sum.

Definition valid (xs : list fval) : list fval :=
  filter (fun x => is_nan x = false) xs.

Definition agg_first (xs : list fval) : fval := hd FNaN (valid xs).
Definition agg_last (xs : list fval) : fval := List.last (valid xs) FNaN.
Definition agg_max (xs : list fval) : fval :=
  match valid xs with [] => FNaN | x :: rest => fold_left fmax rest x end.
Definition agg_min (xs : list fval) : fval :=
  match valid xs with [] => FNaN | x :: rest => fold_left fmin rest x end.

Definition agg_last_date (ds : list (option Z)) : option Z :=
  List.last (filter is_Some ds) None.

(** The rows that a mask keeps. *)
Definition select {A} (mask : list bool) (xs : list A) : list A :=
  snd <$> filter (fun bx => fst bx = true) (zip mask xs).

Section Rounded.
Variable rnd : Q → fval.

Definition agg_sum (xs : list fval) : fval := fsum rnd (valid xs).

Definition agg_float (h : how) (xs : list fval) : fval :=
  match h with
  | First => agg_first xs
  | Last => agg_last xs
  | Max => agg_max xs
  | Min => agg_min xs
  | Sum => agg_sum xs
  end.

(** The bucket of a date and the date that labels a bucket. *)
Definition bucket (interval : Interval) (d : Z) : Z :=
  match interval with
  | DAILY => d
  | WEEKLY => week_of d
  | MONTHLY => month_of d
  end.

Definition bucket_label (interval : Interval) (k : Z) : Z :=
  match interval with
  | DAILY => k
  | WEEKLY => week_end k
  | MONTHLY => month_end k
  end.

(** Every bucket from the one of the earliest date to the one of the
    latest, the empty ones in between included. *)
Definition bins (ks : list Z) : list Z :=
  match ks with
  | [] => []
  | k :: rest =>
      let lo := fold_left Z.min rest k in
      let hi := fold_left Z.max rest k in
      seqZ lo (hi - lo + 1)
  end.

(** One column of [resample(...).agg(...)]: a value per bucket. [ks] is
    the bucket of every row. Floats take any aggregation, dates take
    [Last]; [None] is the exception of any other request. *)
Definition agg_column (h : how) (ks : list Z) (c : column) : option column :=
  let rows_of {A} (k : Z) (xs : list A) := select (map (Z.eqb k) ks) xs in
  match c, h with
  | ColFloat xs, _ => Some (ColFloat (map (fun k => agg_float h (rows_of k xs)) (bins ks)))
  | ColDate ds, Last => Some (ColDate (map (fun k => agg_last_date (rows_of k ds)) (bins ks)))
  | _, _ => None
  end.

(** [df.resample(rule, on='date').agg(spec)]. The rows are taken in the
    order they have, which the queries make the order of their dates. *)
Definition resample_agg (df : frame) (interval : Interval) (spec : list (string * how))
    : option frame :=
  match get_col df "date" with
  | Some (ColDate ds) =>
      dates ← mapM id ds;
      let ks := map (bucket interval) dates in
      cols ← mapM (fun nh => c ← get_col df (fst nh);
                             c' ← agg_column (snd nh) ks c;
                             Some (fst nh, c')) spec;
      Some {| index := map (fun k => LDate (bucket_label interval k)) (bins ks);
              columns := cols |}
  | _ => None
  end.

Definition set_index (df : frame) (idx : list label) : frame :=
  {| index := idx; columns := columns df |}.

(** [IndicatorFactory.resampleDataFrame]. *)
Definition resampleDataFrame (data : frame) (interval : Interval) : option frame :=
  let df := data in
  df ← match interval with
       | WEEKLY | MONTHLY =>
           resample_agg df interval
             [ ("date", Last); ("open", First); ("high", Max); ("low", Min);
               ("close", Last);
               ("split_adjusted_open", First); ("split_adjusted_high", Max);
               ("split_adjusted_low", Min); ("split_adjusted_close", Last);
               ("adjusted_close", Last); ("volume", Sum) ]
       | DAILY => Some df
       end;
  Some (set_index df (range (len df))).

(** ** The configured indicators *)

(** An entry of [config['securities']]. *)
Record entry : Type := {
  interval : string;
  indicator : string;
  parameters : pydict;
  mapping : list (string * string)
}.

(** What [globals()] holds under a name. *)
Variable globals : string → option indicator_fn.

(** The loop [for k in keys] that drops the columns without a mapping. *)
Fixpoint drop_unmapped (df : frame) (ks : list string) (mapping : list (string * string))
    : option frame :=
  match ks with
  | [] => Some df
  | k :: ks' =>
      if one_of k (map fst mapping) then drop_unmapped df ks' mapping
      else df' ← drop_columns df [k]; drop_unmapped df' ks' mapping
  end.

(** One round of the loop over the configured indicators, up to the
    test of [success]. *)
Inductive step : Type :=
| Succeeded (dfs : list frame)
| Failed (dfs : list frame)
| StepRaised.

Definition run_entry (dfs : list frame) (obj : entry) : step :=
  match intervalFromStr (interval obj) with
  | None => StepRaised
  | Some iv =>
      match dfs !! Interval_value iv with
      | None => StepRaised
      | Some df =>
          let params := parseParameters (parameters obj) in
          match globals (indicator obj) with
          | None => StepRaised
          | Some f =>
              match f df params with
              | None => StepRaised
              | Some out =>
                  if success out then
                    match drop_unmapped (returned out) (keys out) (mapping obj) with
                    | None => StepRaised
                    | Some df' =>
                        Succeeded (<[Interval_value iv := rename df' (mapping obj)]> dfs)
                    end
                  else Failed (<[Interval_value iv := mutated out]> dfs)
              end
          end
      end
  end.

(** How a loop over the configuration ends. *)
Inductive loop_end : Type :=
| Completed (dfs : list frame)
| ReturnedFalse
| LoopRaised.

Definition warn_unsuccessful : record :=
  (WARNING, "Calculating indicator was not successful").

(** The loop of [calculate]: after a warning it goes on. *)
Fixpoint calculate_loop (config : list entry) (dfs : list frame) (log : list record)
    : loop_end * list record :=
  match config with
  | [] => (Completed dfs, log)
  | obj :: rest =>
      let log := log ++ [(DEBUG, "Calculate indicator")] in
      match run_entry dfs obj with
      | Succeeded dfs' => calculate_loop rest dfs' log
      | Failed dfs' => calculate_loop rest dfs' (log ++ [warn_unsuccessful])
      | StepRaised => (LoopRaised, log)
      end
  end.

(** The loop of [calculateMultiprocessing]: after a warning it returns
    [False]. *)
Fixpoint calculateMultiprocessing_loop (config : list entry) (dfs : list frame)
    (log : list record) : loop_end * list record :=
  match config with
  | [] => (Completed dfs, log)
  | obj :: rest =>
      let log := log ++ [(DEBUG, "Calculate indicator")] in
      match run_entry dfs obj with
      | Succeeded dfs' => calculateMultiprocessing_loop rest dfs' log
      | Failed dfs' => (ReturnedFalse, log ++ [warn_unsuccessful])
      | StepRaised => (LoopRaised, log)
      end
  end.

(** ** Merging the latest rows *)

Definition ohlcv : list string :=
  [ "date"; "open"; "high"; "low"; "close"; "split_adjusted_open";
    "split_adjusted_high"; "split_adjusted_low"; "split_adjusted_close";
    "adjusted_close"; "volume" ].

(** [df.iloc[-1].to_dict()]; [None] is the [IndexError] of an empty frame. *)
Definition last_row (df : frame) : option pydict :=
  match len df with
  | O => None
  | S i =>
      dict_of_items <$>
        mapM (fun kc => v ← cell (snd kc) i; Some (KStr (fst kc), v)) (columns df)
  end.

Definition replace_nan (df : frame) : frame :=
  {| index := index df;
     columns := map (fun kc => (fst kc, nan_to_none (snd kc))) (columns df) |}.

Definition update (data other : pydict) : pydict :=
  fold_left (fun d kv => dict_set d (fst kv) (snd kv)) other data.

(** The loop [for i in range(0, len(dfs))]. *)
Fixpoint merge_rows (dfs : list frame) (data : pydict) : option pydict :=
  match dfs with
  | [] => Some data
  | df :: rest =>
      df' ← drop_columns df ohlcv;
      row ← last_row (replace_nan df');
      merge_rows rest (update data row)
  end.

(** The date of the last daily row. *)
Definition latest_date (dfs : list frame) : option Z :=
  df ← dfs !! 0%nat;
  match get_col df "date" with
  | Some (ColDate ds) => mjoin (List.last (Some <$> ds) None)
  | _ => None
  end.

(** ** Storage *)

(** The database: whether it accepts connections, the quotes of every
    security ordered by date, and the [indicators] table with its columns
    and its rows under the key [(security, date)]. *)
Record Database : Type := {
  connects : bool;
  quotes : Z → list quote;
  indicators_columns : list string;
  indicators : gmap (Z * Z) (gmap string pyval)
}.

Definition set_indicators (db : Database) (t : gmap (Z * Z) (gmap string pyval))
    : Database :=
  {| connects := connects db; quotes := quotes db;
     indicators_columns := indicators_columns db; indicators := t |}.

(** [INSERT INTO indicators (...) VALUES (...) ON CONFLICT ON CONSTRAINT
    indicators_security_date_uq DO UPDATE SET k=EXCLUDED.k] for every
    key [k] of [row]; [None] is the error of the database. *)
Definition upsert (db : Database) (row : pydict) : option Database :=
  names ← mapM key_name (dict_keys row);
  if forallb (fun n => one_of n (indicators_columns db)) names then
    match dict_get row (KStr "security"), dict_get row (KStr "date") with
    | Some (PInt s), Some (PInt d) =>
        let new : gmap string pyval := list_to_map (zip names (map snd row)) in
        let old : gmap string pyval := default ∅ (indicators db !! (s, d)) in
        Some (set_indicators db (<[(s, d) := new ∪ old]> (indicators db)))
    | _, _ => None
    end
  else None.

(** ** The two pipelines *)

Inductive result : Type :=
| Returns (b : bool)
| Raises.

(** [IndicatorFactory.calculate]. *)
Definition calculate (config : list entry) (id : Z) (db : Database)
    : result * Database * list record :=
  let log := [(DEBUG, "calculate")] in
  if negb (connects db) then (Raises, db, log ++ [(ERROR, "exception")]) else
  let rows := quotes db id in
  let dfDaily := DataFrame rows in
  if (len dfDaily <? 10)%nat then
    (Returns true, db, log ++ [(INFO, "Skip indicator calculation (less data)")])
  else
    let raised log := (Raises, db, log ++ [(ERROR, "exception")]) in
    match resampleDataFrame dfDaily WEEKLY, resampleDataFrame dfDaily MONTHLY with
    | Some dfWeekly, Some dfMonthly =>
        match calculate_loop config [dfDaily; dfWeekly; dfMonthly] log with
        | (Completed dfs, log) =>
            match latest_date dfs, merge_rows dfs [] with
            | Some date, Some data =>
                let log := log ++ [(DEBUG, "Indicator data for security")] in
                (* forceUpdateEntries catches the error of the database *)
                match upsert db (update [(KStr "security", PInt id); (KStr "date", PInt date)] data) with
                | Some db' => (Returns true, db', log)
                | None => (Returns false, db, log ++ [(ERROR, "exception")])
                end
            | _, _ => raised log
            end
        | (_, log) => raised log
        end
    | _, _ => raised log
    end.

(** [IndicatorFactory.calculateMultiprocessing]. *)
Definition calculateMultiprocessing (id : Z) (config : list entry) (db : Database)
    : bool * Database * list record :=
  let log := [(INFO, "calculateMultiprocessing")] in
  let raised log := (false, db, log ++ [(ERROR, "exception")]) in
  if negb (connects db) then raised log else
  let records := quotes db id in
  let log := log ++ [(DEBUG, "got quotes")] in
  let dfDaily := DataFrame records in
  if (len dfDaily <? 10)%nat then
    (true, db, log ++ [(DEBUG, "Skip indicator calculation (less data)")])
  else
    match resampleDataFrame dfDaily WEEKLY, resampleDataFrame dfDaily MONTHLY with
    | Some dfWeekly, Some dfMonthly =>
        match calculateMultiprocessing_loop config [dfDaily; dfWeekly; dfMonthly] log with
        | (Completed dfs, log) =>
            match latest_date dfs, merge_rows dfs [] with
            | Some date, Some data =>
                let data := dict_set data (KStr "security") (PInt id) in
                let data := dict_set data (KStr "date") (PInt date) in
                match upsert db data with
                | Some db' => (true, db', log)
                | None => raised log
                end
            | _, _ => raised log
            end
        | (ReturnedFalse, log) => (false, db, log)
        | (LoopRaised, log) => raised log
        end
    | _, _ => raised log
    end.

End Rounded.

End Factory.

(* ===================================================================== *)
(** * Vocabulary of the properties                                        *)
(* ===================================================================== *)

Module Spec.
Import Py Float Frame Factory.

(** A text of decimal digits, at least one. *)
Definition digits_only (s : string) : Prop :=
  s ≠ "" ∧ ∀ c, In c (list_ascii_of_string s) →
              (nat_of_ascii "0" <= nat_of_ascii c <= nat_of_ascii "9")%nat.

(** The values that Python counts as numbers. *)
Definition is_number (v : pyval) : bool :=
  match v with
  | PInt _ | PFloat _ | PDecimal _ => true
  | _ => false
  end.

(** The daily rows that fall into bucket [k], in their order. *)
Definition bucket_rows (interval : Interval) (k : Z) (rows : list quote) : list quote :=
  filter (fun r => bucket interval (q_date r) = k) rows.

(** Quotes in the order of their dates, no date twice: the order in
    which the two queries deliver them. *)
Definition by_date (rows : list quote) : Prop :=
  StronglySorted (fun a b => q_date a < q_date b) rows.

(** No price and no volume of the row is NaN. *)
Definition complete (r : quote) : Prop :=
  Forall (fun x => is_nan x = false)
    [ q_open r; q_high r; q_low r; q_close r;
      q_split_adjusted_open r; q_split_adjusted_high r; q_split_adjusted_low r;
      q_split_adjusted_close r; q_adjusted_close r; q_volume r ].

(** The numbers of a list: its values other than NaN, in their order. *)
Definition numbers (xs : list fval) : list fval :=
  filter (fun x => is_nan x = false) xs.

(** [v] is one of [xs], and none of them is greater (smaller). *)
Definition is_max_of (v : fval) (xs : list fval) : Prop :=
  In v xs ∧ ∀ x, In x xs → fle x v = true.

Definition is_min_of (v : fval) (xs : list fval) : Prop :=
  In v xs ∧ ∀ x, In x xs → fle v x = true.

(** The cell of column [name] at row [p]. *)
Definition at_row (df : frame) (name : string) (p : nat) : option pyval :=
  c ← get_col df name; cell c p.

(** NaN, or a number that is not negative. *)
Definition nonneg (x : fval) : Prop :=
  match x with
  | FNaN => True
  | FInf neg => neg = false
  | FFin q => (0 <= q)%Q
  end.

(** The bucket of every row of a list of quotes. *)
Definition buckets (interval : Interval) (rows : list quote) : list Z :=
  map (bucket interval) (map q_date rows).

(** A frame with the first column of a name taken out. *)
Definition without (df : frame) (k : string) : frame :=
  {| index := index df; columns := remove_col (columns df) k |}.

End Spec.

(* ===================================================================== *)
(** * Concrete states and inputs                                          *)
(* ===================================================================== *)

Module Examples.
Import Py Logging Tasks Float Frame Indicators Factory.

(** ** The scheduler *)

(** Two moments at which a job is built. *)
Definition entropy0 : Entropy :=
  {| utcnow := 1700000000; uuid4 := "0b6c0a4e-0000-4000-8000-000000000001" |}.
Definition entropy1 : Entropy :=
  {| utcnow := 1700000050; uuid4 := "0b6c0a4e-0000-4000-8000-000000000002" |}.

(** The jobs that the quotes mutation queues for the securities 7 and 11. *)
Definition job_a : BackgroundJobData := new_job entropy0 (PStr "quotes") (PInt 7).
Definition job_b : BackgroundJobData := new_job entropy1 (PStr "quotes") (PInt 11).

(** An [indicators.json] without entries. *)
Definition empty_config : json := JObj [("securities", JArr [])].

(** A host without backup file and without workers. *)
Definition world0 : World :=
  {| jobs_json := None; indicators_json := Some (Document empty_config);
     active_children := []; logged := [] |}.

(** A handler as [__init__] leaves it, with a limit of one worker. *)
Definition handler0 : TaskHandler :=
  {| parallelProcesses := 1; jobQueue := []; backgroundTasks := [];
     shutdownRequest := false; task_cancelled := false;
     indicatorConfig := json_loads empty_config |}.

(** Every worker runs for a minute. *)
Definition a_minute (_ : BackgroundJobData) : nat := 60%nat.

(** A host with two CPUs: the handler starts, two jobs are added, and
    the scheduling loop makes one round. *)
Definition busy : option (TaskHandler * World) :=
  s ← init (Some 2) PNone world0;
  let r := scheduleTasks_round a_minute false (addJob job_b (addJob job_a (fst s))) (snd s) in
  Some (snd (fst r), snd r).

(** The backup that [shutdown] writes for the two jobs. *)
Definition two_jobs_doc : json :=
  default JNull (dumps_jobs [job_a; job_b]).
Definition world_two_jobs : World := write_jobs_json (Document two_jobs_doc) world0.

(** A backup whose second entry lacks most fields. *)
Definition half_broken_doc : json :=
  match two_jobs_doc with
  | JArr (j :: _) => JArr [j; JObj [("table", JStr "quotes")]]
  | d => d
  end.
Definition world_half_broken : World := write_jobs_json (Document half_broken_doc) world0.

(** ** The pipeline *)

(** Parameters as a configuration gives them: all of them texts. *)
Definition text_parameters : pydict :=
  [ (KStr "af", PStr "0.02"); (KStr "max", PStr "0.2"); (KStr "period", PStr "14") ].

(** The quote of a day around the price [c], with a volume of 100. *)
Definition day (d c : Z) : quote :=
  {| q_date := d;
     q_open := of_Z c; q_high := of_Z (c + 2); q_low := of_Z (c - 1); q_close := of_Z (c + 1);
     q_split_adjusted_open := of_Z c; q_split_adjusted_high := of_Z (c + 2);
     q_split_adjusted_low := of_Z (c - 1); q_split_adjusted_close := of_Z (c + 1);
     q_adjusted_close := of_Z (c + 1); q_volume := of_Z 100 |}.

(** Twelve trading days from Monday 2024-01-01 on. *)
Definition history : list quote :=
  [ day 19723 10; day 19724 11; day 19725 12; day 19726 11; day 19727 13;
    day 19730 14; day 19731 13; day 19732 15; day 19733 16; day 19734 15;
    day 19737 17; day 19738 18 ].

(** Two Mondays a fortnight apart, 2024-01-01 and 2024-01-15: the week
    between them has no quote. *)
Definition fortnight : list quote := [ day 19723 10; day 19737 17 ].

(** An [indicators] table with a column for every key that the
    configurations below make the pipelines write, the unmapped [slope]
    among them. *)
Definition indicators_table_columns : list string :=
  [ "security"; "date"; "slope"; "sma200_slope"; "sma3"; "sma3_rising" ].

(** A database that holds the given quotes for every security and no
    indicator row. *)
Definition db_of (rows : list quote) : Database :=
  {| connects := true; quotes := fun _ => rows;
     indicators_columns := indicators_table_columns; indicators := ∅ |}.

(** A slope of a column that does not exist, then a moving average. *)
Definition bad_then_good : list entry :=
  [ {| interval := "daily"; indicator := "Slope";
       parameters := [(KStr "source", PStr "sma200")];
       mapping := [("slope", "sma200_slope")] |};
    {| interval := "daily"; indicator := "SimpleMovingAverage";
       parameters := [(KStr "period", PStr "3"); (KStr "source", PStr "close")];
       mapping := [("sma", "sma3"); ("rising", "sma3_rising")] |} ].

End Examples.

(* ===================================================================== *)
(** * Vocabulary of the scheduler properties                              *)
(* ===================================================================== *)

Module Queue.
Import Py Logging Tasks.

(** The jobs for which the scheduling loop starts a worker. *)
Definition is_quotes (j : BackgroundJobData) : bool :=
  match table j with PStr s => String.eqb s "quotes" | _ => false end.

(** The names of the fields that [fromDict] reads. *)
Definition fields : list string :=
  [ "table"; "id1"; "id2"; "date1"; "date2"; "data"; "timestamp"; "uuid" ].

(** The warning of the scheduling loop for a job it has no worker for. *)
Definition no_worker : record :=
  (WARNING, "No background processing job for table defined").

(** Two jobs that agree on everything but the moment they were built. *)
Definition same_payload (a b : BackgroundJobData) : Prop :=
  table a = table b ∧ id1 a = id1 b ∧ id2 a = id2 b
  ∧ date1 a = date1 b ∧ date2 a = date2 b ∧ data a = data b.

(** A handler with one queued job whose payload holds a [Decimal]. *)
Definition decimal_job : BackgroundJobData :=
  BackgroundJobData_init Examples.entropy0 (PStr "quotes") (PInt 7) PNone PNone PNone
    (PDict [(KStr "period", PDecimal 14)]) PNone PNone.

Definition handler_decimal : TaskHandler :=
  addJob decimal_job (addJob Examples.job_a Examples.handler0).

End Queue.

(* ===================================================================== *)
(** * utils.py: the helpers of the resolvers                              *)
(* ===================================================================== *)

Module Inputs.
Import Py Factory.

(** [str.upper] on a text of ASCII characters. *)
Definition upper_char (c : ascii) : ascii :=
  let n := nat_of_ascii c in
  if (97 <=? n)%nat && (n <=? 122)%nat then ascii_of_nat (n - 32) else c.

Definition upper (s : string) : string :=
  string_of_list_ascii (map upper_char (list_ascii_of_string s)).

(** One round of the loop of [securityInputFilter]: [input[k].upper()]
    raises [AttributeError] on a value that is no text. *)
Definition upper_key (input : option pydict) (k : string) : option pydict :=
  input ← input;
  match dict_get input (KStr k) with
  | None => Some input
  | Some (PStr s) => Some (dict_set input (KStr k) (PStr (upper s)))
  | Some _ => None
  end.

(** [securityInputFilter]; [None] is the exception, which every caller
    catches. *)
Definition securityInputFilter (input : pydict) : option pydict :=
  fold_left upper_key ["code"; "exchange_code"] (Some input).

(** [parseBoolean]. *)
Definition parseBoolean (value : pyval) : bool :=
  match value with
  | PBool b => b
  | PStr s =>
      (0 <? String.length s)%nat && one_of (lower s) ["1"; "true"; "t"; "yes"; "y"]
  | _ => false
  end.

(** A text of ASCII characters, the texts on which [upper] and [lower]
    are [str.upper] and [str.lower]. *)
Definition is_ascii (s : string) : bool :=
  forallb (fun c => (nat_of_ascii c <? 128)%nat) (list_ascii_of_string s).

(** [str(z)] for an integer; [None] is the [ValueError] for one of more
    digits than [sys.int_max_str_digits]. *)
Definition str_of_int (z : Z) : option string :=
  if (int_max_str_digits <? String.length (pretty (Z.abs z)))%nat then None
  else Some (pretty z).

(** The input of a mutation for a security. *)
Definition apple : pydict :=
  [ (KStr "code", PStr "aapl"); (KStr "type", PStr "Stock");
    (KStr "exchange_code", PStr "us") ].

End Inputs.

(* ===================================================================== *)
(** * Vocabulary of the indicator properties                              *)
(* ===================================================================== *)

Module Signals.
Import Py Float Frame Indicators Factory.

(** The working columns that an indicator creates and deletes again; a
    column of the caller under one of these names is lost. *)
Definition temporaries (name : string) : list string :=
  if String.eqb name "RSI"
  then ["change"; "gain"; "loss"; "avg_gain"; "avg_loss"; "rs"]
  else [].

(** NaN, or a number that is zero. *)
Definition zero_or_nan (x : fval) : Prop :=
  match x with
  | FNaN => True
  | FInf _ => False
  | FFin q => (q == 0)%Q
  end.

(** A column of finite prices that never fall (never rise) from one row
    to the next. *)
Definition never_falls (qs : list Q) : Prop :=
  ∀ i a b, qs !! i = Some a → qs !! S i = Some b → (a <= b)%Q.

Definition never_rises (qs : list Q) : Prop :=
  ∀ i a b, qs !! i = Some a → qs !! S i = Some b → (b <= a)%Q.

(** A frame with one column of prices. *)
Definition prices (name : string) (qs : list Q) : frame :=
  {| index := map LInt (seqZ 0 (Z.of_nat (length qs)));
     columns := [(name, ColFloat (map FFin qs))] |}.

(** An entry of the configuration whose mapping neither renames the
    column [date] nor gives its name to another column. *)
Definition keeps_date (obj : entry) : Prop :=
  ("date" ∉ map fst (mapping obj)) ∧ ("date" ∉ map snd (mapping obj)).

(** Six closing prices that rise, fall, and stand still. *)
Definition rising : list Q := [1; 2; 4; 4; 5; 7]%Q.
Definition falling : list Q := [9; 8; 8; 6; 5; 3]%Q.
Definition flat : list Q := [5; 5; 5; 5; 5; 5]%Q.

End Signals.

(* ===================================================================== *)
(** * database.py and the quotes mutation                                 *)
(* ===================================================================== *)

Module Store.
Import Py Factory Inputs.

(** What [UpdateResult.exception] holds: nothing, the text of
    [forceUpdateEntries] for an empty list, or an exception object. *)
Inductive failure : Type :=
| NoEntries
| Caught.

(** The dataclass [UpdateResult] with the defaults of its [__init__]. *)
Record UpdateResult : Type := {
  success : bool;
  id : Z;
  exception : option failure
}.

Definition UpdateResult_init (success : bool) (id : Z) (exception : option failure)
    : UpdateResult :=
  {| success := success; id := id; exception := exception |}.

(** What went wrong in [getSecurityAndExchange]. *)
Inductive finding : Type :=
| NoMatch
| Several
| Invalid
| DbError.

(** The dataclass [SecurityExchangeResult]. *)
Record SecurityExchangeResult : Type := {
  code : option string;
  exchange_code : option string;
  exchange : option Z;
  sec_id : option Z;
  found : option finding
}.

(** [x.upper() if x != None else None]; the outer [None] is the
    [AttributeError] of a value that is neither. *)
Definition upper_or_none (x : pyval) : option (option string) :=
  match x with
  | PNone => Some None
  | PStr s => Some (Some (upper s))
  | _ => None
  end.

Section Connection.

(** The database behind the pool, and the two statements that the
    modelled functions send: the [SELECT] of [getSecurityAndExchange],
    which answers with the pairs of security and exchange id, last
    updated first, and [executemany] of the [INSERT ... ON CONFLICT ON
    CONSTRAINT ... DO UPDATE] of [forceUpdateEntries] for a table, its
    columns and the constraint. [None] is an error of the database. *)
Variable DB : Type.
Variable select_security : string → string → DB → option (list (Z * Z)).
Variable executemany : string → list string → string → list (list pyval) → DB → option DB.

(** [DatabaseConnector.getSecurityAndExchange]; [None] is the exception
    of the constructor, which is outside the [try]. *)
Definition getSecurityAndExchange (code exchange_code : pyval) (db : DB)
    : option SecurityExchangeResult :=
  c ← upper_or_none code;
  e ← upper_or_none exchange_code;
  let result f i x :=
    {| code := c; exchange_code := e; exchange := x; sec_id := i; found := f |} in
  Some match code, exchange_code with
       | PStr cs, PStr es =>
           if (0 <? String.length cs)%nat && (0 <? String.length es)%nat then
             match select_security cs es db with
             | None => result (Some DbError) None None
             | Some [] => result (Some NoMatch) None None
             | Some [(s, x)] => result None (Some s) (Some x)
             | Some ((s, x) :: _) => result (Some Several) (Some s) (Some x)
             end
           else result (Some Invalid) None None
       | _, _ => result (Some Invalid) None None
       end.

(** [identifier | entry]; [None] is the [TypeError] of an entry that is
    no dictionary. *)
Definition union (identifier : pydict) (entry : pyval) : option pydict :=
  match entry with
  | PDict e => Some (update identifier e)
  | _ => None
  end.

(** The loop that builds [tupleList]: every entry in the order of the
    keys of the first. [None] is a [TypeError] or the [KeyError] of an
    entry without one of these keys. *)
Definition tuples (identifier : pydict) (order : list pykey) (entries : list pyval)
    : option (list (list pyval)) :=
  mapM (fun entry => d ← union identifier entry; mapM (dict_get d) order) entries.

(** The body of the [try] of [forceUpdateEntries] for a list that is not
    empty; [None] is any exception. *)
Definition write_entries (table : string) (identifier : pydict) (entries : list pyval)
    (constraint : string) (db : DB) : option DB :=
  first ← head entries;
  firstEntry ← union identifier first;
  let order := dict_keys firstEntry in
  columns ← mapM Indicators.key_name order;
  tupleList ← tuples identifier order entries;
  executemany table columns constraint tupleList db.

(** [DatabaseConnector.forceUpdateEntries]. Only a list or a tuple can
    pass [len(data) > 0], [data[0]] and the loop; a text or a dictionary
    that is not empty raises on the way, and a value without a length
    raises at once. *)
Definition forceUpdateEntries (table : string) (identifier : pydict) (data : pyval)
    (constraint : string) (db : DB) : UpdateResult * DB :=
  let caught := (UpdateResult_init false 0 (Some Caught), db) in
  let nothing := (UpdateResult_init false 0 (Some NoEntries), db) in
  match data with
  | PList [] | PTuple [] | PStr "" | PDict [] => nothing
  | PList entries | PTuple entries =>
      match write_entries table identifier entries constraint db with
      | Some db' => (UpdateResult_init true 0 None, db')
      | None => caught
      end
  | _ => caught
  end.

End Connection.

End Store.

Module Mutation.
Import Py Logging Tasks Factory Inputs Store.

(** The dictionary that a resolver answers with. *)
Record answer : Type := {
  ok : bool;
  error : option failure
}.

Section Connection.
Variable DB : Type.
Variable select_security : string → string → DB → option (list (Z * Z)).
Variable executemany : string → list string → string → list (list pyval) → DB → option DB.

(** [Mutation.resolve_updateSecurityQuotes]. [env] is
    [os.environ.get('indicatorCalculation')], [e] the moment at which
    the job is built. Every exception ends in the answer of the
    [except]; the answer for a security that is not found carries a
    text, which stands here as [Caught] as well. *)
Definition resolve_updateSecurityQuotes (env : pyval) (e : Entropy) (data : pydict)
    (th : TaskHandler) (db : DB) : answer * TaskHandler * DB :=
  let failed := ({| ok := false; error := Some Caught |}, th, db) in
  match securityInputFilter data with
  | None => failed
  | Some data =>
      match dict_get data (KStr "code"), dict_get data (KStr "exchange_code") with
      | Some c, Some x =>
          match getSecurityAndExchange DB select_security c x db with
          | None => failed
          | Some selector =>
              match sec_id selector with
              | None => failed
              | Some s =>
                  match dict_get data (KStr "quotes") with
                  | None => failed
                  | Some quotes =>
                      let '(result, db') :=
                        forceUpdateEntries DB executemany "quotes"
                          [(KStr "security", PInt s)] quotes "security_date_uq" db in
                      let th' :=
                        if parseBoolean env
                        then addJob (new_job e (PStr "quotes") (PInt s)) th
                        else th in
                      ({| ok := success result; error := exception result |}, th', db')
                  end
              end
          end
      | _, _ => failed
      end
  end.

End Connection.

(** A database of one table: the quotes, as the rows written so far. *)
Definition quotes_only : Type := list (list pyval).

(** The security AAPL on the exchange US has the ids 7 and 1. *)
Definition one_security (c x : string) (_ : quotes_only) : option (list (Z * Z)) :=
  Some (if String.eqb c "AAPL" && String.eqb x "US" then [(7, 1)] else []).

(** A table that takes every row of three columns. *)
Definition append_rows (table : string) (columns : list string) (constraint : string)
    (rows : list (list pyval)) (db : quotes_only) : option quotes_only :=
  if forallb (fun r => (length r =? 3)%nat) rows then Some (db ++ rows) else None.

(** Two quotes for AAPL, and the same with the close of the second
    missing. *)
Definition two_quotes : pydict :=
  [ (KStr "code", PStr "aapl"); (KStr "exchange_code", PStr "us");
    (KStr "quotes",
     PList [ PDict [(KStr "date", PStr "2024-01-02"); (KStr "close", PInt 185)];
             PDict [(KStr "date", PStr "2024-01-03"); (KStr "close", PInt 184)] ]) ].

Definition ragged_quotes : pydict :=
  [ (KStr "code", PStr "aapl"); (KStr "exchange_code", PStr "us");
    (KStr "quotes",
     PList [ PDict [(KStr "date", PStr "2024-01-02"); (KStr "close", PInt 185)];
             PDict [(KStr "date", PStr "2024-01-03")] ]) ].

End Mutation.

(* ===================================================================== *)
(** * indicators/indicators.py: bands and returns                         *)
(* ===================================================================== *)

Module Numbers.
Import Py Float Factory.

(** ** Text to double *)

(** The digits of a [digitpart]: digits, with single underscores between
    them. The value so far, the number of digits, and what follows. *)
Fixpoint digitpart_go (cs : list ascii) (acc : Z) (n : nat) : Z * nat * list ascii :=
  match cs with
  | [] => (acc, n, [])
  | c :: cs' =>
      if is_digit c then digitpart_go cs' (10 * acc + digit_value c) (S n)
      else if Ascii.eqb c "_" then
        match cs' with
        | d :: cs'' =>
            if is_digit d then digitpart_go cs'' (10 * acc + digit_value d) (S n)
            else (acc, n, cs)
        | [] => (acc, n, cs)
        end
      else (acc, n, cs)
  end.

Definition digitpart (cs : list ascii) : option (Z * nat * list ascii) :=
  match cs with
  | c :: _ => if is_digit c then Some (digitpart_go cs 0 0) else None
  | [] => None
  end.

(** [number ::= [digitpart] "." digitpart | digitpart ["."]]: the digits
    as a whole number [m] and the count [n] of those after the point,
    for the value [m / 10^n]. *)
Definition number (cs : list ascii) : option (Z * nat * list ascii) :=
  match digitpart cs with
  | Some (i, _, rest) =>
      match rest with
      | c :: rest' =>
          if Ascii.eqb c "." then
            match digitpart rest' with
            | Some (f, nf, rest'') => Some (i * 10 ^ Z.of_nat nf + f, nf, rest'')
            | None => Some (i, O, rest')
            end
          else Some (i, O, rest)
      | [] => Some (i, O, [])
      end
  | None =>
      match cs with
      | c :: rest' => if Ascii.eqb c "." then digitpart rest' else None
      | [] => None
      end
  end.

Definition signed (cs : list ascii) : bool * list ascii :=
  match cs with
  | c :: r =>
      if Ascii.eqb c "-" then (true, r)
      else if Ascii.eqb c "+" then (false, r)
      else (false, cs)
  | [] => (false, [])
  end.

(** [exponent ::= ("e" | "E") [sign] digitpart], up to the end of the
    text; no exponent is the exponent 0. *)
Definition exponent (cs : list ascii) : option Z :=
  match cs with
  | [] => Some 0
  | c :: cs' =>
      if Ascii.eqb c "e" || Ascii.eqb c "E" then
        match digitpart (snd (signed cs')) with
        | Some (e, _, []) => Some (if fst (signed cs') then - e else e)
        | _ => None
        end
      else None
  end.

Section Rounded.
Variable rnd : Q → fval.

(** [float(s)] for a text of ASCII characters: blanks around it, a
    sign, then [inf], [infinity], [nan] in any case or a decimal number.
    The number is rounded once. [None] is [ValueError]. *)
Definition float_of_str (s : string) : option fval :=
  let '(neg, body) := signed (strip (list_ascii_of_string s)) in
  let word := lower (string_of_list_ascii body) in
  if one_of word ["inf"; "infinity"] then Some (FInf neg)
  else if String.eqb word "nan" then Some FNaN
  else
    '(m, n, rest) ← number body;
    e ← exponent rest;
    let q := (inject_Z m * (10 # 1) ^ (e - Z.of_nat n))%Q in
    Some (rnd (if neg then - q else q)%Q).

(** [float(v)]; [None] is the [TypeError], [ValueError] or
    [OverflowError] that Python raises. *)
Definition py_float (v : pyval) : option fval :=
  match v with
  | PFloat x => Some x
  | PBool b => Some (of_Z (Z.b2z b))
  | PInt z =>
      match rnd (inject_Z z) with
      | FInf _ => None
      | x => Some x
      end
  | PDecimal z => Some (rnd (inject_Z z))
  | PStr s => float_of_str s
  | PNone | PList _ | PTuple _ | PDict _ => None
  end.

End Rounded.

End Numbers.

Module Bands.
Import Py Float Frame Indicators Factory Numbers.

Section Library.
Variable rnd : Q → fval.

(** What the model takes from pandas and numpy as it is: the standard
    deviation of the window of [n] rows that ends at each row
    ([rolling(n).std(ddof=0)]), the natural logarithm of a double
    ([numpy.log]), and the sum over a window whose size is any Python
    value ([rolling(window=w).sum()], [None] being the exception for a
    value that is no window). *)
Variable rolling_std : nat → list fval → list fval.
Variable log : fval → fval.
Variable rolling_sum : pyval → list fval → option (list fval).

(** [s.astype(float)]. *)
Definition astype_float (c : column) : option (list fval) :=
  match c with
  | ColFloat xs => Some xs
  | ColBool bs => Some (map (fun b => of_Z (Z.b2z b)) bs)
  | ColDate _ => None
  | ColObject vs => mapM (py_float rnd) vs
  end.

(** ** BollingerBands *)

(** The statements of the [try] after [if len(df) > N], each reading
    the frame as the statements before it left it: the frame reached,
    and whether the end was reached. *)
Definition BollingerBands_compute (df : frame) (N : Z) (stdev : fval) (s : string)
    : bool * frame :=
  match floats df s with
  | None => (false, df)
  | Some xs =>
      if N <? 0 then (false, df) else
      let n := Z.to_nat N in
      let df := set_col df "std" (ColFloat (rolling_std n xs)) in
      match floats df s, floats df "std" with
      | Some xs, Some sd =>
          let sma := rolling_mean rnd n xs in
          let df := set_col df "sma" (ColFloat sma) in
          let spread := map (fmul rnd stdev) sd in
          let df := set_col df "bb_upper" (ColFloat (zip_with (fadd rnd) sma spread)) in
          let df := set_col df "bb_lower" (ColFloat (zip_with (fsub rnd) sma spread)) in
          let df := set_col df "bb_expanding"
                      (ColBool (map (fun c => fgt c f0) (pct_change rnd sd))) in
          match get_col df s ≫= astype_float with
          | Some src =>
              (true, set_col df "bb_pc"
                       (ColFloat (zip_with (fdiv rnd) (zip_with (fsub rnd) src sma) sd)))
          | None => (false, df)
          end
      | _, _ => (false, df)
      end
  end.

(** The body of [BollingerBands] for the three arguments. *)
Definition BollingerBands_body (df : frame) (period std source : pyval) : outcome :=
  let ks := ["sma"; "bb_upper"; "bb_lower"; "bb_pc"; "bb_expanding"] in
  let failed df := same_frame false (set_all_none df ks) ks in
  match py_int period, py_float rnd std with
  | Some N, Some stdev =>
      if Z.of_nat (len df) >? N then
        match column_name source with
        | None => failed df
        | Some s =>
            match BollingerBands_compute df N stdev s with
            | (true, df') =>
                (* df = df.drop('std', axis=1) is a new frame *)
                match del_col df' "std" with
                | Some df'' =>
                    {| success := true; mutated := df'; returned := df'';
                       keys := ks |}
                | None => failed df'
                end
            | (false, df') => failed df'
            end
        end
      else same_frame true (set_all_none df ks) ks
  | _, _ => failed df
  end.

Definition BollingerBands (df : frame) (params : pydict) : option outcome :=
  args ← kwargs [ ("period", Some (PDecimal 20)); ("std", Some (PDecimal 2));
                  ("source", Some (PStr "adjusted_close")) ] params;
  match args with
  | [period; std; source] => Some (BollingerBands_body df period std source)
  | _ => None
  end.

(** ** CumulativeReturn *)

Definition CumulativeReturn (df : frame) (params : pydict) : option outcome :=
  args ← kwargs [("interval", None); ("source", Some (PStr "close"))] params;
  match args with
  | [interval; source] =>
      let ks := ["cum_return"] in
      let failed df := same_frame false (set_all_none df ks) ks in
      Some match column_name source ≫= floats df with
           | None => failed df
           | Some xs =>
               let df := set_col df "logReturns"
                           (ColFloat (map log (zip_with (fdiv rnd) xs (shift1 xs)))) in
               match floats df "logReturns" ≫= rolling_sum interval with
               | None => failed df
               | Some total =>
                   let df := set_col df "cumulative_return" (ColFloat total) in
                   match del_col df "logReturns" with
                   | Some df' => same_frame true df' ks
                   | None => failed df
                   end
               end
           end
  | _ => None
  end.

End Library.

(** A deviation of one wherever the window is full, a logarithm that is
    right at 1 only, and the sum of the window for a whole number. *)
Definition unit_spread (n : nat) (xs : list fval) : list fval :=
  imap (fun i _ => if (n <=? S i)%nat then f1 else FNaN) xs.

Definition log_at_one (x : fval) : fval :=
  match x with
  | FFin q => if Qeq_bool q 1 then f0 else FNaN
  | _ => FNaN
  end.

Definition window_sum (w : pyval) (xs : list fval) : option (list fval) :=
  match w with
  | PInt n =>
      if n <? 0 then None
      else Some (imap (fun i _ =>
                         match window (Z.to_nat n) xs i with
                         | Some v => if existsb is_nan v then FNaN else fsum rnd_exact v
                         | None => FNaN
                         end) xs)
  | _ => None
  end.

(** [globals()] with the two indicators of this section beside the
    built-in ones. *)
Definition with_bands (name : string) : option indicator_fn :=
  if String.eqb name "CumulativeReturn"
  then Some (CumulativeReturn rnd_exact log_at_one window_sum)
  else if String.eqb name "BollingerBands"
  then Some (BollingerBands rnd_exact unit_spread)
  else builtin rnd_exact name.

(** The return over two days, left without a mapping and mapped. *)
Definition unmapped_return : entry :=
  {| interval := "daily"; indicator := "CumulativeReturn";
     parameters := [(KStr "interval", PInt 2)]; mapping := [] |}.

Definition mapped_return : entry :=
  {| interval := "daily"; indicator := "CumulativeReturn";
     parameters := [(KStr "interval", PInt 2)];
     mapping := [("cum_return", "return_2d")] |}.

(** Bands of two and a half deviations around the mean of three closes. *)
Definition wide_bands : pydict :=
  [ (KStr "period", PStr "3"); (KStr "std", PStr "2.5"); (KStr "source", PStr "close") ].

End Bands.

(* ===================================================================== *)
(** * Python values: facts                                                *)
(* ===================================================================== *)

Module PyFacts.
Import Py.

Lemma key_eqb_canon a b : key_eqb a b = true ↔ canon a = canon b.
Proof.
  destruct a as [|x|x|s], b as [|y|y|t]; simpl;
    rewrite ?Z.eqb_eq, ?String.eqb_eq, ?Bool.eqb_true_iff;
    split; intros H; try discriminate; try congruence.
  injection H as H. by destruct x, y.
Qed.

Lemma key_eqb_refl k : key_eqb k k = true.
Proof. by apply key_eqb_canon. Qed.

Lemma key_eqb_str s t : key_eqb (KStr s) (KStr t) = true ↔ s = t.
Proof. simpl. apply String.eqb_eq. Qed.

Lemma key_eqb_trans_false a b c :
  key_eqb a b = true → key_eqb a c = key_eqb b c.
Proof.
  intros Hab. apply key_eqb_canon in Hab.
  destruct (key_eqb a c) eqn:Hac, (key_eqb b c) eqn:Hbc; try reflexivity.
  - apply key_eqb_canon in Hac.
    assert (key_eqb b c = true) by (apply key_eqb_canon; congruence). congruence.
  - apply key_eqb_canon in Hbc.
    assert (key_eqb a c = true) by (apply key_eqb_canon; congruence). congruence.
Qed.

Lemma key_eqb_sym a b : key_eqb a b = key_eqb b a.
Proof.
  destruct (key_eqb a b) eqn:Hab, (key_eqb b a) eqn:Hba; try reflexivity.
  - apply key_eqb_canon in Hab.
    assert (key_eqb b a = true) by (by apply key_eqb_canon). congruence.
  - apply key_eqb_canon in Hba.
    assert (key_eqb a b = true) by (by apply key_eqb_canon). congruence.
Qed.

(** Setting a key that the dictionary does not have appends the item. *)
Lemma dict_set_fresh d k v :
  existsb (key_eqb k) (map fst d) = false → dict_set d k v = d ++ [(k, v)].
Proof.
  induction d as [|[k' v'] d IH]; simpl; [done|].
  intros H. apply orb_false_iff in H as [H1 H2].
  rewrite key_eqb_sym, H1. by rewrite IH.
Qed.

Lemma existsb_app_false {A} (f : A → bool) l1 l2 :
  existsb f (l1 ++ l2) = false ↔ existsb f l1 = false ∧ existsb f l2 = false.
Proof. rewrite existsb_app. apply orb_false_iff. Qed.

Lemma dict_of_items_distinct_gen acc items :
  distinct_keys (map fst (acc ++ items)) = true →
  fold_left (fun d kv => dict_set d (fst kv) (snd kv)) items acc = acc ++ items.
Proof.
  revert acc. induction items as [|[k v] items IH]; intros acc H; simpl.
  - by rewrite app_nil_r.
  - assert (Hk : existsb (key_eqb k) (map fst acc) = false).
    { clear IH. induction acc as [|[k' v'] acc IHacc]; simpl in *; [done|].
      apply andb_true_iff in H as [H1 H2].
      apply negb_true_iff in H1. rewrite map_app in H1. simpl in H1.
      apply existsb_app_false in H1 as [_ H1]. simpl in H1.
      apply orb_false_iff in H1 as [H1 _].
      rewrite key_eqb_sym, H1. simpl. by apply IHacc. }
    rewrite dict_set_fresh by done.
    rewrite IH; [by rewrite <- app_assoc|].
    by rewrite <- app_assoc.
Qed.

Lemma dict_of_items_distinct items :
  distinct_keys (map fst items) = true → dict_of_items items = items.
Proof. intros H. unfold dict_of_items. by rewrite dict_of_items_distinct_gen. Qed.

Lemma mapM_dumps_roundtrip l :
  Forall (fun v => json_native v = true → json_loads <$> json_dumps v = Some v) l →
  forallb json_native l = true →
  map json_loads <$> mapM json_dumps l = Some l.
Proof.
  induction 1 as [|x l Hx _ IH]; simpl; [done|].
  intros Hn. apply andb_true_iff in Hn as [Hnx Hnl].
  specialize (Hx Hnx). specialize (IH Hnl).
  destruct (json_dumps x) as [jx|]; [|done].
  destruct (mapM json_dumps l) as [js|]; [|done].
  simpl in *. congruence.
Qed.

Lemma mapM_items_roundtrip d :
  Forall (fun kv : pykey * pyval =>
            json_native (snd kv) = true → json_loads <$> json_dumps (snd kv) = Some (snd kv)) d →
  forallb (fun kv : pykey * pyval => is_str_key (fst kv) && json_native (snd kv)) d = true →
  map (fun kv : string * json => (KStr (fst kv), json_loads (snd kv)))
    <$> mapM (fun kv : pykey * pyval => pair (json_key (fst kv)) <$> json_dumps (snd kv)) d
  = Some d.
Proof.
  induction 1 as [|[k x] d Hx _ IH]; simpl; [done|].
  intros Hn. apply andb_true_iff in Hn as [Hnx Hnd].
  apply andb_true_iff in Hnx as [Hk Hnx].
  specialize (Hx Hnx). specialize (IH Hnd).
  destruct k; try discriminate.
  simpl in *.
  destruct (json_dumps x) as [jx|]; [|done]. simpl in *.
  match goal with |- context [mapM ?f d] => destruct (mapM f d) as [js|] end;
    simpl in *; congruence.
Qed.

(** Writing a JSON-native value and reading it back gives the value. *)
Lemma json_roundtrip v :
  json_native v = true → json_loads <$> json_dumps v = Some v.
Proof.
  induction v as [| | | | | |l IH|l IH|d IH] using pyval_nested_ind;
    simpl; intros Hn; try done.
  - pose proof (mapM_dumps_roundtrip l IH Hn) as H.
    destruct (mapM json_dumps l) as [js|]; simpl in *; congruence.
  - apply andb_true_iff in Hn as [Hall Hdist].
    pose proof (mapM_items_roundtrip d IH Hall) as H.
    destruct (mapM _ d) as [m|]; simpl in *; [|done].
    injection H as H. rewrite H. by rewrite dict_of_items_distinct.
Qed.

End PyFacts.

(* ===================================================================== *)
(** * The job scheduler: facts                                            *)
(* ===================================================================== *)

Module TasksFacts.
Import Py Logging Utils Tasks PyFacts Examples.

(** ** C4 *)

Lemma parseInt_no_override default : parseInt PNone default = default.
Proof. reflexivity. Qed.

(** With two or more CPUs the default is half their number, rounded
    down, and at least one. *)
Lemma default_parallelProcesses_half n :
  2 <= n → default_parallelProcesses (Some n) = n / 2 ∧ 1 <= default_parallelProcesses (Some n).
Proof.
  intros Hn. unfold default_parallelProcesses.
  rewrite Z.quot_div_nonneg by lia. split; [done|].
  apply Z.div_le_lower_bound; lia.
Qed.

(** With a limit of zero the scheduling loop starts no worker and takes
    no job off the queue. *)
Lemma dispatch_limit_zero run_time queue w :
  dispatch run_time queue 0 w = (queue, w).
Proof.
  destruct queue as [|j q]; [done|]. simpl.
  destruct (Z.of_nat (length (active_children w)) <? 0) eqn:H; [|done].
  apply Z.ltb_lt in H. lia.
Qed.

(** C4: on a host with one CPU and no [parallelProcesses] in the
    environment, [__init__] computes [int(1/2.0)], which is 0, not 1. *)
Theorem C4_single_cpu_default_is_zero :
  default_parallelProcesses (Some 1) = 0
  ∧ (parallelProcesses ∘ fst) <$> init (Some 1) PNone world0 = Some 0.
Proof. split; reflexivity. Qed.

(** ** C2 *)

Lemma init_backgroundTasks cpu env w th w' :
  init cpu env w = Some (th, w') → backgroundTasks th = [] ∧ jobQueue th = [].
Proof.
  unfold init. intros H.
  repeat match type of H with
         | context [match ?x with _ => _ end] => destruct x; try discriminate
         end;
  injection H as <- _; done.
Qed.

Lemma load_loop_backgroundTasks e backup th :
  backgroundTasks (snd (load_loop e backup th)) = backgroundTasks th.
Proof.
  revert th. induction backup as [|job rest IH]; intros th; simpl; [done|].
  destruct (fromDict e job); [|done]. by rewrite IH.
Qed.

Lemma loadJobs_backgroundTasks e th w :
  backgroundTasks (snd (fst (loadJobs e th w))) = backgroundTasks th.
Proof.
  unfold loadJobs.
  destruct (jobs_json w) as [[|doc]|]; try done.
  destruct (json_loads doc); try done.
  destruct (0 <? length l)%nat; [|done].
  pose proof (load_loop_backgroundTasks e l th) as H.
  destruct (load_loop e l th) as [[|] th']; simpl in *; done.
Qed.

(** No operation of the handler puts anything into [backgroundTasks]. *)
Lemma reachable_backgroundTasks th w :
  reachable th w → backgroundTasks th = [].
Proof.
  induction 1 as [cpu env w th w' Hi|j th w _ IH|e th w _ IH|rt wk th w _ IH _].
  - by apply init_backgroundTasks in Hi as [? _].
  - done.
  - by rewrite loadJobs_backgroundTasks.
  - unfold scheduleTasks_round.
    destruct (dispatch rt (jobQueue th) (parallelProcesses th) w).
    by repeat case_match.
Qed.

Lemma wait_backgroundTasks_nothing fuel th w :
  backgroundTasks th = [] → wait_backgroundTasks fuel th w = Some w.
Proof. intros H. destruct fuel; simpl; by rewrite H. Qed.

(** From a reachable state [shutdown] never sleeps: it needs no fuel,
    and the workers that were alive when it was called are alive when
    it has written the backup. *)
Lemma shutdown_never_waits fuel th w :
  reachable th w →
  ∃ th' w', shutdown fuel th w = Some (th', w')
            ∧ shutdown 0 th w = Some (th', w')
            ∧ active_children w' = active_children w
            ∧ jobQueue th' = []
            ∧ is_Some (jobs_json w').
Proof.
  intros Hr. apply reachable_backgroundTasks in Hr.
  unfold shutdown.
  rewrite !wait_backgroundTasks_nothing by done. simpl.
  destruct (dumps_jobs (jobQueue th)); eexists _, _; repeat split; eauto.
Qed.

Lemma busy_reachable th w : busy = Some (th, w) → reachable th w.
Proof.
  unfold busy. destruct (init (Some 2) PNone world0) as [[th0 w0]|] eqn:E; [|done].
  simpl. intros Heq. injection Heq as <- <-.
  apply (reach_round a_minute false).
  - do 2 apply reach_addJob. by apply (reach_init _ _ _ _ _ E).
  - revert E. unfold init. by repeat case_match; intros [= <- _].
Qed.

(** C2: [shutdown] in a state that the program reaches, with one job
    queued and one worker process alive. It returns without a second of
    sleep (no fuel is used), the backup holds the queued job, and the
    worker is still alive. *)
Theorem C2_shutdown_drains_while_worker_alive :
  ∃ th w th' w',
    busy = Some (th, w) ∧ reachable th w
    ∧ jobQueue th = [job_b] ∧ active_children w = [55%nat]
    ∧ shutdown 0 th w = Some (th', w')
    ∧ shutdownRequest th' = true ∧ task_cancelled th' = true
    ∧ jobQueue th' = []
    ∧ jobs_json w' = (Document <$> dumps_jobs [job_b])
    ∧ (0 < length (active_children w'))%nat.
Proof.
  eexists _, _, _, _. split; [reflexivity|]. split.
  { by apply busy_reachable. }
  repeat split. simpl. lia.
Qed.

(** ** C3 and C5 *)

Lemma load_loop_app e backup th :
  ∀ jobs, mapM (fromDict e) backup = Some jobs →
  load_loop e backup th = (true, set_queue (jobQueue th ++ jobs) th).
Proof.
  revert th. induction backup as [|job rest IH]; intros th jobs H; simpl in *.
  - injection H as <-. rewrite app_nil_r. by destruct th.
  - destruct (fromDict e job) as [j|]; [|done]. simpl in H.
    destruct (mapM (fromDict e) rest) as [js|] eqn:Hrest; [|done].
    injection H as <-. rewrite (IH _ js eq_refl). simpl.
    by rewrite <- app_assoc.
Qed.

(** The loop stops at the first entry that is not a job; the entries
    before it are in the queue. *)
Lemma load_loop_prefix e backup th :
  ∃ jobs, jobQueue (snd (load_loop e backup th)) = jobQueue th ++ jobs
          ∧ (length jobs <= length backup)%nat
          ∧ mapM (fromDict e) (take (length jobs) backup) = Some jobs
          ∧ (fst (load_loop e backup th) = true ↔ length jobs = length backup).
Proof.
  revert th. induction backup as [|job rest IH]; intros th; simpl.
  - exists []. by rewrite app_nil_r.
  - destruct (fromDict e job) as [j|] eqn:Hj.
    + destruct (IH (set_queue (jobQueue th ++ [j]) th)) as (js & Hq & Hlen & Hm & Hok).
      exists (j :: js). simpl in *. rewrite Hq, <- app_assoc. simpl.
      rewrite Hj. simpl. rewrite Hm. simpl.
      repeat split; try lia; intros; [f_equal|]; apply Hok; [done|lia].
    + exists []. simpl. rewrite app_nil_r. repeat split; try lia; done.
Qed.

Lemma asdict_native j : annotated j = true → json_native (asdict j) = true.
Proof.
  unfold annotated. intros H.
  repeat (apply andb_true_iff in H as [H ?]).
  destruct j as [ts uu tb i1 i2 d1 d2 da]; simpl in *.
  destruct ts, uu, tb; try discriminate.
  destruct i1; try discriminate; destruct i2; try discriminate;
    destruct d1; try discriminate; destruct d2; try discriminate;
    simpl; by rewrite ?andb_true_r.
Qed.

Lemma fromDict_asdict e j : annotated j = true → fromDict e (asdict j) = Some j.
Proof.
  unfold annotated. intros H.
  repeat (apply andb_true_iff in H as [H ?]).
  destruct j as [ts uu tb i1 i2 d1 d2 da]; simpl in *.
  by destruct ts, uu.
Qed.

Lemma map_asdict_native jobs :
  Forall (fun j => annotated j = true) jobs →
  forallb json_native (map asdict jobs) = true.
Proof.
  induction 1 as [|j jobs Hj _ IH]; [done|].
  cbn [map forallb]. by rewrite asdict_native, IH.
Qed.

(** What [shutdown] writes decodes to the dictionaries of the jobs. *)
Lemma dumps_jobs_loads jobs :
  Forall (fun j => annotated j = true) jobs →
  ∃ doc, dumps_jobs jobs = Some doc ∧ json_loads doc = PList (map asdict jobs).
Proof.
  intros H. pose proof (json_roundtrip (PList (map asdict jobs))) as R.
  cbn [json_native] in R. specialize (R (map_asdict_native _ H)).
  unfold dumps_jobs. destruct (json_dumps _) as [doc|]; [|done].
  exists doc. split; [done|]. simpl in R. congruence.
Qed.

Lemma mapM_fromDict_asdict e jobs :
  Forall (fun j => annotated j = true) jobs →
  mapM (fromDict e) (map asdict jobs) = Some jobs.
Proof.
  induction 1 as [|j jobs Hj _ IH]; [done|].
  cbn [map mapM]. rewrite fromDict_asdict by done. simpl. by rewrite IH.
Qed.

(** C3, the claim as stated: the value that [loadJobs] returns for a
    backup of two jobs is the flag [True], not the number 2; and a
    backup whose second entry is not a job leaves one job in the queue
    while the flag says that nothing was loaded. *)
Lemma C3_returns_a_flag_not_the_count :
  (∃ th' w', loadJobs entropy0 handler0 world_two_jobs = (true, th', w')
             ∧ jobQueue th' = [job_a; job_b]
             ∧ PBool true ≠ PInt 2 ∧ Z.b2z true ≠ 2)
  ∧ (∃ th' w', loadJobs entropy0 handler0 world_half_broken = (false, th', w')
               ∧ jobQueue th' = [job_a]).
Proof.
  split; eexists _, _; (split; [reflexivity|]); repeat split; done.
Qed.

(** The cases of [loadJobs], by the content of the backup file. *)
Lemma loadJobs_cases (e : Entropy) (th : TaskHandler) (w : World) :
  let ret := fst (fst (loadJobs e th w)) in
  let th' := snd (fst (loadJobs e th w)) in
  let w' := snd (loadJobs e th w) in
  jobs_json w' = jobs_json w
  ∧ (∀ doc backup jobs,
       jobs_json w = Some (Document doc) → json_loads doc = PList backup →
       mapM (fromDict e) backup = Some jobs →
       jobQueue th' = jobQueue th ++ jobs ∧ ret = bool_decide (jobs ≠ []))
  ∧ ((jobs_json w = None ∨ jobs_json w = Some Unparsable
      ∨ (∃ doc, jobs_json w = Some (Document doc)
                ∧ (json_loads doc = PList [] ∨ ∀ l, json_loads doc ≠ PList l))) →
     ret = false ∧ th' = th)
  ∧ (ret = true →
     ∃ doc backup jobs,
       jobs_json w = Some (Document doc) ∧ json_loads doc = PList backup
       ∧ mapM (fromDict e) backup = Some jobs ∧ jobs ≠ []
       ∧ jobQueue th' = jobQueue th ++ jobs).
Proof.
  cbn zeta. unfold loadJobs.
  destruct (jobs_json w) as [[|doc]|] eqn:Hfile.
  - simpl. repeat split; try done.
  - destruct (json_loads doc) as [|b|z|x|z|s|backup|l|d] eqn:Hdoc;
      try (simpl; split; [done|]; split; [|split; [|done]];
           [ intros doc' backup jobs [= <-] Hb; congruence
           | intros _; split; [done|]; by destruct th ]).
    destruct backup as [|job rest].
    + simpl. split; [done|]. split; [|split; [|done]].
      * intros doc' backup jobs [= <-] Hb. rewrite Hdoc in Hb.
        injection Hb as <-. simpl. intros [= <-]. rewrite app_nil_r.
        split; [done|]. by rewrite bool_decide_eq_false_2 by (intros H; by apply H).
      * intros _. split; [done|]. by destruct th.
    + change (0 <? length (job :: rest))%nat with true. cbv iota.
      destruct (load_loop_prefix e (job :: rest) th) as (jobs & Hq & Hlen & Hm & Hok).
      destruct (load_loop e (job :: rest) th) as [ok th'] eqn:Hloop.
      simpl in Hq, Hok.
      destruct ok; simpl.
      * assert (Hall : length jobs = length (job :: rest)) by (by apply Hok).
        rewrite Hall, firstn_all in Hm.
        assert (Hne : jobs ≠ []) by (intros ->; simpl in Hall; lia).
        split; [done|]. split; [|split].
        -- intros doc' backup jobs' [= <-] Hb. rewrite Hdoc in Hb.
           injection Hb as <-. rewrite Hm. intros [= <-].
           split; [done|]. by rewrite bool_decide_eq_true_2.
        -- intros [?|[?|(doc' & [= <-] & [Hl|Hl])]]; try done.
           ++ congruence.
           ++ by specialize (Hl (job :: rest)).
        -- intros _. exists doc, (job :: rest), jobs. repeat split; done.
      * split; [done|]. split; [|split; [|done]].
        -- intros doc' backup jobs' [= <-] Hb. rewrite Hdoc in Hb.
           injection Hb as <-. intros Hall.
           rewrite (load_loop_app _ _ _ _ Hall) in Hloop. done.
        -- intros [?|[?|(doc' & [= <-] & [Hl|Hl])]]; try done.
           ++ congruence.
           ++ by specialize (Hl (job :: rest)).
  - simpl. repeat split; try done.
Qed.

(** C3, amended: [loadJobs] is a total function (it never raises) that
    reads the backup and leaves it as it is. When the backup is a JSON
    list of job dictionaries, they are appended to the queue in the
    order of the list, and the flag returned says whether there was at
    least one. When the backup is missing, is no JSON text, is no list
    or is the empty list, the flag is [False] and the handler is
    unchanged. The flag is [True] only if every entry was restored. *)
Theorem C3_loadJobs_restores_in_order (e : Entropy) (th : TaskHandler) (w : World) :
  let ret := fst (fst (loadJobs e th w)) in
  let th' := snd (fst (loadJobs e th w)) in
  let w' := snd (loadJobs e th w) in
  jobs_json w' = jobs_json w
  ∧ (∀ doc backup jobs,
       jobs_json w = Some (Document doc) → json_loads doc = PList backup →
       mapM (fromDict e) backup = Some jobs →
       jobQueue th' = jobQueue th ++ jobs ∧ ret = bool_decide (jobs ≠ []))
  ∧ ((jobs_json w = None ∨ jobs_json w = Some Unparsable
      ∨ (∃ doc, jobs_json w = Some (Document doc)
                ∧ (json_loads doc = PList [] ∨ ∀ l, json_loads doc ≠ PList l))) →
     ret = false ∧ th' = th)
  ∧ (ret = true →
     ∃ doc backup jobs,
       jobs_json w = Some (Document doc) ∧ json_loads doc = PList backup
       ∧ mapM (fromDict e) backup = Some jobs ∧ jobs ≠ []
       ∧ jobQueue th' = jobQueue th ++ jobs).
Proof. exact (loadJobs_cases e th w). Qed.

(** The theorem at the backup of two jobs. *)
Lemma C3_loadJobs_restores_in_order_witness :
  jobQueue (snd (fst (loadJobs entropy0 handler0 world_two_jobs)))
    = jobQueue handler0 ++ [job_a; job_b]
  ∧ fst (fst (loadJobs entropy0 handler0 world_two_jobs)) = bool_decide ([job_a; job_b] ≠ []).
Proof.
  apply (proj1 (proj2 (C3_loadJobs_restores_in_order entropy0 handler0 world_two_jobs))
           two_jobs_doc (map asdict [job_a; job_b]) [job_a; job_b]);
    reflexivity.
Defined.

Lemma say_files l msg w :
  jobs_json (say l msg w) = jobs_json w
  ∧ indicators_json (say l msg w) = indicators_json w.
Proof. done. Qed.

Lemma dispatch_files run_time queue limit w :
  jobs_json (snd (dispatch run_time queue limit w)) = jobs_json w
  ∧ indicators_json (snd (dispatch run_time queue limit w)) = indicators_json w.
Proof.
  revert w. induction queue as [|j q IH]; intros w; simpl; [done|].
  destruct (_ <? limit); [|done].
  repeat case_match; rewrite !(proj1 (IH _)), !(proj2 (IH _)); done.
Qed.

Lemma loadJobs_files e th w :
  jobs_json (snd (loadJobs e th w)) = jobs_json w
  ∧ indicators_json (snd (loadJobs e th w)) = indicators_json w.
Proof. unfold loadJobs. repeat case_match; done. Qed.

(** A handler exists only if [indicators.json] could be read. *)
Lemma reachable_indicators_json th w :
  reachable th w → ∃ cfg, indicators_json w = Some (Document cfg).
Proof.
  induction 1 as [cpu env w th w' Hi|j th w _ IH|e th w _ IH|rt wk th w _ IH _].
  - unfold init in Hi. revert Hi. repeat case_match; try done;
      intros [= _ <-]; eauto.
  - done.
  - destruct IH as [cfg IH]. exists cfg. by rewrite (proj2 (loadJobs_files _ _ _)).
  - destruct IH as [cfg IH]. exists cfg. unfold scheduleTasks_round.
    pose proof (dispatch_files rt (jobQueue th) (parallelProcesses th) w) as [_ H].
    destruct (dispatch rt (jobQueue th) (parallelProcesses th) w).
    repeat case_match; simplify_eq; simpl in *; congruence.
Qed.

Lemma shutdown_writes fuel th w doc :
  backgroundTasks th = [] → dumps_jobs (jobQueue th) = Some doc →
  ∃ th1 w1, shutdown fuel th w = Some (th1, w1)
            ∧ jobs_json w1 = Some (Document doc)
            ∧ indicators_json w1 = indicators_json w.
Proof.
  intros Hbg Hd. unfold shutdown.
  rewrite wait_backgroundTasks_nothing by done. simpl. rewrite Hd.
  eexists _, _. repeat split.
Qed.

Lemma init_starts cpu_count env w cfg :
  indicators_json w = Some (Document cfg) →
  ∃ th w', init cpu_count env w = Some (th, w')
           ∧ jobQueue th = [] ∧ jobs_json w' = jobs_json w.
Proof.
  intros Hc. unfold init.
  destruct cpu_count; simpl; rewrite Hc; eexists _, _; repeat split.
Qed.

(** C5: let a reachable handler hold any queue of jobs that have their
    annotated types. [shutdown] returns (with any fuel) and leaves a
    backup; a handler started afterwards on the same files has an empty
    queue, and [loadJobs] gives it the jobs of the old queue, each field
    of each job as it was, in the old order. *)
Theorem C5_shutdown_restart_restores_queue
    (fuel : nat) (th : TaskHandler) (w : World)
    (cpu_count : option Z) (env : pyval) (e : Entropy) :
  reachable th w →
  Forall (fun j => annotated j = true) (jobQueue th) →
  ∃ th1 w1 th2 w2,
    shutdown fuel th w = Some (th1, w1)
    ∧ init cpu_count env w1 = Some (th2, w2)
    ∧ jobQueue th2 = []
    ∧ jobQueue (snd (fst (loadJobs e th2 w2))) = jobQueue th
    ∧ fst (fst (loadJobs e th2 w2)) = bool_decide (jobQueue th ≠ []).
Proof.
  intros Hreach Hjobs.
  pose proof (reachable_backgroundTasks _ _ Hreach) as Hbg.
  destruct (reachable_indicators_json _ _ Hreach) as [cfg Hcfg].
  destruct (dumps_jobs_loads _ Hjobs) as (doc & Hdump & Hload).
  destruct (shutdown_writes fuel th w doc Hbg Hdump) as (th1 & w1 & Hs & Hfile & Hc1).
  rewrite Hcfg in Hc1.
  destruct (init_starts cpu_count env w1 cfg Hc1) as (th2 & w2 & Hi & Hq & Hfile2).
  rewrite Hfile in Hfile2.
  exists th1, w1, th2, w2. split; [done|]. split; [done|]. split; [done|].
  destruct (loadJobs_cases e th2 w2) as (_ & Hlist & _).
  destruct (Hlist doc _ _ Hfile2 Hload (mapM_fromDict_asdict e _ Hjobs)) as [H1 H2].
  by rewrite H1, Hq.
Qed.

(** The theorem at the state [busy]: one job queued on a host with two
    CPUs while the worker of another job runs. *)
Lemma C5_shutdown_restart_restores_queue_witness :
  ∃ th w th1 w1 th2 w2,
    busy = Some (th, w)
    ∧ shutdown 0 th w = Some (th1, w1)
    ∧ init (Some 2) PNone w1 = Some (th2, w2)
    ∧ jobQueue th2 = []
    ∧ jobQueue (snd (fst (loadJobs entropy0 th2 w2))) = jobQueue th
    ∧ fst (fst (loadJobs entropy0 th2 w2)) = bool_decide (jobQueue th ≠ []).
Proof.
  destruct busy as [[th w]|] eqn:Hb; [|discriminate].
  destruct (C5_shutdown_restart_restores_queue 0 th w (Some 2) PNone entropy0)
    as (th1 & w1 & th2 & w2 & H).
  - by apply busy_reachable.
  - revert Hb. vm_compute. intros [= <- <-]. repeat constructor.
  - exists th, w, th1, w1, th2, w2. split; [reflexivity | exact H].
Defined.

End TasksFacts.

(* ===================================================================== *)
(** * Parameters and the two pipelines: facts                             *)
(* ===================================================================== *)

Module FactoryFacts.
Import Py Logging Float Frame Indicators Factory PyFacts Spec Examples.

(** ** C8 *)

Lemma is_digit_spec c :
  is_digit c = true ↔ (nat_of_ascii "0" <= nat_of_ascii c <= nat_of_ascii "9")%nat.
Proof.
  unfold is_digit. rewrite andb_true_iff, !Nat.leb_le.
  change (nat_of_ascii "0") with 48%nat. change (nat_of_ascii "9") with 57%nat. lia.
Qed.

Lemma isdecimal_spec s : isdecimal s = true ↔ digits_only s.
Proof.
  unfold isdecimal, digits_only.
  destruct s as [|c s]; simpl.
  - split; [done|]. by intros [H _].
  - rewrite andb_true_iff, forallb_forall. split.
    + intros [Hc Hs]. split; [done|]. intros c' [<-|Hin]; apply is_digit_spec; auto.
    + intros [_ H]. split; [apply is_digit_spec; auto|].
      intros c' Hin. apply is_digit_spec; auto.
Qed.

Lemma dict_get_map_values (f : pyval → pyval) d k :
  dict_get (map (fun kv => (fst kv, f (snd kv))) d) k = f <$> dict_get d k.
Proof.
  induction d as [|[k' v] d IH]; simpl; [done|]. by destruct (key_eqb k' k).
Qed.

(** On a dictionary, [parseParameters] keeps the keys in their order and
    parses every value. *)
Lemma parseParameters_map input :
  distinct_keys (dict_keys input) = true →
  parseParameters input = map (fun kv => (fst kv, parse_value (snd kv))) input.
Proof.
  intros Hd. unfold parseParameters.
  transitivity (dict_of_items (map (fun kv => (fst kv, parse_value (snd kv))) input)).
  - unfold dict_of_items. generalize (@nil (pykey * pyval)).
    induction input as [|kv input IH]; intros acc; simpl; [done|].
    apply IH. simpl in Hd. by apply andb_true_iff in Hd as [_ ?].
  - apply dict_of_items_distinct. rewrite map_map. simpl. exact Hd.
Qed.

(** C8, the claim as stated: of the texts 0.02, 0.2 and 14 only the
    last becomes a number; the fractions stay texts. *)
Lemma C8_fraction_stays_text :
  dict_get (parseParameters text_parameters) (KStr "af") = Some (PStr "0.02")
  ∧ is_number (PStr "0.02") = false
  ∧ dict_get (parseParameters text_parameters) (KStr "period") = Some (PDecimal 14).
Proof. repeat split. Qed.

(** C8, amended: [parseParameters] keeps the keys of a dictionary. A
    value that is a text of decimal digits only (at least one) becomes
    the [Decimal] of that number; every other value, the texts with a
    sign, a point or an exponent among them, stays as it is. *)
Theorem C8_parseParameters_digit_strings (input : pydict) (k : pykey) :
  distinct_keys (dict_keys input) = true →
  (dict_get input k = None → dict_get (parseParameters input) k = None)
  ∧ (∀ s, dict_get input k = Some (PStr s) → digits_only s →
          dict_get (parseParameters input) k
          = Some (PDecimal (digits_value (list_ascii_of_string s))))
  ∧ (∀ v, dict_get input k = Some v → (∀ s, v = PStr s → ¬ digits_only s) →
          dict_get (parseParameters input) k = Some v).
Proof.
  intros Hd. rewrite parseParameters_map, dict_get_map_values by done.
  split; [by intros ->|]. split.
  - intros s -> Hs. simpl. by rewrite (proj2 (isdecimal_spec s) Hs).
  - intros v -> Hv. simpl. destruct v; try done. simpl.
    destruct (isdecimal s) eqn:E; [|done].
    apply isdecimal_spec in E. by destruct (Hv s eq_refl).
Qed.

Lemma C8_parseParameters_digit_strings_witness :
  dict_get (parseParameters text_parameters) (KStr "period")
  = Some (PDecimal (digits_value (list_ascii_of_string "14"))).
Proof.
  apply (proj1 (proj2 (C8_parseParameters_digit_strings text_parameters (KStr "period")
                         eq_refl)) "14" eq_refl).
  split; [done|]. intros c [<-|[<-|[]]]; vm_compute; lia.
Defined.

(** ** C9 and C1 *)

Lemma len_DataFrame rows : len (DataFrame rows) = length rows.
Proof.
  unfold len, DataFrame, range. simpl.
  by rewrite length_map, length_seqZ, Nat2Z.id.
Qed.

(** C9: when the database answers and holds fewer than ten quotes of a
    security, both pipelines return [True] and leave the database as it
    was. *)
Theorem C9_short_history_is_skipped
    (rnd : Q → fval) (globals : string → option indicator_fn)
    (config : list entry) (id : Z) (db : Database) :
  connects db = true →
  (length (quotes db id) < 10)%nat →
  (∃ log, calculateMultiprocessing rnd globals id config db = (true, db, log))
  ∧ (∃ log, calculate rnd globals config id db = (Returns true, db, log)).
Proof.
  intros Hc Hlen.
  unfold calculateMultiprocessing, calculate. rewrite Hc. simpl.
  rewrite len_DataFrame.
  assert (H : (length (quotes db id) <? 10)%nat = true) by (apply Nat.ltb_lt; lia).
  rewrite H. split; eexists; reflexivity.
Qed.

Lemma C9_short_history_is_skipped_witness :
  (∃ log, calculateMultiprocessing rnd_exact (builtin rnd_exact) 7 bad_then_good
            (db_of (take 9 history)) = (true, db_of (take 9 history), log))
  ∧ (∃ log, calculate rnd_exact (builtin rnd_exact) bad_then_good 7
              (db_of (take 9 history)) = (Returns true, db_of (take 9 history), log)).
Proof.
  apply C9_short_history_is_skipped; [reflexivity | simpl; lia].
Defined.

Section Loops.
Variable globals : string → option indicator_fn.

(** After an indicator that reports failure, the loop of [calculate]
    goes on with the next entry ... *)
Lemma calculate_loop_failed obj rest dfs dfs' log :
  run_entry globals dfs obj = Failed dfs' →
  calculate_loop globals (obj :: rest) dfs log
  = calculate_loop globals rest dfs'
      (log ++ [(DEBUG, "Calculate indicator")] ++ [warn_unsuccessful]).
Proof. intros H. simpl. rewrite H. by rewrite <- app_assoc. Qed.

(** ... and the loop of [calculateMultiprocessing] ends, whatever is
    configured after it. *)
Lemma calculateMultiprocessing_loop_failed obj rest dfs dfs' log :
  run_entry globals dfs obj = Failed dfs' →
  calculateMultiprocessing_loop globals (obj :: rest) dfs log
  = (ReturnedFalse, log ++ [(DEBUG, "Calculate indicator")] ++ [warn_unsuccessful]).
Proof. intros H. simpl. rewrite H. by rewrite <- app_assoc. Qed.

(** Entries that succeed hand their frames to the rest of the loop. *)
Lemma calculateMultiprocessing_loop_app pre rest dfs log dfs1 log1 :
  calculateMultiprocessing_loop globals pre dfs log = (Completed dfs1, log1) →
  calculateMultiprocessing_loop globals (pre ++ rest) dfs log
  = calculateMultiprocessing_loop globals rest dfs1 log1.
Proof.
  revert dfs log. induction pre as [|obj pre IH]; intros dfs log H.
  - simpl in H. by injection H as <- <-.
  - cbn [app calculateMultiprocessing_loop] in *.
    destruct (run_entry globals dfs obj); try done. by apply IH.
Qed.

Lemma calculate_loop_app pre rest dfs log dfs1 log1 :
  calculate_loop globals pre dfs log = (Completed dfs1, log1) →
  calculate_loop globals (pre ++ rest) dfs log
  = calculate_loop globals rest dfs1 log1.
Proof.
  revert dfs log. induction pre as [|obj pre IH]; intros dfs log H.
  - simpl in H. by injection H as <- <-.
  - cbn [app calculate_loop] in *.
    destruct (run_entry globals dfs obj); try done; by apply IH.
Qed.

(** Wherever in the configuration the first failing indicator stands,
    the loop of the worker ends there with [False]. *)
Lemma calculateMultiprocessing_loop_stops pre obj post dfs log dfs1 log1 dfs2 :
  calculateMultiprocessing_loop globals pre dfs log = (Completed dfs1, log1) →
  run_entry globals dfs1 obj = Failed dfs2 →
  calculateMultiprocessing_loop globals (pre ++ obj :: post) dfs log
  = (ReturnedFalse, log1 ++ [(DEBUG, "Calculate indicator")] ++ [warn_unsuccessful]).
Proof.
  intros Hpre Hobj.
  rewrite (calculateMultiprocessing_loop_app _ _ _ _ _ _ Hpre).
  by apply (calculateMultiprocessing_loop_failed _ _ _ dfs2).
Qed.

End Loops.

(** Whenever the worker returns [False], the database is as it was. *)
Lemma calculateMultiprocessing_false_writes_nothing rnd globals id config db :
  fst (fst (calculateMultiprocessing rnd globals id config db)) = false →
  snd (fst (calculateMultiprocessing rnd globals id config db)) = db.
Proof.
  unfold calculateMultiprocessing.
  repeat (case_match; simpl; try done).
Qed.

(** C1: twelve days of quotes and two configured indicators, of which
    the first fails (its source column does not exist). The worker
    function [calculateMultiprocessing] logs the warning and returns
    [False] at once: the second indicator is not run and nothing is
    written. [calculate], the same loop without the [return], goes on:
    it runs the second indicator and writes the row, with the null
    placeholder of the first. *)
Theorem C1_worker_stops_at_failed_indicator :
  let worker :=
    calculateMultiprocessing rnd_exact (builtin rnd_exact) 7 bad_then_good (db_of history) in
  let sibling :=
    calculate rnd_exact (builtin rnd_exact) bad_then_good 7 (db_of history) in
  worker = (false, db_of history,
            [ (INFO, "calculateMultiprocessing"); (DEBUG, "got quotes");
              (DEBUG, "Calculate indicator"); warn_unsuccessful ])
  ∧ fst (fst sibling) = Returns true
  ∧ snd sibling = [ (DEBUG, "calculate"); (DEBUG, "Calculate indicator");
                    warn_unsuccessful; (DEBUG, "Calculate indicator");
                    (DEBUG, "Indicator data for security") ]
  ∧ (indicators (snd (fst sibling)) !! (7, 19738)) ≫= (.!! "slope") = Some PNone
  ∧ (indicators (snd (fst sibling)) !! (7, 19738)) ≫= (.!! "sma3")
    = Some (PFloat (FFin (53 # 3))).
Proof. cbn zeta. repeat split; vm_compute; reflexivity. Qed.

(** ** C10 *)

Lemma lookup_store_col cols k c : lookup_col (store_col cols k c) k = Some c.
Proof.
  induction cols as [|[k' c'] cols IH]; simpl.
  - by rewrite String.eqb_refl.
  - destruct (String.eqb k' k) eqn:E; simpl; rewrite E; done.
Qed.

Lemma lookup_store_col_ne cols k k' c :
  k ≠ k' → lookup_col (store_col cols k c) k' = lookup_col cols k'.
Proof.
  intros Hne. induction cols as [|[k0 c0] cols IH]; simpl.
  - destruct (String.eqb k k') eqn:E; [|done]. by apply String.eqb_eq in E.
  - destruct (String.eqb k0 k) eqn:E; simpl.
    + apply String.eqb_eq in E. subst k0.
      destruct (String.eqb k k') eqn:E'; [|done]. by apply String.eqb_eq in E'.
    + by rewrite IH.
Qed.

Lemma get_set_col df k c : get_col (set_col df k c) k = Some c.
Proof. apply lookup_store_col. Qed.

Lemma get_set_col_ne df k k' c : k ≠ k' → get_col (set_col df k c) k' = get_col df k'.
Proof. apply lookup_store_col_ne. Qed.

Lemma floats_set_col df k xs : floats (set_col df k (ColFloat xs)) k = Some xs.
Proof. unfold floats. by rewrite get_set_col. Qed.

Lemma removelast_length {A} (xs : list A) : length (removelast xs) = pred (length xs).
Proof.
  induction xs as [|x [|y xs] IH]; [done..|].
  change (removelast (x :: y :: xs)) with (x :: removelast (y :: xs)).
  cbn [length] in *. by rewrite IH.
Qed.

Lemma removelast_lookup {A} (xs : list A) i :
  (S i < length xs)%nat → removelast xs !! i = xs !! i.
Proof.
  revert i. induction xs as [|x [|y xs] IH]; intros i Hi; [simpl in Hi; lia..|].
  change (removelast (x :: y :: xs)) with (x :: removelast (y :: xs)).
  destruct i as [|i]; [done|]. cbn [lookup list_lookup].
  apply IH. cbn [length] in *. lia.
Qed.

Lemma shift1_length xs : length (shift1 xs) = length xs.
Proof.
  destruct xs as [|x xs]; [done|]. unfold shift1.
  cbn [length]. by rewrite removelast_length.
Qed.

Lemma shift1_lookup_S xs i :
  (S i < length xs)%nat → shift1 xs !! S i = xs !! i.
Proof.
  intros Hi. destruct xs as [|x xs]; [simpl in Hi; lia|].
  unfold shift1. cbn [lookup list_lookup]. by apply removelast_lookup.
Qed.

Section Rounded.
Variable rnd : Q → fval.

Lemma fsub_nan_r x : fsub rnd x FNaN = FNaN.
Proof. by destruct x. Qed.

Lemma fdiv_nan_r x : fdiv rnd x FNaN = FNaN.
Proof. by destruct x. Qed.

Lemma diff_lookup_0 x xs : diff rnd (x :: xs) !! 0%nat = Some FNaN.
Proof. unfold diff. simpl. by rewrite fsub_nan_r. Qed.

(** The change at a row whose predecessor is missing or NaN is NaN. *)
Lemma pct_change_after_nan xs i x :
  xs !! i = Some x →
  (∀ j, (j < i)%nat → xs !! j = Some FNaN) →
  pct_change rnd xs !! i = Some FNaN.
Proof.
  intros Hx Hbefore. unfold pct_change.
  rewrite lookup_zip_with, Hx. simpl.
  destruct i as [|i].
  - destruct xs as [|x0 xs]; [done|]. simpl. by rewrite fdiv_nan_r.
  - rewrite shift1_lookup_S by (apply lookup_lt_Some in Hx; lia).
    rewrite (Hbefore i) by lia. simpl. by rewrite fdiv_nan_r.
Qed.

(** C10: on a frame with at least one row, [Slope] of a numeric column
    succeeds and its first row is [False]; and where
    [SimpleMovingAverage] succeeds with a window inside the frame, the
    flag [rising] is [False] on the first row at which the moving
    average is a number. In both cases the cell is a boolean, not null. *)
Theorem C10_undefined_change_is_false
    (df : frame) (s : string) (xs : list fval) (period : pyval) (N : Z) :
  floats df s = Some xs →
  xs ≠ [] →
  (∃ out bs,
      Slope rnd df [(KStr "source", PStr s)] = Some out
      ∧ success out = true
      ∧ get_col (returned out) "slope" = Some (ColBool bs)
      ∧ bs !! 0%nat = Some false)
  ∧ (py_int period = Some N → 0 <= N < Z.of_nat (len df) →
     ∃ out sma rising,
       SimpleMovingAverage rnd df [(KStr "period", period); (KStr "source", PStr s)]
         = Some out
       ∧ success out = true
       ∧ floats (returned out) "sma" = Some sma
       ∧ get_col (returned out) "rising" = Some (ColBool rising)
       ∧ ∀ i x, sma !! i = Some x → is_nan x = false →
                (∀ j, (j < i)%nat → sma !! j = Some FNaN) →
                rising !! i = Some false).
Proof.
  intros Hxs Hne. split.
  - unfold Slope. cbn -[floats set_col diff]. rewrite Hxs. cbn -[set_col diff].
    eexists _, _. split; [reflexivity|]. split; [done|]. simpl returned.
    split; [apply get_set_col|].
    destruct xs as [|x xs']; [done|].
    rewrite list_lookup_fmap, diff_lookup_0. done.
  - intros HN [HN0 HNlen]. unfold SimpleMovingAverage.
    cbn -[floats set_col pct_change rolling_mean py_int Z.gtb Z.ltb len].
    rewrite HN. cbn -[floats set_col pct_change rolling_mean Z.gtb Z.ltb len].
    assert (H1 : (Z.of_nat (len df) >? N) = true) by (apply Z.gtb_lt; lia).
    assert (H2 : (N <? 0) = false) by (apply Z.ltb_ge; lia).
    rewrite H1, Hxs. cbn -[floats set_col pct_change rolling_mean Z.gtb Z.ltb len].
    rewrite H2, floats_set_col.
    cbn -[floats set_col pct_change rolling_mean Z.gtb Z.ltb len].
    eexists _, _, _. split; [reflexivity|]. split; [done|].
    simpl returned. split.
    { unfold floats. rewrite get_set_col_ne by done. by rewrite get_set_col. }
    split; [apply get_set_col|].
    intros i x Hx Hnan Hfirst.
    rewrite list_lookup_fmap, (pct_change_after_nan _ i x) by done. done.
Qed.

End Rounded.

(** The theorem on the closing prices of twelve days, with a window of
    three: the first moving average stands at row 2. *)
Lemma C10_undefined_change_is_false_witness :
  (∃ out bs,
      Slope rnd_exact (DataFrame history) [(KStr "source", PStr "close")] = Some out
      ∧ success out = true
      ∧ get_col (returned out) "slope" = Some (ColBool bs)
      ∧ bs !! 0%nat = Some false)
  ∧ (∃ out sma rising,
        SimpleMovingAverage rnd_exact (DataFrame history)
          [(KStr "period", PStr "3"); (KStr "source", PStr "close")] = Some out
        ∧ floats (returned out) "sma" = Some sma
        ∧ sma !! 2%nat = Some (FFin 12)
        ∧ get_col (returned out) "rising" = Some (ColBool rising)
        ∧ rising !! 2%nat = Some false).
Proof.
  destruct (C10_undefined_change_is_false rnd_exact (DataFrame history) "close"
              (map q_close history) (PStr "3") 3 eq_refl) as [H1 H2];
    [discriminate|].
  split; [exact H1|].
  destruct (H2 eq_refl) as (out & sma & rising & Eo & _ & Es & Er & Hfirst);
    [by compute|].
  exists out, sma, rising. split; [exact Eo|]. split; [exact Es|].
  vm_compute in Eo. injection Eo as <-. vm_compute in Es. injection Es as <-.
  split; [reflexivity|]. split; [exact Er|].
  apply (Hfirst 2%nat (FFin 12)); [reflexivity|reflexivity|].
  intros [|[|j]] Hj; [reflexivity|reflexivity|lia].
Defined.

End FactoryFacts.

(* ===================================================================== *)
(** * Resampling: facts                                                   *)
(* ===================================================================== *)

Module ResampleFacts.
Import Py Logging Float Frame Indicators Factory PyFacts Spec Examples FactoryFacts.

Lemma select_map_rows {A} (f : quote → A) (g : quote → Z) (k : Z) rows :
  select (map (Z.eqb k) (map g rows)) (map f rows)
  = map f (filter (fun r => g r = k) rows).
Proof.
  unfold select. induction rows as [|r rows IH]; [done|].
  cbn [map zip zip_with]. rewrite filter_cons. cbn [fst].
  rewrite (filter_cons (fun r => g r = k)).
  destruct (Z.eqb_spec k (g r)) as [->|Hne].
  - rewrite decide_True by done. rewrite decide_True by done.
    cbn [fmap list_fmap snd map]. f_equal. exact IH.
  - rewrite decide_False by done. rewrite decide_False by congruence. exact IH.
Qed.

Lemma valid_all xs : Forall (fun x => is_nan x = false) xs → valid xs = xs.
Proof.
  unfold valid. induction 1 as [|x xs Hx _ IH]; [done|].
  rewrite filter_cons, decide_True by done. by rewrite IH.
Qed.

Lemma fle_refl x : is_nan x = false → fle x x = true.
Proof.
  destruct x as [|[]|q]; try done. intros _. simpl.
  apply Qle_bool_iff. apply Qle_refl.
Qed.

Lemma flt_false_fle x y :
  is_nan x = false → is_nan y = false → flt x y = false → fle y x = true.
Proof.
  destruct x as [|[]|p], y as [|[]|q]; simpl; try done.
  unfold Qlt_b. intros _ _ H. by apply negb_false_iff in H.
Qed.

Lemma flt_true_fle x y : flt x y = true → fle x y = true.
Proof.
  destruct x as [|[]|p], y as [|[]|q]; simpl; try done.
  unfold Qlt_b. intros H. apply negb_true_iff in H.
  apply Qle_bool_iff. destruct (Qlt_le_dec p q) as [Hlt|Hle].
  - by apply Qlt_le_weak.
  - apply Qle_bool_iff in Hle. congruence.
Qed.

Lemma fle_trans x y z : fle x y = true → fle y z = true → fle x z = true.
Proof.
  destruct x as [|[]|p], y as [|[]|q], z as [|[]|r]; simpl; try done.
  rewrite !Qle_bool_iff. apply Qle_trans.
Qed.

Lemma fold_fmax_spec rest x :
  Forall (fun v => is_nan v = false) (x :: rest) →
  is_max_of (fold_left fmax rest x) (x :: rest).
Proof.
  revert x. induction rest as [|y rest IH]; intros x Hall.
  - simpl. split; [by left|]. intros v [<-|[]]. apply fle_refl. by inversion Hall.
  - inversion Hall as [|? ? Hx Hrest]; subst. inversion Hrest as [|? ? Hy Hrest']; subst.
    cbn [fold_left]. unfold fmax at 2.
    destruct (flt x y) eqn:E.
    + destruct (IH y Hrest) as [Hin Hmax]. split.
      * right. exact Hin.
      * intros v [<-|Hv]; [|by apply Hmax].
        apply (fle_trans _ y); [by apply flt_true_fle|]. apply Hmax. by left.
    + destruct (IH x (@List.Forall_cons _ _ _ _ Hx Hrest')) as [Hin Hmax]. split.
      * destruct Hin as [<-|Hin]; [by left|right; by right].
      * intros v [<-|[<-|Hv]].
        -- apply Hmax. by left.
        -- apply (fle_trans _ x); [by apply flt_false_fle|]. apply Hmax. by left.
        -- apply Hmax. by right.
Qed.

Lemma fold_fmin_spec rest x :
  Forall (fun v => is_nan v = false) (x :: rest) →
  is_min_of (fold_left fmin rest x) (x :: rest).
Proof.
  revert x. induction rest as [|y rest IH]; intros x Hall.
  - simpl. split; [by left|]. intros v [<-|[]]. apply fle_refl. by inversion Hall.
  - inversion Hall as [|? ? Hx Hrest]; subst. inversion Hrest as [|? ? Hy Hrest']; subst.
    cbn [fold_left]. unfold fmin at 2.
    destruct (flt y x) eqn:E.
    + destruct (IH y Hrest) as [Hin Hmin]. split.
      * right. exact Hin.
      * intros v [<-|Hv]; [|by apply Hmin].
        apply (fle_trans _ y); [|by apply flt_true_fle]. apply Hmin. by left.
    + destruct (IH x (@List.Forall_cons _ _ _ _ Hx Hrest')) as [Hin Hmin]. split.
      * destruct Hin as [<-|Hin]; [by left|right; by right].
      * intros v [<-|[<-|Hv]].
        -- apply Hmin. by left.
        -- apply (fle_trans _ x); [|by apply flt_false_fle]. apply Hmin. by left.
        -- apply Hmin. by right.
Qed.

Lemma agg_max_spec xs :
  xs ≠ [] → Forall (fun v => is_nan v = false) xs → is_max_of (agg_max xs) xs.
Proof.
  intros Hne Hall. unfold agg_max. rewrite valid_all by done.
  destruct xs as [|x rest]; [done|]. by apply fold_fmax_spec.
Qed.

Lemma agg_min_spec xs :
  xs ≠ [] → Forall (fun v => is_nan v = false) xs → is_min_of (agg_min xs) xs.
Proof.
  intros Hne Hall. unfold agg_min. rewrite valid_all by done.
  destruct xs as [|x rest]; [done|]. by apply fold_fmin_spec.
Qed.

Lemma last_map {A B} (f : A → B) (xs : list A) (a : A) (b : B) :
  xs ≠ [] → List.last (map f xs) b = f (List.last xs a).
Proof.
  induction xs as [|x [|y xs] IH]; [done|done|]. intros _.
  change (map f (x :: y :: xs)) with (f x :: map f (y :: xs)).
  change (List.last (f x :: map f (y :: xs)) b) with (List.last (map f (y :: xs)) b).
  change (List.last (x :: y :: xs) a) with (List.last (y :: xs) a).
  by apply IH.
Qed.

Lemma agg_last_date_all (ds : list Z) (d : Z) :
  ds ≠ [] → agg_last_date (map Some ds) = Some (List.last ds d).
Proof.
  intros Hne. unfold agg_last_date.
  assert (H : filter is_Some (map Some ds) = map Some ds).
  { clear. induction ds as [|x ds IH]; [done|].
    cbn [map]. rewrite filter_cons, decide_True; [by rewrite IH|]. by eexists. }
  rewrite H. by apply last_map.
Qed.

Lemma mapM_id_Some {A} (l : list A) : mapM id (map Some l) = Some l.
Proof. induction l as [|x l IH]; [done|]. cbn [map mapM]. simpl. by rewrite IH. Qed.

Lemma last_List_last {A} (xs : list A) (x d : A) :
  last xs = Some x → List.last xs d = x.
Proof.
  induction xs as [|y [|z xs] IH]; [done| |].
  - by intros [= <-].
  - intros H. apply IH. exact H.
Qed.

Lemma agg_first_spec (f : quote → fval) days r1 :
  head days = Some r1 → Forall (fun r => is_nan (f r) = false) days →
  agg_first (map f days) = f r1.
Proof.
  intros Hh Hall. unfold agg_first.
  rewrite valid_all by (by apply Forall_map).
  destruct days; [done|]. by injection Hh as <-.
Qed.

Lemma agg_last_spec (f : quote → fval) days rn :
  last days = Some rn → Forall (fun r => is_nan (f r) = false) days →
  agg_last (map f days) = f rn.
Proof.
  intros Hl Hall. unfold agg_last.
  rewrite valid_all by (by apply Forall_map).
  rewrite (last_map f days rn) by (by destruct days).
  by rewrite (last_List_last _ rn).
Qed.

Section Rounded.
Variable rnd : Q → fval.

(** The frame that resampling a frame of quotes gives, column by column. *)
Lemma resampleDataFrame_quotes rows interval :
  interval = WEEKLY ∨ interval = MONTHLY →
  let ks := buckets interval rows in
  let per_bucket {A B} (agg : list A → B) (f : quote → A) : list B :=
    map (fun k => agg (select (map (Z.eqb k) ks) (map f rows))) (bins ks) in
  resampleDataFrame rnd (DataFrame rows) interval
  = Some {| index := range (length (bins ks));
            columns :=
              [ ("date", ColDate (per_bucket agg_last_date (fun r => Some (q_date r))));
                ("open", ColFloat (per_bucket agg_first q_open));
                ("high", ColFloat (per_bucket agg_max q_high));
                ("low", ColFloat (per_bucket agg_min q_low));
                ("close", ColFloat (per_bucket agg_last q_close));
                ("split_adjusted_open", ColFloat (per_bucket agg_first q_split_adjusted_open));
                ("split_adjusted_high", ColFloat (per_bucket agg_max q_split_adjusted_high));
                ("split_adjusted_low", ColFloat (per_bucket agg_min q_split_adjusted_low));
                ("split_adjusted_close", ColFloat (per_bucket agg_last q_split_adjusted_close));
                ("adjusted_close", ColFloat (per_bucket agg_last q_adjusted_close));
                ("volume", ColFloat (per_bucket (agg_sum rnd) q_volume)) ] |}.
Proof.
  intros Hiv. cbn zeta.
  assert (Hd : mapM id (map (fun r => Some (q_date r)) rows) = Some (map q_date rows)).
  { rewrite <- (mapM_id_Some (map q_date rows)). by rewrite map_map. }
  unfold resampleDataFrame, resample_agg, buckets.
  destruct Hiv as [-> | ->];
    cbn -[bins select agg_first agg_last agg_max agg_min agg_sum agg_last_date
          bucket mapM range];
    rewrite Hd;
    cbn -[bins select agg_first agg_last agg_max agg_min agg_sum agg_last_date
          bucket range];
    unfold len, set_index; cbn [index columns]; by rewrite length_map.
Qed.

Lemma complete_fields r :
  complete r →
  is_nan (q_open r) = false ∧ is_nan (q_high r) = false ∧ is_nan (q_low r) = false
  ∧ is_nan (q_close r) = false ∧ is_nan (q_split_adjusted_open r) = false
  ∧ is_nan (q_split_adjusted_high r) = false ∧ is_nan (q_split_adjusted_low r) = false
  ∧ is_nan (q_split_adjusted_close r) = false ∧ is_nan (q_adjusted_close r) = false
  ∧ is_nan (q_volume r) = false.
Proof.
  unfold complete. intros H.
  repeat match goal with
         | H : Forall _ (_ :: _) |- _ => apply Forall_cons_1 in H as [? H]
         end.
  repeat split; assumption.
Qed.

Lemma complete_column (f : quote → fval) days :
  (∀ r, complete r → is_nan (f r) = false) →
  Forall complete days → Forall (fun r => is_nan (f r) = false) days.
Proof. intros Hf H. eapply Forall_impl; [exact H|exact Hf]. Qed.

Lemma by_date_bucket_rows interval k rows :
  by_date rows → by_date (bucket_rows interval k rows).
Proof.
  unfold by_date, bucket_rows. induction rows as [|r rows IH]; intros Hs; [done|].
  apply StronglySorted_cons in Hs as [Hr Hs].
  rewrite filter_cons. destruct (decide _); [|by apply IH].
  apply StronglySorted_cons. split; [|by apply IH].
  apply Forall_forall. intros x Hx. apply list_elem_of_filter in Hx as [_ Hx].
  by eapply (proj1 (Forall_forall _ _) Hr).
Qed.

(** In a list in the order of its dates, the first element has the
    earliest date and the last element the latest. *)
Lemma by_date_bounds days first_day last_day :
  by_date days → head days = Some first_day → last days = Some last_day →
  Forall (fun r => q_date first_day <= q_date r <= q_date last_day) days.
Proof.
  unfold by_date. intros Hs Hh Hl.
  destruct days as [|d days]; [done|]. injection Hh as ->.
  assert (Hfirst : Forall (fun r => q_date first_day <= q_date r) (first_day :: days)).
  { apply StronglySorted_cons in Hs as [Hr _]. constructor; [lia|].
    eapply Forall_impl; [exact Hr|]. simpl. intros; lia. }
  assert (Hlast : Forall (fun r => q_date r <= q_date last_day) (first_day :: days)).
  { clear Hfirst. revert Hl Hs. generalize first_day as x. clear first_day.
    induction days as [|y days IH]; intros x Hl Hs.
    - injection Hl as ->. constructor; [lia|constructor].
    - apply StronglySorted_cons in Hs as [Hr Hs].
      specialize (IH y Hl Hs). constructor; [|exact IH].
      inversion Hr as [|? ? Hxy _]; subst. inversion IH as [|? ? Hy _]; subst. lia. }
  apply Forall_forall. intros r Hr. split.
  - by apply (proj1 (Forall_forall _ _) Hfirst).
  - by apply (proj1 (Forall_forall _ _) Hlast).
Qed.

Lemma hd_head (xs : list fval) : hd FNaN xs = default FNaN (head xs).
Proof. by destruct xs. Qed.

Lemma List_last_last (xs : list fval) : List.last xs FNaN = default FNaN (last xs).
Proof. induction xs as [|x [|y xs] IH]; [done|done|]. exact IH. Qed.

Lemma numbers_all xs : Forall (fun v => is_nan v = false) (numbers xs).
Proof.
  apply Forall_forall. intros x Hx. by apply list_elem_of_filter in Hx as [Hx _].
Qed.

Lemma agg_max_numbers xs :
  (numbers xs = [] ∧ agg_max xs = FNaN) ∨ is_max_of (agg_max xs) (numbers xs).
Proof.
  unfold agg_max. change (valid xs) with (numbers xs).
  pose proof (numbers_all xs) as Hall.
  destruct (numbers xs) as [|x rest]; [by left|]. right. by apply fold_fmax_spec.
Qed.

Lemma agg_min_numbers xs :
  (numbers xs = [] ∧ agg_min xs = FNaN) ∨ is_min_of (agg_min xs) (numbers xs).
Proof.
  unfold agg_min. change (valid xs) with (numbers xs).
  pose proof (numbers_all xs) as Hall.
  destruct (numbers xs) as [|x rest]; [by left|]. right. by apply fold_fmin_spec.
Qed.

(** The row of a bucket, whatever its days are: every aggregation
    passes over NaN. *)
Lemma bucket_row (rows : list quote) (interval : Interval) out p k :
  interval = WEEKLY ∨ interval = MONTHLY →
  resampleDataFrame rnd (DataFrame rows) interval = Some out →
  bins (buckets interval rows) !! p = Some k →
  let days := bucket_rows interval k rows in
  let first_of (f : quote → fval) := default FNaN (head (numbers (map f days))) in
  let last_of (f : quote → fval) := default FNaN (last (numbers (map f days))) in
  let max_of (f : quote → fval) (v : fval) :=
    (numbers (map f days) = [] ∧ v = FNaN) ∨ is_max_of v (numbers (map f days)) in
  let min_of (f : quote → fval) (v : fval) :=
    (numbers (map f days) = [] ∧ v = FNaN) ∨ is_min_of v (numbers (map f days)) in
  at_row out "date" p
  = Some (match last days with Some r => PInt (q_date r) | None => PNone end)
  ∧ at_row out "open" p = Some (PFloat (first_of q_open))
  ∧ (∃ v, at_row out "high" p = Some (PFloat v) ∧ max_of q_high v)
  ∧ (∃ v, at_row out "low" p = Some (PFloat v) ∧ min_of q_low v)
  ∧ at_row out "close" p = Some (PFloat (last_of q_close))
  ∧ at_row out "split_adjusted_open" p = Some (PFloat (first_of q_split_adjusted_open))
  ∧ (∃ v, at_row out "split_adjusted_high" p = Some (PFloat v)
          ∧ max_of q_split_adjusted_high v)
  ∧ (∃ v, at_row out "split_adjusted_low" p = Some (PFloat v)
          ∧ min_of q_split_adjusted_low v)
  ∧ at_row out "split_adjusted_close" p = Some (PFloat (last_of q_split_adjusted_close))
  ∧ at_row out "adjusted_close" p = Some (PFloat (last_of q_adjusted_close))
  ∧ at_row out "volume" p = Some (PFloat (fsum rnd (numbers (map q_volume days)))).
Proof.
  intros Hiv Eo Hk. cbn zeta.
  rewrite resampleDataFrame_quotes in Eo by done. injection Eo as <-.
  assert (Hsel : ∀ A (f : quote → A),
             select (map (Z.eqb k) (buckets interval rows)) (map f rows)
             = map f (bucket_rows interval k rows)).
  { intros A f. unfold buckets. rewrite (map_map q_date (bucket interval)).
    apply (select_map_rows f (fun r => bucket interval (q_date r))). }
  unfold at_row, get_col.
  cbn -[bins select agg_first agg_last agg_max agg_min agg_sum agg_last_date buckets
        bucket_rows numbers].
  rewrite !list_lookup_fmap, Hk.
  cbn -[bins select agg_first agg_last agg_max agg_min agg_sum agg_last_date buckets
        bucket_rows numbers].
  rewrite !Hsel.
  unfold agg_first, agg_last, agg_sum. change valid with numbers.
  rewrite !hd_head, !List_last_last.
  split.
  { destruct (bucket_rows interval k rows) as [|r days] eqn:E; [done|].
    change (fun r => Some (q_date r)) with (Some ∘ q_date).
    rewrite list_fmap_compose.
    rewrite (agg_last_date_all _ (q_date r)) by done.
    rewrite (last_map q_date _ r) by done.
    destruct (last (r :: days)) as [rn|] eqn:El.
    - by rewrite (last_List_last _ rn).
    - by apply last_None in El. }
  repeat split; try done;
    eexists; (split; [reflexivity|]);
    first [ apply agg_max_numbers | apply agg_min_numbers ].
Qed.

(** A bucket without a day, between two buckets that have days, is a
    row as well: no date, NaN prices and a volume of zero. *)
Lemma empty_bucket_row (rows : list quote) (interval : Interval) out p k :
  interval = WEEKLY ∨ interval = MONTHLY →
  resampleDataFrame rnd (DataFrame rows) interval = Some out →
  bins (buckets interval rows) !! p = Some k →
  bucket_rows interval k rows = [] →
  at_row out "date" p = Some PNone
  ∧ at_row out "open" p = Some (PFloat FNaN)
  ∧ at_row out "high" p = Some (PFloat FNaN)
  ∧ at_row out "low" p = Some (PFloat FNaN)
  ∧ at_row out "close" p = Some (PFloat FNaN)
  ∧ at_row out "split_adjusted_open" p = Some (PFloat FNaN)
  ∧ at_row out "split_adjusted_high" p = Some (PFloat FNaN)
  ∧ at_row out "split_adjusted_low" p = Some (PFloat FNaN)
  ∧ at_row out "split_adjusted_close" p = Some (PFloat FNaN)
  ∧ at_row out "adjusted_close" p = Some (PFloat FNaN)
  ∧ at_row out "volume" p = Some (PFloat f0).
Proof.
  intros Hiv Eo Hk Hempty.
  rewrite resampleDataFrame_quotes in Eo by done. injection Eo as <-.
  assert (Hsel : ∀ A (f : quote → A),
             select (map (Z.eqb k) (buckets interval rows)) (map f rows) = []).
  { intros A f. unfold buckets. rewrite (map_map q_date (bucket interval)).
    rewrite (select_map_rows f (fun r => bucket interval (q_date r))).
    unfold bucket_rows in Hempty. by rewrite Hempty. }
  unfold at_row, get_col.
  cbn -[bins select agg_first agg_last agg_max agg_min agg_sum agg_last_date buckets].
  rewrite !list_lookup_fmap, Hk.
  cbn -[bins select agg_first agg_last agg_max agg_min agg_sum agg_last_date buckets].
  rewrite !Hsel. done.
Qed.

(** C6, amended: resampling the frame of a security's quotes by week
    or by month succeeds; the rows of the result carry the positions
    0, 1, ... as their index, one row per week or month from that of the
    first quote to that of the last. Every aggregation passes over NaN:
    the row of a bucket has the date of its last day, the first open,
    the greatest high, the least low and the last close that are
    numbers, the same for the split-adjusted prices, the last adjusted
    close that is a number, and the sum of the volumes that are numbers;
    where a column of the bucket has no number the price is NaN, and
    where the bucket has no day the date is missing. So a bucket without
    a day is a row with no date, NaN for every price and a volume of
    zero. For a bucket that holds at least one day, and whose days have
    no NaN, the row has the first open, the greatest high, the least
    low, the last close, the same for the split-adjusted prices, the
    last adjusted close, the sum of the volumes, and the date of the
    last day; first and last are the days of the bucket with the
    earliest and the latest date. *)
Theorem C6_resample_aggregates (rows : list quote) (interval : Interval) :
  by_date rows →
  interval = WEEKLY ∨ interval = MONTHLY →
  ∃ out,
    resampleDataFrame rnd (DataFrame rows) interval = Some out
    ∧ index out = map LInt (seqZ 0 (Z.of_nat (len out)))
    ∧ len out = length (bins (buckets interval rows))
    ∧ ∀ p k,
        bins (buckets interval rows) !! p = Some k →
        let days := bucket_rows interval k rows in
        let first_of (f : quote → fval) := default FNaN (head (numbers (map f days))) in
        let last_of (f : quote → fval) := default FNaN (last (numbers (map f days))) in
        let max_of (f : quote → fval) (v : fval) :=
          (numbers (map f days) = [] ∧ v = FNaN) ∨ is_max_of v (numbers (map f days)) in
        let min_of (f : quote → fval) (v : fval) :=
          (numbers (map f days) = [] ∧ v = FNaN) ∨ is_min_of v (numbers (map f days)) in
        (at_row out "date" p
         = Some (match last days with Some r => PInt (q_date r) | None => PNone end)
         ∧ at_row out "open" p = Some (PFloat (first_of q_open))
         ∧ (∃ v, at_row out "high" p = Some (PFloat v) ∧ max_of q_high v)
         ∧ (∃ v, at_row out "low" p = Some (PFloat v) ∧ min_of q_low v)
         ∧ at_row out "close" p = Some (PFloat (last_of q_close))
         ∧ at_row out "split_adjusted_open" p
           = Some (PFloat (first_of q_split_adjusted_open))
         ∧ (∃ v, at_row out "split_adjusted_high" p = Some (PFloat v)
                 ∧ max_of q_split_adjusted_high v)
         ∧ (∃ v, at_row out "split_adjusted_low" p = Some (PFloat v)
                 ∧ min_of q_split_adjusted_low v)
         ∧ at_row out "split_adjusted_close" p
           = Some (PFloat (last_of q_split_adjusted_close))
         ∧ at_row out "adjusted_close" p = Some (PFloat (last_of q_adjusted_close))
         ∧ at_row out "volume" p
           = Some (PFloat (fsum rnd (numbers (map q_volume days)))))
        ∧ (days = [] →
           at_row out "date" p = Some PNone
           ∧ at_row out "open" p = Some (PFloat FNaN)
           ∧ at_row out "high" p = Some (PFloat FNaN)
           ∧ at_row out "low" p = Some (PFloat FNaN)
           ∧ at_row out "close" p = Some (PFloat FNaN)
           ∧ at_row out "split_adjusted_open" p = Some (PFloat FNaN)
           ∧ at_row out "split_adjusted_high" p = Some (PFloat FNaN)
           ∧ at_row out "split_adjusted_low" p = Some (PFloat FNaN)
           ∧ at_row out "split_adjusted_close" p = Some (PFloat FNaN)
           ∧ at_row out "adjusted_close" p = Some (PFloat FNaN)
           ∧ at_row out "volume" p = Some (PFloat f0))
        ∧ ∀ first_day last_day,
            head days = Some first_day →
            last days = Some last_day →
            Forall complete days →
            Forall (fun r => q_date first_day <= q_date r <= q_date last_day) days
            ∧ at_row out "date" p = Some (PInt (q_date last_day))
            ∧ at_row out "open" p = Some (PFloat (q_open first_day))
            ∧ (∃ v, at_row out "high" p = Some (PFloat v) ∧ is_max_of v (map q_high days))
            ∧ (∃ v, at_row out "low" p = Some (PFloat v) ∧ is_min_of v (map q_low days))
            ∧ at_row out "close" p = Some (PFloat (q_close last_day))
            ∧ at_row out "split_adjusted_open" p
              = Some (PFloat (q_split_adjusted_open first_day))
            ∧ (∃ v, at_row out "split_adjusted_high" p = Some (PFloat v)
                    ∧ is_max_of v (map q_split_adjusted_high days))
            ∧ (∃ v, at_row out "split_adjusted_low" p = Some (PFloat v)
                    ∧ is_min_of v (map q_split_adjusted_low days))
            ∧ at_row out "split_adjusted_close" p
              = Some (PFloat (q_split_adjusted_close last_day))
            ∧ at_row out "adjusted_close" p = Some (PFloat (q_adjusted_close last_day))
            ∧ at_row out "volume" p = Some (PFloat (fsum rnd (map q_volume days))).
Proof.
  intros Hsorted Hiv. eexists. split; [by apply resampleDataFrame_quotes|].
  split; [by unfold len, range; cbn [index]; rewrite length_map, length_seqZ, Nat2Z.id|].
  split; [by unfold len, range; cbn [index]; rewrite length_map, length_seqZ, Nat2Z.id|].
  intros p k Hk. cbn zeta. split.
  { eapply bucket_row; [exact Hiv|by apply resampleDataFrame_quotes|exact Hk]. }
  split.
  { intros Hempty.
    eapply empty_bucket_row; [exact Hiv|by apply resampleDataFrame_quotes|exact Hk|exact Hempty]. }
  intros r1 rn Hhead Hlast Hall.
  split; [by apply by_date_bounds; [apply by_date_bucket_rows| |]|].
  assert (Hne : bucket_rows interval k rows ≠ []) by (intros E; by rewrite E in Hhead).
  assert (Hsel : ∀ A (f : quote → A),
             select (map (Z.eqb k) (buckets interval rows)) (map f rows)
             = map f (bucket_rows interval k rows)).
  { intros A f. unfold buckets. rewrite (map_map q_date (bucket interval)).
    apply (select_map_rows f (fun r => bucket interval (q_date r))). }
  pose proof (fun f Hf => complete_column f _ Hf Hall) as Hcol.
  unfold at_row, get_col.
  cbn -[bins select agg_first agg_last agg_max agg_min agg_sum agg_last_date buckets
        bucket_rows].
  rewrite !list_lookup_fmap, Hk.
  cbn -[bins select agg_first agg_last agg_max agg_min agg_sum agg_last_date buckets
        bucket_rows].
  rewrite !Hsel.
  repeat split.
  - change (fun r => Some (q_date r)) with (Some ∘ q_date).
    rewrite list_fmap_compose.
    rewrite (agg_last_date_all _ (q_date rn)) by (by destruct (bucket_rows _ _ _)).
    rewrite (last_map q_date _ rn) by done.
    by rewrite (last_List_last _ rn).
  - rewrite (agg_first_spec q_open _ r1); [done..|].
    apply Hcol. intros r Hr. apply (complete_fields r Hr).
  - eexists. split; [reflexivity|]. apply agg_max_spec; [by destruct (bucket_rows _ _ _)|].
    apply Forall_map, Hcol. intros r Hr. apply (complete_fields r Hr).
  - eexists. split; [reflexivity|]. apply agg_min_spec; [by destruct (bucket_rows _ _ _)|].
    apply Forall_map, Hcol. intros r Hr. apply (complete_fields r Hr).
  - rewrite (agg_last_spec q_close _ rn); [done..|].
    apply Hcol. intros r Hr. apply (complete_fields r Hr).
  - rewrite (agg_first_spec q_split_adjusted_open _ r1); [done..|].
    apply Hcol. intros r Hr. apply (complete_fields r Hr).
  - eexists. split; [reflexivity|]. apply agg_max_spec; [by destruct (bucket_rows _ _ _)|].
    apply Forall_map, Hcol. intros r Hr. apply (complete_fields r Hr).
  - eexists. split; [reflexivity|]. apply agg_min_spec; [by destruct (bucket_rows _ _ _)|].
    apply Forall_map, Hcol. intros r Hr. apply (complete_fields r Hr).
  - rewrite (agg_last_spec q_split_adjusted_close _ rn); [done..|].
    apply Hcol. intros r Hr. apply (complete_fields r Hr).
  - rewrite (agg_last_spec q_adjusted_close _ rn); [done..|].
    apply Hcol. intros r Hr. apply (complete_fields r Hr).
  - unfold agg_sum. rewrite valid_all; [done|].
    apply Forall_map, Hcol. intros r Hr. apply (complete_fields r Hr).
Qed.

(** The sum of volumes that are whole numbers is exact as long as it
    stays within the whole numbers that the rounding leaves alone (for
    a double, up to 2^53). *)
Lemma fsum_integers_from (B : Z) (vs : list Z) (a : Q) (za : Z) :
  (∀ q z, (q == inject_Z z)%Q → 0 <= z <= B → ∃ r, rnd q = FFin r ∧ (r == q)%Q) →
  Forall (fun v => 0 <= v) vs →
  (a == inject_Z za)%Q → 0 <= za → za + foldr Z.add 0 vs <= B →
  ∃ r, fold_left (fadd rnd) (map of_Z vs) (FFin a) = FFin r
       ∧ (r == inject_Z (za + foldr Z.add 0%Z vs))%Q.
Proof.
  intros Hexact Hpos. revert a za.
  induction Hpos as [|v vs Hv Hpos IH]; intros a za Ha Hza Hb.
  - exists a. split; [done|]. simpl. rewrite Ha. f_equiv. lia.
  - cbn [map fold_left fadd of_Z]. cbn [foldr] in *.
    assert (Hfold : 0 <= foldr Z.add 0 vs).
    { clear -Hpos. induction Hpos; simpl; lia. }
    destruct (Hexact (a + inject_Z v)%Q (za + v)) as (r & Er & Hr).
    { rewrite inject_Z_plus, Ha. reflexivity. }
    { lia. }
    rewrite Er. destruct (IH r (za + v)) as (r' & Er' & Hr').
    { rewrite Hr, inject_Z_plus, Ha. reflexivity. }
    { lia. }
    { lia. }
    exists r'. split; [done|]. rewrite Hr'. f_equiv. lia.
Qed.

Lemma fsum_integers (B : Z) (vs : list Z) :
  (∀ q z, (q == inject_Z z)%Q → 0 <= z <= B → ∃ r, rnd q = FFin r ∧ (r == q)%Q) →
  Forall (fun v => 0 <= v) vs →
  foldr Z.add 0 vs <= B →
  ∃ r, fsum rnd (map of_Z vs) = FFin r ∧ (r == inject_Z (foldr Z.add 0%Z vs))%Q.
Proof.
  intros Hexact Hpos Hsum.
  destruct (fsum_integers_from B vs 0%Q 0 Hexact Hpos) as (r & Er & Hr);
    [reflexivity|lia|lia|].
  exists r. split; [exact Er|]. by rewrite Hr, Z.add_0_l.
Qed.

End Rounded.

(** C6, the claim as stated: of two Mondays a fortnight apart the
    weekly frame has three rows. The row in the middle is the week
    without a quote: it has no daily row to take a first open, a last
    close or a last date from, and carries no date, NaN prices and a
    volume of zero, which are the open, the close and the date of no
    daily row. *)
Lemma C6_week_without_quotes_is_a_row :
  by_date fortnight
  ∧ ∃ out,
      resampleDataFrame rnd_exact (DataFrame fortnight) WEEKLY = Some out
      ∧ len out = 3%nat
      ∧ bins (buckets WEEKLY fortnight) !! 1%nat = Some 2819
      ∧ bucket_rows WEEKLY 2819 fortnight = []
      ∧ at_row out "date" 1 = Some PNone
      ∧ at_row out "open" 1 = Some (PFloat FNaN)
      ∧ at_row out "high" 1 = Some (PFloat FNaN)
      ∧ at_row out "low" 1 = Some (PFloat FNaN)
      ∧ at_row out "close" 1 = Some (PFloat FNaN)
      ∧ at_row out "adjusted_close" 1 = Some (PFloat FNaN)
      ∧ at_row out "volume" 1 = Some (PFloat f0)
      ∧ Forall (fun r => at_row out "open" 1 ≠ Some (PFloat (q_open r))
                         ∧ at_row out "close" 1 ≠ Some (PFloat (q_close r))
                         ∧ at_row out "date" 1 ≠ Some (PInt (q_date r))) fortnight.
Proof.
  split.
  - unfold by_date, fortnight. repeat (constructor; [by repeat constructor|]). constructor.
  - eexists. split; [by vm_compute|].
    repeat (split; [by vm_compute|]).
    repeat constructor; by vm_compute.
Qed.

(** The theorem on twelve days of quotes, by week: the first row is the
    week from 2024-01-01 to 2024-01-05. *)
Lemma C6_resample_aggregates_witness :
  ∃ out,
    resampleDataFrame rnd_exact (DataFrame history) WEEKLY = Some out
    ∧ index out = [LInt 0; LInt 1; LInt 2]
    ∧ at_row out "date" 0 = Some (PInt 19727)
    ∧ at_row out "open" 0 = Some (PFloat (FFin 10))
    ∧ (∃ v, at_row out "high" 0 = Some (PFloat v)
            ∧ is_max_of v (map q_high (bucket_rows WEEKLY 2818 history)))
    ∧ at_row out "close" 0 = Some (PFloat (FFin 14))
    ∧ at_row out "volume" 0 = Some (PFloat (FFin 500)).
Proof.
  destruct (C6_resample_aggregates rnd_exact history WEEKLY) as (out & Eo & Hidx & Hlen & Hrow).
  { unfold by_date, history. repeat (constructor; [by repeat constructor|]). constructor. }
  { by left. }
  exists out. split; [exact Eo|].
  destruct (Hrow 0%nat 2818 eq_refl) as (_ & _ & Hfull).
  destruct (Hfull (day 19723 10) (day 19727 13) eq_refl eq_refl)
    as (_ & Hd & Ho & Hh & _ & Hc & _ & _ & _ & _ & _ & Hv).
  { vm_compute. repeat constructor. }
  rewrite Hidx, Hlen. repeat split; try assumption.
Defined.

End ResampleFacts.

(* ===================================================================== *)
(** * RSI: facts                                                          *)
(* ===================================================================== *)

Module RSIFacts.
Import Py Logging Float Frame Indicators Factory PyFacts Spec Examples FactoryFacts.

Lemma Qneg_b_nonneg q : (0 <= q)%Q → Qneg_b q = false.
Proof.
  unfold Qneg_b, Qle. simpl. intros H. apply Z.ltb_ge. lia.
Qed.

Lemma Qzero_b_spec q : Qzero_b q = true ↔ (q == 0)%Q.
Proof.
  unfold Qzero_b, Qeq. simpl. rewrite Z.eqb_eq. lia.
Qed.

Lemma Qzero_b_false q : Qzero_b q = false → ¬ (q == 0)%Q.
Proof. intros H E. apply Qzero_b_spec in E. congruence. Qed.

Lemma rnd_exact_rounding : rounding rnd_exact.
Proof.
  split.
  - done.
  - intros p q H. simpl. apply Qle_bool_iff. by rewrite !Qred_correct.
  - intros q _. exists (Qred q). split; [done|]. apply Qred_correct.
Qed.

Section Rounded.
Variable rnd : Q → fval.
Hypothesis Hrnd : rounding rnd.

Lemma rnd_nonneg q : (0 <= q)%Q → nonneg (rnd q).
Proof.
  intros Hq.
  destruct (rnd_fixes rnd Hrnd 0) as (r0 & E0 & Hr0); [by left|].
  pose proof (rnd_monotone rnd Hrnd 0 q Hq) as Hm. rewrite E0 in Hm.
  destruct (rnd q) as [|[]|r]; simpl in *; try done.
  apply Qle_bool_iff in Hm. lra.
Qed.

Lemma rnd_percent q : (0 <= q <= 100)%Q → ∃ r, rnd q = FFin r ∧ (0 <= r <= 100)%Q.
Proof.
  intros [Hq0 Hq100].
  destruct (rnd_fixes rnd Hrnd 0) as (r0 & E0 & Hr0); [by left|].
  destruct (rnd_fixes rnd Hrnd 100) as (r1 & E1 & Hr1); [by right; right|].
  pose proof (rnd_monotone rnd Hrnd 0 q Hq0) as Hm0. rewrite E0 in Hm0.
  pose proof (rnd_monotone rnd Hrnd q 100 Hq100) as Hm1. rewrite E1 in Hm1.
  destruct (rnd q) as [|[]|r]; simpl in *; try done.
  apply Qle_bool_iff in Hm0, Hm1. exists r. split; [done|]. lra.
Qed.

Lemma rnd_ge1 q :
  (1 <= q)%Q → rnd q = FInf false ∨ ∃ r, rnd q = FFin r ∧ (1 <= r)%Q.
Proof.
  intros Hq.
  destruct (rnd_fixes rnd Hrnd 1) as (r1 & E1 & Hr1); [by right; left|].
  pose proof (rnd_monotone rnd Hrnd 1 q Hq) as Hm. rewrite E1 in Hm.
  destruct (rnd q) as [|[]|r]; simpl in *; try done; [by left|].
  apply Qle_bool_iff in Hm. right. exists r. split; [done|]. lra.
Qed.

Lemma fadd_nonneg x y : nonneg x → nonneg y → nonneg (fadd rnd x y).
Proof.
  destruct x as [|[]|p], y as [|[]|q]; simpl; try done.
  intros Hp Hq. apply rnd_nonneg. lra.
Qed.

Lemma fmul_nonneg x y : nonneg x → nonneg y → nonneg (fmul rnd x y).
Proof.
  destruct x as [|[]|p], y as [|[]|q]; simpl; try done.
  - intros _ Hq. destruct (Qzero_b q); [done|]. simpl. by apply Qneg_b_nonneg.
  - intros Hp _. destruct (Qzero_b p); [done|]. simpl. by apply Qneg_b_nonneg.
  - intros Hp Hq. apply rnd_nonneg. by apply Qmult_le_0_compat.
Qed.

Lemma fdiv_nonneg x y : nonneg x → nonneg y → nonneg (fdiv rnd x y).
Proof.
  destruct x as [|[]|p], y as [|[]|q]; simpl; try done.
  - intros _ Hq. by apply Qneg_b_nonneg.
  - intros Hp Hq. destruct (Qzero_b q) eqn:Eq.
    + destruct (Qzero_b p); [done|]. simpl. by apply Qneg_b_nonneg.
    + apply rnd_nonneg. apply Qzero_b_false in Eq.
      apply Qle_shift_div_l; lra.
Qed.

Lemma of_Z_nonneg z : 0 <= z → nonneg (of_Z z).
Proof.
  intros Hz. simpl. unfold Qle. simpl. lia.
Qed.

Lemma fsum_nonneg xs : Forall nonneg xs → nonneg (fsum rnd xs).
Proof.
  unfold fsum. assert (H0 : nonneg f0) by (simpl; lra).
  revert H0. generalize f0. induction xs as [|x xs IH]; intros acc Hacc Hall; [done|].
  inversion Hall; subst. simpl. apply IH; [|done]. by apply fadd_nonneg.
Qed.

Lemma fmean_nonneg xs : Forall nonneg xs → nonneg (fmean rnd xs).
Proof.
  intros H. unfold fmean. apply fdiv_nonneg; [by apply fsum_nonneg|].
  apply of_Z_nonneg. lia.
Qed.

(** The value of RSI for a relative strength that is NaN or not negative
    is NaN or a number from 0 to 100. *)
Lemma rsi_of_rs_range r v :
  nonneg r →
  fsub rnd f100 (fdiv rnd f100 (fadd rnd f1 r)) = v →
  is_nan v = false → ∃ q, v = FFin q ∧ (0 <= q <= 100)%Q.
Proof.
  intros Hr <- Hv.
  assert (Hinf : ∃ q, fsub rnd f100 f0 = FFin q ∧ (0 <= q <= 100)%Q).
  { simpl. apply rnd_percent. lra. }
  assert (Hsum : fadd rnd f1 r = FNaN ∨ fadd rnd f1 r = FInf false
                 ∨ ∃ d, fadd rnd f1 r = FFin d ∧ (1 <= d)%Q).
  { destruct r as [|[]|q]; simpl in *; [by left|done|by right; left|].
    right. apply rnd_ge1. lra. }
  destruct Hsum as [E|[E|(d & E & Hd)]]; rewrite E in *.
  - done.
  - exact Hinf.
  - simpl in *. assert (Ed : Qzero_b d = false).
    { destruct (Qzero_b d) eqn:Ez; [|done]. apply Qzero_b_spec in Ez. lra. }
    rewrite Ed in *.
    destruct (rnd_percent (100 / d)) as (y & Ey & Hy).
    { split.
      - apply Qle_shift_div_l; lra.
      - apply Qle_shift_div_r; lra. }
    rewrite Ey in *. simpl. apply rnd_percent. lra.
Qed.

Lemma py_index_inside n i :
  0 <= i < Z.of_nat n → py_index n i = Some (Z.to_nat i).
Proof.
  intros Hi. unfold py_index.
  assert (H1 : (0 <=? i) = true) by (apply Z.leb_le; lia).
  assert (H2 : (i <? Z.of_nat n) = true) by (apply Z.ltb_lt; lia).
  by rewrite H1, H2.
Qed.

Lemma rma_step_inv x n a i :
  1 <= n → length a = length x → Forall nonneg a → Forall nonneg x →
  1 <= i < Z.of_nat (length x) →
  ∃ a', rma_step rnd x n (Some a) i = Some a'
        ∧ length a' = length x ∧ Forall nonneg a'.
Proof.
  intros Hn Hlen Ha Hx Hi. unfold rma_step. simpl.
  rewrite Hlen, !py_index_inside by lia. simpl.
  destruct (lookup_lt_is_Some_2 a (Z.to_nat (i - 1))) as [ap Hap]; [lia|].
  destruct (lookup_lt_is_Some_2 x (Z.to_nat i)) as [xi Hxi]; [lia|].
  rewrite Hap, Hxi. simpl. eexists. split; [reflexivity|].
  split; [by rewrite length_insert|].
  apply Forall_insert; [done|].
  apply fdiv_nonneg; [|apply of_Z_nonneg; lia].
  apply fadd_nonneg.
  - apply fmul_nonneg; [|apply of_Z_nonneg; lia].
    by eapply (Forall_lookup_1 _ a).
  - by eapply (Forall_lookup_1 _ x).
Qed.

Lemma rma_fold_inv x n idx a :
  1 <= n → length a = length x → Forall nonneg a → Forall nonneg x →
  Forall (fun i => 1 <= i < Z.of_nat (length x)) idx →
  ∃ a', fold_left (rma_step rnd x n) idx (Some a) = Some a'
        ∧ length a' = length x ∧ Forall nonneg a'.
Proof.
  intros Hn. revert a. induction idx as [|i idx IH]; intros a Hlen Ha Hx Hidx.
  - exists a. done.
  - inversion Hidx as [|? ? Hi Hidx']; subst.
    destruct (rma_step_inv x n a i Hn Hlen Ha Hx Hi) as (a1 & E1 & Hlen1 & Ha1).
    cbn [fold_left]. rewrite E1. by apply IH.
Qed.

(** With a period from 1 up to the length of the column, [rma] answers,
    and the averages of a column without negative numbers are not
    negative. *)
Lemma rma_nonneg x n :
  1 <= n < Z.of_nat (length x) → Forall nonneg x →
  ∃ a, rma rnd x n = Some a ∧ length a = length x ∧ Forall nonneg a.
Proof.
  intros Hn Hx. unfold rma.
  rewrite length_replicate, py_index_inside by lia. simpl.
  apply rma_fold_inv; try done; try lia.
  - by rewrite length_insert, length_replicate.
  - apply Forall_insert.
    + apply Forall_replicate. done.
    + apply fmean_nonneg. unfold py_slice. by apply Forall_take, Forall_drop.
  - apply Forall_forall. intros i Hi. apply elem_of_seqZ in Hi. lia.
Qed.

Lemma gain_nonneg c : nonneg (if flt c f0 then f0 else c).
Proof.
  destruct c as [|[]|q]; simpl; try done.
  unfold Qlt_b. destruct (Qle_bool 0 q) eqn:E; simpl; [|done].
  by apply Qle_bool_iff.
Qed.

Lemma loss_nonneg c : nonneg (fneg (if fgt c f0 then fneg f0 else c)).
Proof.
  destruct c as [|[]|q]; simpl; try done.
  unfold Qlt_b. destruct (Qle_bool q 0) eqn:E; simpl; [|done].
  apply Qle_bool_iff in E. lra.
Qed.

End Rounded.

(** ** Columns *)

Lemma del_col_Some df k c : get_col df k = Some c → del_col df k = Some (without df k).
Proof. intros H. unfold del_col. by rewrite H. Qed.

Lemma get_col_without_ne df k k' : k ≠ k' → get_col (without df k) k' = get_col df k'.
Proof.
  intros Hne. unfold get_col, without. simpl.
  induction (columns df) as [|[k0 c0] cols IH]; [done|]. simpl.
  destruct (String.eqb k0 k) eqn:E.
  - apply String.eqb_eq in E. subst k0.
    destruct (String.eqb k k') eqn:E'; [|done]. by apply String.eqb_eq in E'.
  - simpl. by rewrite IH.
Qed.

Lemma drop_columns_Some df ks :
  NoDup ks → (∀ k, k ∈ ks → is_Some (get_col df k)) →
  ∃ df', drop_columns df ks = Some df'
         ∧ index df' = index df
         ∧ ∀ k', k' ∉ ks → get_col df' k' = get_col df k'.
Proof.
  revert df. induction ks as [|k ks IH]; intros df Hnd Hhas.
  - exists df. done.
  - apply NoDup_cons in Hnd as [Hk Hnd].
    destruct (Hhas k) as [c Hc]; [by left|].
    simpl. rewrite (del_col_Some _ _ _ Hc). simpl.
    destruct (IH (without df k) Hnd) as (df' & E & Hidx & Hget).
    { intros k' Hk'. rewrite get_col_without_ne; [apply Hhas; by right|].
      intros ->. done. }
    exists df'. split; [done|]. split; [done|].
    intros k' Hk'. rewrite Hget, get_col_without_ne; [done| |].
    + intros ->. apply Hk'. by left.
    + intros Hin. apply Hk'. by right.
Qed.

Section Range.
Variable rnd : Q → fval.
Hypothesis Hrnd : rounding rnd.

Lemma diff_length xs : length (diff rnd xs) = length xs.
Proof. unfold diff. rewrite length_zip_with, shift1_length. lia. Qed.

Lemma RSI_compute_range df N s xs :
  1 <= N < Z.of_nat (length xs) →
  floats df s = Some xs →
  ∃ df' rsi,
    RSI_compute rnd df N s = (true, df')
    ∧ floats df' "rsi" = Some rsi
    ∧ length rsi = length xs
    ∧ ∀ i v, rsi !! i = Some v → is_nan v = false →
             ∃ q, v = FFin q ∧ (0 <= q <= 100)%Q.
Proof.
  intros HN Hxs. unfold RSI_compute. rewrite Hxs.
  set (change := diff rnd xs).
  set (gain := map (fun c => if flt c f0 then f0 else c) change).
  set (loss := map (fun c => fneg (if fgt c f0 then fneg f0 else c)) change).
  assert (Lc : length change = length xs) by apply diff_length.
  destruct (rma_nonneg rnd Hrnd gain N) as (ag & Eg & Lg & Hg).
  { unfold gain. rewrite length_map. lia. }
  { unfold gain. apply Forall_map, Forall_forall. intros c _. apply gain_nonneg. }
  destruct (rma_nonneg rnd Hrnd loss N) as (al & El & Ll & Hl).
  { unfold loss. rewrite length_map. lia. }
  { unfold loss. apply Forall_map, Forall_forall. intros c _. apply loss_nonneg. }
  rewrite Eg, El.
  set (rs := zip_with (fdiv rnd) ag al).
  set (rsi := map (fun r => fsub rnd f100 (fdiv rnd f100 (fadd rnd f1 r))) rs).
  match goal with
  | |- context [drop_columns ?d ?ks] =>
      destruct (drop_columns_Some d ks) as (df' & Ed & _ & Hget)
  end.
  { apply (bool_decide_unpack _). by vm_compute. }
  { intros k Hk.
    repeat (apply elem_of_cons in Hk as [->|Hk]);
      [..|by apply elem_of_nil in Hk];
      repeat first [ rewrite get_set_col | rewrite get_set_col_ne by done ]; by eexists. }
  rewrite Ed. exists df', rsi. split; [done|]. split.
  { unfold floats. rewrite Hget by (apply (bool_decide_unpack _); by vm_compute).
    by rewrite get_set_col. }
  split.
  { unfold rsi, rs, gain, loss in *. rewrite length_map, length_zip_with.
    rewrite !length_map in Lg, Ll. lia. }
  intros i v Hv Hnan. unfold rsi in Hv. rewrite list_lookup_fmap in Hv.
  destruct (rs !! i) as [r|] eqn:Er; [|done]. simpl in Hv. injection Hv as Hv.
  unfold rs in Er. apply lookup_zip_with_Some in Er as (g & l & -> & Hgi & Hli).
  eapply (rsi_of_rs_range rnd Hrnd); [|exact Hv|exact Hnan].
  apply (fdiv_nonneg rnd Hrnd).
  - by eapply (Forall_lookup_1 _ ag).
  - by eapply (Forall_lookup_1 _ al).
Qed.

(** C7: whatever rounding the arithmetic uses, as long as it is monotone
    and represents 0, 1 and 100: for a period [N] of at least 1 and a
    numeric column longer than [N], [RSI] succeeds, and every value of
    its column [rsi] that is not NaN is a finite number from 0 to 100. *)
Theorem C7_rsi_between_0_and_100
    (df : frame) (s : string) (xs : list fval) (period : pyval) (N : Z) :
  py_int period = Some N →
  floats df s = Some xs →
  length xs = len df →
  1 <= N < Z.of_nat (len df) →
  ∃ out rsi,
    RSI rnd df [(KStr "period", period); (KStr "source", PStr s)] = Some out
    ∧ success out = true
    ∧ floats (returned out) "rsi" = Some rsi
    ∧ length rsi = len df
    ∧ ∀ i v, rsi !! i = Some v → is_nan v = false →
             ∃ q, v = FFin q ∧ (0 <= q <= 100)%Q.
Proof.
  intros HN Hxs Hlen HNr.
  destruct (RSI_compute_range df N s xs) as (df' & rsi & Ec & Hrsi & Lrsi & Hrange);
    [lia|done|].
  unfold RSI. cbn -[py_int RSI_compute Z.gtb len set_none].
  rewrite HN.
  assert (H1 : (Z.of_nat (len df) >? N) = true) by (apply Z.gtb_lt; lia).
  rewrite H1, Ec.
  exists (same_frame true df' ["rsi"]), rsi.
  repeat split; try done. by rewrite Lrsi.
Qed.

End Range.

(** The theorem on the closing prices of twelve days, with a period of
    three and exact arithmetic: the last value is a number, and it lies
    between 0 and 100. *)
Lemma C7_rsi_between_0_and_100_witness :
  ∃ out rsi q,
    RSI rnd_exact (DataFrame history) [(KStr "period", PInt 3); (KStr "source", PStr "close")]
      = Some out
    ∧ floats (returned out) "rsi" = Some rsi
    ∧ rsi !! 11%nat = Some (FFin q)
    ∧ (0 <= q <= 100)%Q.
Proof.
  destruct (C7_rsi_between_0_and_100 rnd_exact rnd_exact_rounding (DataFrame history)
              "close" (map q_close history) (PInt 3) 3 eq_refl eq_refl eq_refl)
    as (out & rsi & Eo & _ & Er & _ & Hrange); [by compute|].
  assert (Hlast : ∃ v, rsi !! 11%nat = Some v ∧ is_nan v = false).
  { vm_compute in Eo. injection Eo as <-. vm_compute in Er. injection Er as <-.
    eexists. split; reflexivity. }
  destruct Hlast as (v & Hv & Hnan).
  destruct (Hrange 11%nat v Hv Hnan) as (q & -> & Hq).
  exists out, rsi, q. repeat split; try assumption; apply Hq.
Defined.

End RSIFacts.

(* ===================================================================== *)
(** * The scheduler: order, admission, backup                             *)
(* ===================================================================== *)

Module QueueFacts.
Import Py Logging Utils Tasks PyFacts Examples TasksFacts Queue.

Lemma dispatch_step run_time j rest limit w :
  dispatch run_time (j :: rest) limit w
  = if Z.of_nat (length (active_children w)) <? limit
    then dispatch run_time rest limit
           (if is_quotes j then start_process (run_time j) w
            else say WARNING "No background processing job for table defined" w)
    else (j :: rest, w).
Proof.
  cbn [dispatch]. destruct (_ <? limit); [|done].
  unfold is_quotes. destruct (table j) as [| | | | |s| | |]; try done.
  destruct (String.eqb_spec s "quotes") as [->|Hne]; [done|].
  repeat (case_match; try done).
Qed.

(** X1: the inner loop of [scheduleTasks] takes jobs from the head of
    the queue, oldest first, and leaves the rest in order. For every job
    taken whose table is [quotes] one worker is started, in queue order;
    every other job taken is dropped with one warning. The loop stops
    only when the queue is empty or the limit of workers is reached. *)
Theorem dispatch_oldest_first run_time queue limit w :
  ∃ taken,
    queue = taken ++ fst (dispatch run_time queue limit w)
    ∧ active_children (snd (dispatch run_time queue limit w))
      = active_children w ++ map run_time (List.filter is_quotes taken)
    ∧ logged (snd (dispatch run_time queue limit w))
      = logged w ++ map (fun _ => no_worker)
                        (List.filter (fun j => negb (is_quotes j)) taken)
    ∧ (fst (dispatch run_time queue limit w) = []
       ∨ limit <= Z.of_nat (length (active_children (snd (dispatch run_time queue limit w))))).
Proof.
  revert w. induction queue as [|j rest IH]; intros w.
  - exists []. simpl. rewrite !app_nil_r. auto.
  - rewrite dispatch_step.
    destruct (Z.of_nat (length (active_children w)) <? limit) eqn:Hfree.
    + set (w1 := if is_quotes j then _ else _).
      destruct (IH w1) as (taken & Hq & Hc & Hl & Hstop).
      exists (j :: taken). cbn [app List.filter]. split; [f_equal; exact Hq|].
      split; [|split; [|exact Hstop]]; rewrite ?Hc, ?Hl; unfold w1;
        destruct (is_quotes j); cbn [negb map start_process say active_children logged];
        by rewrite <- ?app_assoc.
    + exists []. simpl. rewrite !app_nil_r. repeat split; try done.
      right. apply Z.ltb_ge in Hfree. lia.
Qed.

Lemma dispatch_bound run_time queue limit w :
  Z.of_nat (length (active_children (snd (dispatch run_time queue limit w))))
  <= Z.max limit (Z.of_nat (length (active_children w))).
Proof.
  revert w. induction queue as [|j rest IH]; intros w.
  - simpl. lia.
  - rewrite dispatch_step.
    destruct (Z.of_nat (length (active_children w)) <? limit) eqn:Hfree; [|simpl; lia].
    apply Z.ltb_lt in Hfree. etrans; [apply IH|].
    destruct (is_quotes j); simpl; rewrite ?length_app; simpl; lia.
Qed.

(** X2: a round of the scheduling loop never leaves more workers
    alive than [parallelProcesses], unless more than that were alive
    before it. *)
Theorem round_respects_limit run_time workingOnTasks th w :
  Z.of_nat (length (active_children
                      (snd (scheduleTasks_round run_time workingOnTasks th w))))
  <= Z.max (parallelProcesses th) (Z.of_nat (length (active_children w))).
Proof.
  unfold scheduleTasks_round.
  pose proof (dispatch_bound run_time (jobQueue th) (parallelProcesses th) w) as Hb.
  destruct (dispatch run_time (jobQueue th) (parallelProcesses th) w) as [q w1].
  simpl in Hb.
  assert (Hs : ∀ w2, active_children w2 = active_children w1 →
               (length (active_children (sleep 5 w2)) <= length (active_children w1))%nat).
  { intros w2 E. unfold sleep. simpl. rewrite E.
    etrans; [apply length_filter|]. by rewrite length_map. }
  repeat case_match; simplify_eq; cbn [snd];
    match goal with |- context [sleep 5 ?w2] => specialize (Hs w2 eq_refl) end; lia.
Qed.

Lemma asdict_dumps_data j : json_dumps (data j) = None → json_dumps (asdict j) = None.
Proof.
  intros H. unfold asdict. cbn [json_dumps mapM fst snd]. rewrite H.
  by destruct (json_dumps (timestamp j)), (json_dumps (uuid j)), (json_dumps (table j)),
    (json_dumps (id1 j)), (json_dumps (id2 j)), (json_dumps (date1 j)),
    (json_dumps (date2 j)).
Qed.

Lemma dumps_jobs_fails jobs j :
  j ∈ jobs → json_dumps (data j) = None → dumps_jobs jobs = None.
Proof.
  intros Hin Hd. unfold dumps_jobs. cbn [json_dumps].
  destruct (mapM json_dumps (map asdict jobs)) as [l|] eqn:E; [|done].
  assert (Hs : is_Some (mapM json_dumps (map asdict jobs))) by (by rewrite E).
  apply mapM_is_Some in Hs.
  rewrite Forall_fmap in Hs.
  pose proof (proj1 (Forall_forall _ _) Hs j Hin) as [x Hx].
  change (json_dumps (asdict j) = Some x) in Hx.
  by rewrite (asdict_dumps_data j Hd) in Hx.
Qed.

(** X3: [shutdown] with a queued job whose payload [json.dumps]
    cannot write (a [Decimal] in [data], say) still returns; it has
    emptied the queue and truncated [jobs.json], so every queued job is
    lost: a [loadJobs] that follows restores nothing and returns
    [False]. *)
Theorem shutdown_unserialisable_queue_is_lost
    (fuel : nat) (e : Entropy) (th : TaskHandler) (w : World) (j : BackgroundJobData) :
  backgroundTasks th = [] →
  j ∈ jobQueue th →
  json_dumps (data j) = None →
  ∃ th' w',
    shutdown fuel th w = Some (th', w')
    ∧ jobQueue th' = []
    ∧ jobs_json w' = Some Unparsable
    ∧ fst (loadJobs e th' w') = (false, th').
Proof.
  intros Hbg Hin Hd. unfold shutdown.
  rewrite wait_backgroundTasks_nothing by done. simpl.
  rewrite (dumps_jobs_fails _ j Hin Hd).
  eexists _, _. split; [reflexivity|]. repeat split.
Qed.

Lemma shutdown_unserialisable_queue_is_lost_witness :
  ∃ th' w',
    shutdown 0 handler_decimal world0 = Some (th', w')
    ∧ jobQueue th' = []
    ∧ jobs_json w' = Some Unparsable
    ∧ fst (loadJobs entropy1 th' w') = (false, th').
Proof.
  apply (shutdown_unserialisable_queue_is_lost 0 entropy1 handler_decimal world0 decimal_job).
  - reflexivity.
  - by apply (list_elem_of_lookup_2 _ 1%nat).
  - reflexivity.
Defined.

(** X4: [fromDict] answers exactly on the dictionaries that have all
    eight fields; other keys are ignored. The job carries the values of
    the dictionary, except that a timestamp or uuid of [None] is
    replaced by a fresh one: no job has a [None] timestamp or uuid. *)
Theorem fromDict_reads_eight_fields (e : Entropy) (d : pydict) :
  (is_Some (fromDict e (PDict d))
   ↔ Forall (fun k => is_Some (dict_get d (KStr k))) fields)
  ∧ (∀ j, fromDict e (PDict d) = Some j →
       dict_get d (KStr "table") = Some (table j)
       ∧ dict_get d (KStr "id1") = Some (id1 j)
       ∧ dict_get d (KStr "id2") = Some (id2 j)
       ∧ dict_get d (KStr "date1") = Some (date1 j)
       ∧ dict_get d (KStr "date2") = Some (date2 j)
       ∧ dict_get d (KStr "data") = Some (data j)
       ∧ timestamp j ≠ PNone ∧ uuid j ≠ PNone
       ∧ (dict_get d (KStr "timestamp") = Some PNone → timestamp j = PInt (utcnow e))
       ∧ (dict_get d (KStr "uuid") = Some PNone → uuid j = PStr (uuid4 e))
       ∧ (∀ t, dict_get d (KStr "timestamp") = Some t → t ≠ PNone → timestamp j = t)
       ∧ (∀ u, dict_get d (KStr "uuid") = Some u → u ≠ PNone → uuid j = u)).
Proof.
  unfold fromDict, fields. split.
  - rewrite !Forall_cons, Forall_nil.
    destruct (dict_get d (KStr "table")), (dict_get d (KStr "id1")),
      (dict_get d (KStr "id2")), (dict_get d (KStr "date1")),
      (dict_get d (KStr "date2")), (dict_get d (KStr "data")),
      (dict_get d (KStr "timestamp")), (dict_get d (KStr "uuid")); simpl;
      (split;
       [ intros [j Hj]; try discriminate; repeat split; by eexists
       | intros (H1 & H2 & H3 & H4 & H5 & H6 & H7 & H8 & _);
         first [ by destruct H1 | by destruct H2 | by destruct H3 | by destruct H4
               | by destruct H5 | by destruct H6 | by destruct H7 | by destruct H8
               | by eexists ] ]).
  - intros j.
    destruct (dict_get d (KStr "table")), (dict_get d (KStr "id1")),
      (dict_get d (KStr "id2")), (dict_get d (KStr "date1")),
      (dict_get d (KStr "date2")), (dict_get d (KStr "data")),
      (dict_get d (KStr "timestamp")) as [ts|], (dict_get d (KStr "uuid")) as [uu|];
      simpl; try done.
    intros [= <-]. simpl.
    repeat split; try done.
    + by destruct ts.
    + by destruct uu.
    + by intros [= ->].
    + by intros [= ->].
    + intros t [= ->] Ht. by destruct t.
    + intros u [= ->] Hu. by destruct u.
Qed.

Lemma fromDict_entropy e1 e2 v j1 :
  fromDict e1 v = Some j1 → ∃ j2, fromDict e2 v = Some j2 ∧ same_payload j1 j2.
Proof.
  unfold fromDict. destruct v as [| | | | | | | |d]; try done.
  destruct (dict_get d (KStr "table")), (dict_get d (KStr "id1")),
    (dict_get d (KStr "id2")), (dict_get d (KStr "date1")),
    (dict_get d (KStr "date2")), (dict_get d (KStr "data")),
    (dict_get d (KStr "timestamp")), (dict_get d (KStr "uuid")); simpl; try done.
  intros [= <-]. eexists. split; [reflexivity|]. by repeat split.
Qed.

Lemma mapM_fromDict_entropy e1 e2 backup jobs1 :
  mapM (fromDict e1) backup = Some jobs1 →
  ∃ jobs2, mapM (fromDict e2) backup = Some jobs2 ∧ Forall2 same_payload jobs1 jobs2.
Proof.
  revert jobs1. induction backup as [|v backup IH]; intros jobs1; simpl.
  - intros [= <-]. exists []. by split.
  - destruct (fromDict e1 v) as [j1|] eqn:E1; [|done]. simpl.
    destruct (mapM (fromDict e1) backup) as [js1|]; [|done]. simpl.
    intros [= <-].
    destruct (fromDict_entropy e1 e2 v j1 E1) as (j2 & -> & Hj).
    destruct (IH js1 eq_refl) as (js2 & -> & Hjs).
    exists (j2 :: js2). split; [done|]. by constructor.
Qed.

(** X5: [loadJobs] does not consume the backup. When it has restored
    the jobs of [jobs.json], a second [loadJobs] (after a restart without
    [shutdown], say) succeeds again and appends the same jobs a second
    time: same table, ids, dates and payload, one for one. *)
Theorem loadJobs_leaves_the_backup (e1 e2 : Entropy) (th : TaskHandler) (w : World) :
  fst (fst (loadJobs e1 th w)) = true →
  ∃ jobs1 jobs2,
    jobs1 ≠ []
    ∧ jobQueue (snd (fst (loadJobs e1 th w))) = jobQueue th ++ jobs1
    ∧ fst (fst (loadJobs e2 (snd (fst (loadJobs e1 th w))) (snd (loadJobs e1 th w)))) = true
    ∧ jobQueue (snd (fst (loadJobs e2 (snd (fst (loadJobs e1 th w)))
                                  (snd (loadJobs e1 th w)))))
      = jobQueue th ++ jobs1 ++ jobs2
    ∧ Forall2 same_payload jobs1 jobs2.
Proof.
  intros Hret.
  destruct (loadJobs_cases e1 th w) as (Hfile & _ & _ & Hok).
  destruct (Hok Hret) as (doc & backup & jobs1 & Hdoc & Hlist & Hjobs & Hne & Hq).
  destruct (mapM_fromDict_entropy e1 e2 backup jobs1 Hjobs) as (jobs2 & Hjobs2 & Hsame).
  exists jobs1, jobs2. split; [done|]. split; [done|].
  destruct (loadJobs_cases e2 (snd (fst (loadJobs e1 th w))) (snd (loadJobs e1 th w)))
    as (_ & Hlist2 & _).
  rewrite Hfile in Hlist2.
  destruct (Hlist2 doc backup jobs2 Hdoc Hlist Hjobs2) as [Hq2 Hr2].
  rewrite Hr2, Hq2, Hq, <- app_assoc. repeat split; [|done].
  apply bool_decide_eq_true_2. intros ->. inversion Hsame. by subst.
Qed.

Lemma loadJobs_leaves_the_backup_witness :
  ∃ jobs1 jobs2,
    jobs1 ≠ []
    ∧ jobQueue (snd (fst (loadJobs entropy0 handler0 world_two_jobs))) = jobQueue handler0 ++ jobs1
    ∧ fst (fst (loadJobs entropy1 (snd (fst (loadJobs entropy0 handler0 world_two_jobs)))
                  (snd (loadJobs entropy0 handler0 world_two_jobs)))) = true
    ∧ jobQueue (snd (fst (loadJobs entropy1 (snd (fst (loadJobs entropy0 handler0 world_two_jobs)))
                                  (snd (loadJobs entropy0 handler0 world_two_jobs)))))
      = jobQueue handler0 ++ jobs1 ++ jobs2
    ∧ Forall2 same_payload jobs1 jobs2.
Proof.
  apply (loadJobs_leaves_the_backup entropy0 entropy1 handler0 world_two_jobs).
  reflexivity.
Defined.

End QueueFacts.
(* ===================================================================== *)
(** * utils.py: facts                                                     *)
(* ===================================================================== *)

Module InputsFacts.
Import Py Utils Factory PyFacts Inputs.

(** ** Letter case *)

Lemma lower_upper_char c : lower_char (upper_char c) = lower_char c.
Proof. by destruct c as [[] [] [] [] [] [] [] []]. Qed.

Lemma lower_lower_char c : lower_char (lower_char c) = lower_char c.
Proof. by destruct c as [[] [] [] [] [] [] [] []]. Qed.

Lemma upper_upper_char c : upper_char (upper_char c) = upper_char c.
Proof. by destruct c as [[] [] [] [] [] [] [] []]. Qed.

Lemma lower_upper s : lower (upper s) = lower s.
Proof.
  unfold lower, upper. rewrite list_ascii_of_string_of_list_ascii, map_map.
  f_equal. apply map_ext. intros c. apply lower_upper_char.
Qed.

Lemma lower_lower s : lower (lower s) = lower s.
Proof.
  unfold lower. rewrite list_ascii_of_string_of_list_ascii, map_map.
  f_equal. apply map_ext. intros c. apply lower_lower_char.
Qed.

Lemma upper_upper s : upper (upper s) = upper s.
Proof.
  unfold upper. rewrite list_ascii_of_string_of_list_ascii, map_map.
  f_equal. apply map_ext. intros c. apply upper_upper_char.
Qed.

Lemma length_string_of_list cs :
  String.length (string_of_list_ascii cs) = length cs.
Proof. induction cs as [|c cs IH]; simpl; by rewrite ?IH. Qed.

Lemma length_list_of_string s :
  length (list_ascii_of_string s) = String.length s.
Proof. induction s as [|c s IH]; simpl; by rewrite ?IH. Qed.

Lemma length_lower s : String.length (lower s) = String.length s.
Proof.
  unfold lower. by rewrite length_string_of_list, length_map, length_list_of_string.
Qed.

Lemma length_upper s : String.length (upper s) = String.length s.
Proof.
  unfold upper. by rewrite length_string_of_list, length_map, length_list_of_string.
Qed.

Lemma is_ascii_map (f : ascii → ascii) s :
  (∀ c, (nat_of_ascii c <? 128)%nat = true → (nat_of_ascii (f c) <? 128)%nat = true) →
  is_ascii s = true →
  is_ascii (string_of_list_ascii (map f (list_ascii_of_string s))) = true.
Proof.
  intros Hf. unfold is_ascii. rewrite list_ascii_of_string_of_list_ascii.
  induction (list_ascii_of_string s) as [|c cs IH]; [done|].
  cbn [forallb map]. intros [Hc Hcs]%andb_true_iff.
  by rewrite (Hf c Hc), IH.
Qed.

Lemma upper_char_ascii c :
  (nat_of_ascii c <? 128)%nat = true → (nat_of_ascii (upper_char c) <? 128)%nat = true.
Proof. by destruct c as [[] [] [] [] [] [] [] []]. Qed.

Lemma lower_char_ascii c :
  (nat_of_ascii c <? 128)%nat = true → (nat_of_ascii (lower_char c) <? 128)%nat = true.
Proof. by destruct c as [[] [] [] [] [] [] [] []]. Qed.

(** X6: on a text of ASCII characters [parseBoolean] and
    [intervalFromStr] do not look at the case of the letters: the text
    in upper case and the text in lower case are texts of ASCII
    characters again and are read like the text itself. (Outside ASCII,
    [str.upper] can turn a character into a letter of a keyword, and
    the texts are not read alike.) *)
Theorem parsers_ignore_case (s : string) :
  is_ascii s = true →
  is_ascii (upper s) = true
  ∧ is_ascii (lower s) = true
  ∧ parseBoolean (PStr (upper s)) = parseBoolean (PStr s)
  ∧ parseBoolean (PStr (lower s)) = parseBoolean (PStr s)
  ∧ intervalFromStr (upper s) = intervalFromStr s
  ∧ intervalFromStr (lower s) = intervalFromStr s.
Proof.
  intros Hs.
  split; [by apply is_ascii_map; [apply upper_char_ascii|]|].
  split; [by apply is_ascii_map; [apply lower_char_ascii|]|].
  unfold parseBoolean, intervalFromStr.
  by rewrite lower_upper, lower_lower, length_upper, length_lower.
Qed.

Lemma parsers_ignore_case_witness :
  is_ascii "Yes" = true ∧ is_ascii "Weekly" = true
  ∧ parseBoolean (PStr "YES") = true ∧ parseBoolean (PStr "yes") = true
  ∧ intervalFromStr "WEEKLY" = Some WEEKLY ∧ intervalFromStr "weekly" = Some WEEKLY.
Proof.
  destruct (parsers_ignore_case "Yes" eq_refl) as (_ & _ & Hu & Hl & _).
  destruct (parsers_ignore_case "Weekly" eq_refl) as (_ & _ & _ & _ & Hiu & Hil).
  split; [reflexivity|]. split; [reflexivity|]. split; [exact Hu|].
  split; [exact Hl|]. split; [exact Hiu|exact Hil].
Defined.

(** ** Dictionaries *)

Lemma key_eqb_true_l a b c : key_eqb a b = true → key_eqb a c = key_eqb b c.
Proof.
  intros Hab. apply key_eqb_canon in Hab.
  destruct (key_eqb a c) eqn:Eac, (key_eqb b c) eqn:Ebc; try done.
  - apply key_eqb_canon in Eac.
    assert (key_eqb b c = true) by (apply key_eqb_canon; congruence). congruence.
  - apply key_eqb_canon in Ebc.
    assert (key_eqb a c = true) by (apply key_eqb_canon; congruence). congruence.
Qed.

(** Reading a dictionary after an assignment. *)
Lemma dict_get_set d k v k' :
  dict_get (dict_set d k v) k' = if key_eqb k k' then Some v else dict_get d k'.
Proof.
  induction d as [|[k0 v0] d IH]; simpl; [done|].
  destruct (key_eqb k0 k) eqn:E0; simpl.
  - rewrite (key_eqb_true_l k0 k k' E0). by destruct (key_eqb k k').
  - rewrite IH. destruct (key_eqb k0 k') eqn:E1, (key_eqb k k') eqn:E2; try done.
    rewrite key_eqb_sym in E2.
    rewrite (key_eqb_true_l k0 k' k E1), E2 in E0. done.
Qed.

Lemma dict_keys_set_present d k v x :
  dict_get d k = Some x → dict_keys (dict_set d k v) = dict_keys d.
Proof.
  induction d as [|[k0 v0] d IH]; simpl; [done|].
  destruct (key_eqb k0 k); simpl; [done|]. intros H. f_equal. by apply IH.
Qed.

Lemma dict_set_same d k v : dict_get d k = Some v → dict_set d k v = d.
Proof.
  induction d as [|[k0 v0] d IH]; simpl; [done|].
  destruct (key_eqb k0 k); simpl; [by intros [= ->]|]. intros H. f_equal. by apply IH.
Qed.

Lemma upper_key_spec input k :
  match dict_get input (KStr k) with
  | None => upper_key (Some input) k = Some input
  | Some (PStr s) =>
      upper_key (Some input) k = Some (dict_set input (KStr k) (PStr (upper s)))
  | Some _ => upper_key (Some input) k = None
  end.
Proof. unfold upper_key. simpl. by repeat case_match. Qed.

Lemma upper_key_props input k output :
  upper_key (Some input) k = Some output →
  dict_keys output = dict_keys input
  ∧ (∀ k', key_eqb (KStr k) k' = false → dict_get output k' = dict_get input k')
  ∧ (∀ s, dict_get input (KStr k) = Some (PStr s) →
          dict_get output (KStr k) = Some (PStr (upper s)))
  ∧ (dict_get input (KStr k) = None → output = input)
  ∧ (∀ s, dict_get input (KStr k) = Some (PStr s) → upper s = s → output = input).
Proof.
  unfold upper_key. cbn -[key_eqb dict_get dict_set].
  destruct (dict_get input (KStr k)) as [[| | | | |s| | |]|] eqn:E; try done;
    intros [= <-].
  - split; [by apply (dict_keys_set_present _ _ _ (PStr s))|].
    split; [intros k' Hk'; by rewrite dict_get_set, Hk'|].
    split; [intros s' [= <-]; by rewrite dict_get_set, key_eqb_refl|].
    split; [done|].
    intros s' [= <-] Hs. rewrite Hs. by apply dict_set_same.
  - repeat split; try done.
Qed.

(** X7: where [securityInputFilter] answers, it has put [code] and
    [exchange_code] into upper case and left every other item and the
    order of the keys as they were; filtering the result again changes
    nothing. *)
Theorem securityInputFilter_normalises (input output : pydict) :
  securityInputFilter input = Some output →
  securityInputFilter output = Some output
  ∧ dict_keys output = dict_keys input
  ∧ (∀ k, key_eqb (KStr "code") k = false → key_eqb (KStr "exchange_code") k = false →
          dict_get output k = dict_get input k)
  ∧ (∀ s, dict_get input (KStr "code") = Some (PStr s) →
          dict_get output (KStr "code") = Some (PStr (upper s)))
  ∧ (∀ s, dict_get input (KStr "exchange_code") = Some (PStr s) →
          dict_get output (KStr "exchange_code") = Some (PStr (upper s))).
Proof.
  unfold securityInputFilter. cbn [fold_left].
  destruct (upper_key (Some input) "code") as [d1|] eqn:E1; [|done].
  intros E2.
  destruct (upper_key_props _ _ _ E1) as (K1 & O1 & C1 & N1 & _).
  destruct (upper_key_props _ _ _ E2) as (K2 & O2 & C2 & N2 & _).
  assert (Hcode : ∀ s, dict_get input (KStr "code") = Some (PStr s) →
                       dict_get output (KStr "code") = Some (PStr (upper s))).
  { intros s Hs. rewrite O2 by done. by apply C1. }
  assert (Hexch : ∀ s, dict_get input (KStr "exchange_code") = Some (PStr s) →
                       dict_get output (KStr "exchange_code") = Some (PStr (upper s))).
  { intros s Hs. apply C2. by rewrite O1. }
  split; [|split; [congruence|split; [|by split]]].
  - assert (S1 : upper_key (Some output) "code" = Some output).
    { pose proof (upper_key_spec input "code") as H1. rewrite E1 in H1.
      pose proof (upper_key_spec output "code") as H2.
      destruct (dict_get input (KStr "code")) as [[| | | | |s| | |]|] eqn:Ei; try done.
      - rewrite (Hcode s eq_refl) in H2. rewrite H2, upper_upper. f_equal.
        apply dict_set_same. by apply Hcode.
      - rewrite O2, (N1 eq_refl), Ei in H2 by done. exact H2. }
    rewrite S1.
    pose proof (upper_key_spec d1 "exchange_code") as H1. rewrite E2 in H1.
    pose proof (upper_key_spec output "exchange_code") as H2.
    destruct (dict_get d1 (KStr "exchange_code")) as [[| | | | |s| | |]|] eqn:Ei; try done.
    + rewrite (C2 s eq_refl) in H2. rewrite H2, upper_upper. f_equal.
      apply dict_set_same. by apply C2.
    + rewrite (N2 eq_refl), Ei in H2. by rewrite (N2 eq_refl).
  - intros k Hc He. by rewrite O2, O1.
Qed.

Lemma securityInputFilter_normalises_witness :
  securityInputFilter apple
  = Some [ (KStr "code", PStr "AAPL"); (KStr "type", PStr "Stock");
           (KStr "exchange_code", PStr "US") ]
  ∧ securityInputFilter [ (KStr "code", PStr "AAPL"); (KStr "type", PStr "Stock");
                          (KStr "exchange_code", PStr "US") ]
    = Some [ (KStr "code", PStr "AAPL"); (KStr "type", PStr "Stock");
             (KStr "exchange_code", PStr "US") ].
Proof.
  split; [reflexivity|].
  apply (securityInputFilter_normalises apple). reflexivity.
Defined.

(** ** Integers as texts *)

Lemma int_digits_all cs b acc :
  forallb is_digit cs = true → cs ≠ [] →
  int_digits cs b acc
  = Some (fold_left (fun a c => 10 * a + digit_value c) cs acc).
Proof.
  revert b acc. induction cs as [|c cs IH]; intros b acc Hd Hne; [done|].
  cbn [forallb] in Hd. apply andb_true_iff in Hd as [Hc Hd].
  cbn [int_digits fold_left]. rewrite Hc.
  destruct cs as [|c' cs]; [done|]. by apply IH.
Qed.

Lemma pretty_N_char_digit d :
  (d < 10)%N →
  is_digit (pretty_N_char d) = true ∧ digit_value (pretty_N_char d) = Z.of_N d.
Proof.
  intros Hd.
  assert (H : (d = 0 ∨ d = 1 ∨ d = 2 ∨ d = 3 ∨ d = 4 ∨ d = 5 ∨ d = 6 ∨ d = 7
               ∨ d = 8 ∨ d = 9)%N) by lia.
  repeat (destruct H as [->|H]); try subst d; by compute.
Qed.

(** The digits that [pretty] writes in front of a text. *)
Lemma pretty_N_go_digits x s :
  ∃ pre,
    list_ascii_of_string (pretty_N_go x s) = pre ++ list_ascii_of_string s
    ∧ forallb is_digit pre = true
    ∧ fold_left (fun a c => 10 * a + digit_value c) pre 0 = Z.of_N x
    ∧ ((0 < x)%N → pre ≠ []).
Proof.
  revert s. induction (N.lt_wf_0 x) as [x _ IH]. intros s.
  assert (x = 0 ∨ 0 < x)%N as [->|Hx] by lia.
  - exists []. rewrite pretty_N_go_0. repeat split; try done; lia.
  - rewrite pretty_N_go_step by done.
    destruct (IH (x `div` 10)%N) with (s := String (pretty_N_char (x `mod` 10)) s)
      as (pre & Hl & Hd & Hv & _).
    { by apply N.div_lt. }
    destruct (pretty_N_char_digit (x `mod` 10)%N) as [Hc Hcv].
    { by apply N.mod_lt. }
    exists (pre ++ [pretty_N_char (x `mod` 10)]).
    rewrite Hl. cbn [list_ascii_of_string]. rewrite <- app_assoc.
    split; [done|]. split.
    { rewrite forallb_app, Hd. simpl. by rewrite Hc. }
    split.
    { rewrite fold_left_app, Hv. cbn [fold_left]. rewrite Hcv.
      rewrite (N.div_mod x 10) at 3 by done. lia. }
    intros _. by destruct pre.
Qed.

Lemma is_digit_not_space c : is_digit c = true → is_space c = false.
Proof. by destruct c as [[] [] [] [] [] [] [] []]. Qed.

Lemma is_digit_not_sign c :
  is_digit c = true → Ascii.eqb c "-" = false ∧ Ascii.eqb c "+" = false.
Proof. by destruct c as [[] [] [] [] [] [] [] []]. Qed.

Lemma drop_spaces_id cs :
  match cs with [] => True | c :: _ => is_space c = false end → drop_spaces cs = cs.
Proof. destruct cs as [|c cs]; [done|]. simpl. by intros ->. Qed.

Lemma strip_id cs :
  forallb (fun c => negb (is_space c)) cs = true → strip cs = cs.
Proof.
  intros H. unfold strip.
  assert (Hall : ∀ c, In c cs → is_space c = false).
  { intros c Hc. apply negb_true_iff. by apply (proj1 (forallb_forall _ _) H). }
  rewrite (drop_spaces_id cs).
  - rewrite (drop_spaces_id (rev cs)); [apply rev_involutive|].
    destruct (rev cs) as [|c r] eqn:E; [done|].
    apply Hall, in_rev. rewrite E. by left.
  - destruct cs as [|c r]; [done|]. apply Hall. by left.
Qed.

Lemma filter_digits_all cs :
  forallb is_digit cs = true → filter (fun c => is_digit c = true) cs = cs.
Proof.
  induction cs as [|c cs IH]; [done|]. cbn [forallb]. intros [Hc Hcs]%andb_true_iff.
  rewrite filter_cons. destruct (decide (is_digit c = true)); [|done].
  by rewrite IH.
Qed.

Lemma int_of_str_pretty_pos p :
  (String.length (pretty (N.pos p)) <= int_max_str_digits)%nat →
  int_of_str (pretty (N.pos p)) = Some (Z.pos p)
  ∧ int_of_str (String "-" (pretty (N.pos p))) = Some (Z.neg p).
Proof.
  intros Hlen.
  destruct (pretty_N_go_digits (N.pos p) "") as (pre & Hl & Hd & Hv & Hne).
  assert (Hp : pretty (N.pos p) = pretty_N_go (N.pos p) "") by done.
  rewrite Hp in *. simpl in Hl. rewrite app_nil_r in Hl.
  specialize (Hne ltac:(lia)).
  assert (Hsp : forallb (fun c => negb (is_space c)) pre = true).
  { apply forallb_forall. intros c Hc. apply negb_true_iff, is_digit_not_space.
    by apply (proj1 (forallb_forall _ _) Hd). }
  assert (Hpre : (length pre <= int_max_str_digits)%nat).
  { by rewrite <- Hl, length_list_of_string. }
  unfold int_of_str. cbn [list_ascii_of_string]. rewrite Hl. cbn zeta. split.
  - rewrite strip_id by done. rewrite filter_digits_all by done.
    rewrite (proj2 (Nat.ltb_ge _ _) Hpre).
    destruct pre as [|c cs] eqn:E; [done|].
    assert (Hc : is_digit c = true) by (simpl in Hd; by apply andb_true_iff in Hd as [? _]).
    destruct (is_digit_not_sign c Hc) as [-> ->].
    rewrite int_digits_all by done. by rewrite Hv.
  - rewrite strip_id by (simpl; by rewrite Hsp).
    rewrite filter_cons. destruct (decide (is_digit "-" = true)) as [Hminus|_]; [done|].
    rewrite filter_digits_all by done.
    rewrite (proj2 (Nat.ltb_ge _ _) Hpre).
    change (Ascii.eqb "-" "-") with true. cbv iota.
    rewrite int_digits_all by done. by rewrite Hv.
Qed.

(** X8: [parseInt] reads an integer back from its decimal text:
    wherever [str(z)] gives a text, which it does for an integer of up
    to 4300 digits, [parseInt] of that text is [z], and the default is
    not used. *)
Theorem parseInt_reads_what_str_writes (z default : Z) (s : string) :
  str_of_int z = Some s →
  parseInt (PStr s) default = z.
Proof.
  unfold str_of_int, parseInt.
  destruct (int_max_str_digits <? _)%nat eqn:E; [done|]. intros [= <-].
  apply Nat.ltb_ge in E. destruct z as [|p|p].
  - reflexivity.
  - change (pretty (Z.pos p)) with (pretty (N.pos p)).
    by rewrite (proj1 (int_of_str_pretty_pos p E)).
  - change (pretty (Z.neg p)) with (String "-" (pretty (N.pos p))).
    by rewrite (proj2 (int_of_str_pretty_pos p E)).
Qed.

Lemma parseInt_reads_what_str_writes_witness :
  str_of_int (-42) = Some "-42" ∧ parseInt (PStr "-42") 7 = -42.
Proof.
  split; [reflexivity|].
  apply (parseInt_reads_what_str_writes (-42) 7 "-42"). reflexivity.
Defined.

End InputsFacts.
(* ===================================================================== *)
(** * The pipelines: parameters, volume, writes                           *)
(* ===================================================================== *)

Module PipelineFacts.
Import Py Logging Float Frame Indicators Factory PyFacts Spec Examples FactoryFacts
       ResampleFacts InputsFacts.

(** ** parseParameters *)

Lemma parse_value_parsed v : parse_value (parse_value v) = parse_value v.
Proof. destruct v; try done. simpl. by destruct (isdecimal s) eqn:E; simpl; rewrite ?E. Qed.

Lemma existsb_keys_dict_set a d k v :
  existsb (key_eqb a) (dict_keys (dict_set d k v))
  = existsb (key_eqb a) (dict_keys d) || key_eqb a k.
Proof.
  unfold dict_keys.
  induction d as [|[k0 v0] d IH]; cbn [dict_set map fst existsb]; [by rewrite orb_false_r|].
  destruct (key_eqb k0 k) eqn:E; cbn [map fst existsb].
  - destruct (key_eqb a k) eqn:Ea; [|by rewrite orb_false_r].
    rewrite key_eqb_sym in E. rewrite key_eqb_sym in Ea.
    rewrite key_eqb_sym, <- (key_eqb_true_l k k0 a E), Ea. done.
  - by rewrite IH, orb_assoc.
Qed.

Lemma distinct_keys_dict_set d k v :
  distinct_keys (dict_keys d) = true → distinct_keys (dict_keys (dict_set d k v)) = true.
Proof.
  unfold dict_keys.
  induction d as [|[k0 v0] d IH]; cbn [dict_set map fst distinct_keys]; [done|].
  intros H. apply andb_true_iff in H as [H0 Hd].
  destruct (key_eqb k0 k) eqn:E; cbn [map fst distinct_keys].
  - by rewrite H0, Hd.
  - pose proof (existsb_keys_dict_set k0 d k v) as Hx. unfold dict_keys in Hx.
    rewrite Hx, E, orb_false_r, H0. simpl. by apply IH.
Qed.

Lemma values_dict_set (P : pyval → Prop) d k v :
  Forall (fun kv => P (snd kv)) d → P v → Forall (fun kv => P (snd kv)) (dict_set d k v).
Proof.
  intros Hd Hv. induction Hd as [|[k0 v0] d H0 Hd IH]; simpl.
  - by constructor.
  - destruct (key_eqb k0 k); by constructor.
Qed.

Lemma parseParameters_shape input :
  distinct_keys (dict_keys (parseParameters input)) = true
  ∧ Forall (fun kv => parse_value (snd kv) = snd kv) (parseParameters input).
Proof.
  unfold parseParameters.
  assert (H0 : distinct_keys (dict_keys []) = true
               ∧ Forall (fun kv => parse_value (snd kv) = snd kv) (@nil (pykey * pyval)))
    by (by split).
  revert H0. generalize (@nil (pykey * pyval)).
  induction input as [|[k v] input IH]; intros acc [Hd Hv]; [done|].
  cbn [fold_left fst snd]. apply IH. split.
  - by apply distinct_keys_dict_set.
  - apply (values_dict_set (fun v => parse_value v = v)); [done|].
    apply parse_value_parsed.
Qed.

Lemma map_parse_value_parsed (d : pydict) :
  Forall (fun kv => parse_value (snd kv) = snd kv) d →
  map (fun kv => (fst kv, parse_value (snd kv))) d = d.
Proof.
  induction 1 as [|[k v] d H0 Hv IH]; [done|].
  cbn [map fst snd] in *. by rewrite H0, IH.
Qed.

Lemma parseParameters_fold input acc acc' k :
  dict_get acc k = parse_value <$> dict_get acc' k →
  dict_get (fold_left (fun output kv => dict_set output (fst kv) (parse_value (snd kv)))
                      input acc) k
  = parse_value <$> dict_get (fold_left (fun d kv => dict_set d (fst kv) (snd kv))
                                        input acc') k.
Proof.
  revert acc acc'. induction input as [|[k0 v0] input IH]; intros acc acc' H0; [done|].
  cbn [fold_left fst snd]. apply IH.
  rewrite !dict_get_set. by destruct (key_eqb k0 k).
Qed.

(** X9: [parseParameters] on its own result changes nothing; the
    result has no key twice, and under every key it holds the parsed
    form of the value that the input dictionary holds under that key. *)
Theorem parseParameters_twice (input : pydict) :
  parseParameters (parseParameters input) = parseParameters input
  ∧ distinct_keys (dict_keys (parseParameters input)) = true
  ∧ ∀ k, dict_get (parseParameters input) k
         = parse_value <$> dict_get (update [] input) k.
Proof.
  destruct (parseParameters_shape input) as [Hd Hv].
  split; [|split; [done|]].
  - rewrite parseParameters_map by done. by apply map_parse_value_parsed.
  - intros k. by apply parseParameters_fold.
Qed.

(** ** Volume *)

Lemma fold_min_le rest k :
  fold_left Z.min rest k <= k ∧ Forall (fun x => fold_left Z.min rest k <= x) rest.
Proof.
  revert k. induction rest as [|x rest IH]; intros k; simpl; [by split|].
  destruct (IH (Z.min k x)) as [H1 H2]. split; [lia|].
  constructor; [lia|done].
Qed.

Lemma fold_max_ge rest k :
  k <= fold_left Z.max rest k ∧ Forall (fun x => x <= fold_left Z.max rest k) rest.
Proof.
  revert k. induction rest as [|x rest IH]; intros k; simpl; [by split|].
  destruct (IH (Z.max k x)) as [H1 H2]. split; [lia|].
  constructor; [lia|done].
Qed.

(** Every bucket that has a row is one of the bins, and no bin is
    there twice. *)
Lemma bins_cover ks k : k ∈ ks → k ∈ bins ks.
Proof.
  destruct ks as [|k0 rest]; [by intros ?%elem_of_nil|].
  intros Hk. unfold bins. cbv zeta.
  destruct (fold_min_le rest k0) as [L0 L], (fold_max_ge rest k0) as [U0 U].
  apply elem_of_seqZ.
  assert (Hlo : fold_left Z.min rest k0 <= k ∧ k <= fold_left Z.max rest k0).
  { apply elem_of_cons in Hk as [->|Hk]; [done|]. split.
    - by apply (proj1 (Forall_forall _ _) L k).
    - by apply (proj1 (Forall_forall _ _) U k). }
  revert Hlo. generalize (fold_left Z.min rest k0), (fold_left Z.max rest k0). lia.
Qed.

Lemma bins_NoDup ks : NoDup (bins ks).
Proof. destruct ks; [constructor|]. apply NoDup_seqZ. Qed.

Lemma sum_zeros {A} (l : list A) : foldr Z.add 0 (map (fun _ => 0) l) = 0.
Proof. induction l; simpl; lia. Qed.

Lemma sum_add {A} (f g : A → Z) l :
  foldr Z.add 0 (map (fun x => f x + g x) l)
  = foldr Z.add 0 (map f l) + foldr Z.add 0 (map g l).
Proof. induction l; simpl; lia. Qed.

Lemma sum_one_bucket (bs : list Z) k v :
  NoDup bs → k ∈ bs →
  foldr Z.add 0 (map (fun b => if decide (k = b) then v else 0) bs) = v.
Proof.
  induction 1 as [|b bs Hb Hnd IH]; [by intros ?%elem_of_nil|].
  intros Hk. simpl. destruct (decide (k = b)) as [->|Hne].
  - assert (E : map (fun b0 => if decide (b = b0) then v else 0) bs
                = map (fun _ => 0) bs).
    { apply map_ext_in. intros b0 Hb0. destruct (decide (b = b0)) as [->|]; [|done].
      apply list_elem_of_In in Hb0. done. }
    rewrite E, sum_zeros. lia.
  - apply elem_of_cons in Hk as [?|Hk]; [done|]. rewrite IH by done. lia.
Qed.

(** Summing per bucket and then over the buckets is summing over the
    rows. *)
Lemma sum_by_bucket (f vol : quote → Z) bs rows :
  NoDup bs → Forall (fun r => f r ∈ bs) rows →
  foldr Z.add 0
    (map (fun b => foldr Z.add 0 (map vol (filter (fun r => f r = b) rows))) bs)
  = foldr Z.add 0 (map vol rows).
Proof.
  intros Hnd. induction 1 as [|r rows Hr Hrows IH].
  - simpl. apply (sum_zeros bs).
  - cbn [map foldr]. rewrite <- IH, <- (sum_one_bucket bs (f r) (vol r)) at 1 by done.
    rewrite <- sum_add. f_equal. apply map_ext. intros b.
    rewrite filter_cons. destruct (decide (f r = b)); simpl; lia.
Qed.

Lemma sum_filter_le (vol : quote → Z) (P : quote → Prop) `{∀ r, Decision (P r)} rows :
  Forall (fun r => 0 <= vol r) rows →
  0 <= foldr Z.add 0 (map vol (filter P rows)) <= foldr Z.add 0 (map vol rows).
Proof.
  induction 1 as [|r rows Hr Hrows IH]; [simpl; lia|].
  rewrite filter_cons. destruct (decide (P r)); simpl; lia.
Qed.

Section Rounded.
Variable rnd : Q → fval.

(** X10: resampling by week or by month conserves the volume. When
    every volume is a whole number that is not negative and their total
    stays within the whole numbers that the rounding leaves alone (for
    a double, up to 2^53), the column [volume] of the result holds whole
    numbers whose total is the total of the daily volumes: every day is
    counted in exactly one bucket. *)
Theorem resample_conserves_volume
    (B : Z) (rows : list quote) (interval : Interval) (vol : quote → Z) :
  (∀ q z, (q == inject_Z z)%Q → 0 <= z <= B → ∃ r, rnd q = FFin r ∧ (r == q)%Q) →
  interval = WEEKLY ∨ interval = MONTHLY →
  Forall (fun r => q_volume r = of_Z (vol r) ∧ 0 <= vol r) rows →
  foldr Z.add 0 (map vol rows) <= B →
  ∃ out volumes totals,
    resampleDataFrame rnd (DataFrame rows) interval = Some out
    ∧ floats out "volume" = Some volumes
    ∧ Forall2 (fun x z => ∃ r, x = FFin r ∧ (r == inject_Z z)%Q) volumes totals
    ∧ foldr Z.add 0 totals = foldr Z.add 0 (map vol rows).
Proof.
  intros Hexact Hiv Hvol Hsum.
  set (f := fun r => bucket interval (q_date r)).
  set (ks := buckets interval rows).
  eexists _, _,
    (map (fun k => foldr Z.add 0 (map vol (bucket_rows interval k rows))) (bins ks)).
  split; [by apply resampleDataFrame_quotes|].
  split; [reflexivity|].
  assert (Hpos : Forall (fun r => 0 <= vol r) rows).
  { eapply Forall_impl; [exact Hvol|]. by intros r [_ ?]. }
  split.
  - apply Forall2_fmap, Forall_Forall2_diag, Forall_forall. intros k _.
    unfold buckets. rewrite (map_map q_date (bucket interval)).
    rewrite (select_map_rows q_volume f).
    change (filter (fun r => f r = k) rows) with (bucket_rows interval k rows).
    assert (Hin : Forall (fun r => q_volume r = of_Z (vol r) ∧ 0 <= vol r)
                    (bucket_rows interval k rows)).
    { apply Forall_forall. intros r Hr. apply list_elem_of_filter in Hr as [_ Hr].
      by apply (proj1 (Forall_forall _ _) Hvol). }
    assert (E : map q_volume (bucket_rows interval k rows)
                = map of_Z (map vol (bucket_rows interval k rows))).
    { rewrite map_map. apply map_ext_Forall.
      eapply Forall_impl; [exact Hin|]. by intros r [? _]. }
    unfold agg_sum. rewrite E, valid_all.
    + apply (fsum_integers rnd B); [done| |].
      * apply Forall_map. eapply Forall_impl; [exact Hin|]. by intros r [_ ?].
      * pose proof (sum_filter_le vol (fun r => f r = k) rows Hpos) as [_ Hle].
        etrans; [exact Hle|exact Hsum].
    + apply Forall_map, Forall_forall. by intros z _.
  - apply (sum_by_bucket f vol); [apply bins_NoDup|].
    apply Forall_forall. intros r Hr. apply bins_cover.
    unfold ks, buckets. rewrite (map_map q_date (bucket interval)).
    by apply (list_elem_of_fmap_2 f).
Qed.

End Rounded.

Lemma resample_conserves_volume_witness :
  ∃ out volumes totals,
    resampleDataFrame rnd_exact (DataFrame history) WEEKLY = Some out
    ∧ floats out "volume" = Some volumes
    ∧ Forall2 (fun x z => ∃ r, x = FFin r ∧ (r == inject_Z z)%Q) volumes totals
    ∧ foldr Z.add 0 totals = foldr Z.add 0 (map (fun _ => 100) history).
Proof.
  apply (resample_conserves_volume rnd_exact 9007199254740992 history WEEKLY (fun _ => 100)).
  - intros q z Hq _. exists (Qred q). split; [done|]. apply Qred_correct.
  - by left.
  - unfold history. repeat (constructor; [by split|]). constructor.
  - by vm_compute.
Defined.

(** ** Writes *)

(** X11: both pipelines write all or nothing. When
    [calculateMultiprocessing] returns [False], and when [calculate]
    raises or returns [False], the database is as it was. *)
Theorem pipelines_write_all_or_nothing
    (rnd : Q → fval) (globals : string → option indicator_fn)
    (config : list entry) (id : Z) (db : Database) :
  (fst (fst (calculateMultiprocessing rnd globals id config db)) = false →
   snd (fst (calculateMultiprocessing rnd globals id config db)) = db)
  ∧ (fst (fst (calculate rnd globals config id db)) ≠ Returns true →
     snd (fst (calculate rnd globals config id db)) = db).
Proof.
  split.
  - unfold calculateMultiprocessing. repeat (case_match; simpl; try done).
  - unfold calculate. repeat (case_match; simpl; try done).
Qed.

(** A row as the database sees it reads like the dictionary it came
    from. *)
Lemma dict_get_list_to_map (row : pydict) names c :
  mapM key_name (dict_keys row) = Some names →
  (list_to_map (zip names (map snd row)) : gmap string pyval) !! c
  = dict_get row (KStr c).
Proof.
  revert names. induction row as [|[k v] row IH]; intros names; simpl.
  - by intros [= <-].
  - destruct k as [| | |n]; try done. simpl.
    destruct (mapM key_name (dict_keys row)) as [ns|] eqn:E; simpl; [|done].
    intros [= <-]. simpl.
    destruct (String.eqb_spec n c) as [->|Hne].
    + by rewrite lookup_insert_eq.
    + rewrite lookup_insert_ne by done. by apply IH.
Qed.

Lemma names_of_row (row : pydict) names c :
  mapM key_name (dict_keys row) = Some names →
  is_Some ((list_to_map (zip names (map snd row)) : gmap string pyval) !! c) →
  c ∈ names.
Proof.
  intros Hn [v Hv]. apply elem_of_list_to_map_2 in Hv.
  apply elem_of_zip_l in Hv. done.
Qed.

Lemma one_of_elem c l : one_of c l = true → c ∈ l.
Proof.
  unfold one_of. intros H. apply existsb_exists in H as (x & Hx & E).
  apply String.eqb_eq in E. subst x. by apply list_elem_of_In.
Qed.

(** What a successful [upsert] does. *)
Lemma upsert_Some db row db' :
  upsert db row = Some db' →
  ∃ s d written,
    dict_get row (KStr "security") = Some (PInt s)
    ∧ dict_get row (KStr "date") = Some (PInt d)
    ∧ db' = set_indicators db
              (<[(s, d) := written ∪ default ∅ (indicators db !! (s, d))]> (indicators db))
    ∧ (∀ c, written !! c = dict_get row (KStr c))
    ∧ (∀ c, is_Some (written !! c) → c ∈ indicators_columns db).
Proof.
  unfold upsert.
  destruct (mapM key_name (dict_keys row)) as [names|] eqn:En; [|done].
  cbn [mbind option_bind].
  destruct (forallb _ names) eqn:Ecols; [|done].
  destruct (dict_get row (KStr "security")) as [[| |s| | | | | |]|]; try done.
  destruct (dict_get row (KStr "date")) as [[| |d| | | | | |]|]; try done.
  intros [= <-]. eexists s, d, _. repeat split.
  - intros c. by apply dict_get_list_to_map.
  - intros c Hc. apply (names_of_row _ _ _ En) in Hc.
    apply one_of_elem. apply (proj1 (forallb_forall _ _) Ecols). by apply list_elem_of_In.
Qed.

(** What a run of the worker that returns [True] on ten or more quotes
    went through. *)
Lemma worker_true_run
    (rnd : Q → fval) (globals : string → option indicator_fn)
    (id : Z) (config : list entry) (db db' : Database) (log : list record) :
  calculateMultiprocessing rnd globals id config db = (true, db', log) →
  (10 <= length (quotes db id))%nat →
  ∃ dfWeekly dfMonthly dfs log0 log1 d written,
    calculateMultiprocessing_loop globals config
      [DataFrame (quotes db id); dfWeekly; dfMonthly] log0 = (Completed dfs, log1)
    ∧ latest_date dfs = Some d
    ∧ db' = set_indicators db
              (<[(id, d) := written ∪ default ∅ (indicators db !! (id, d))]> (indicators db))
    ∧ written !! "security" = Some (PInt id)
    ∧ written !! "date" = Some (PInt d)
    ∧ (∀ c, is_Some (written !! c) → c ∈ indicators_columns db).
Proof.
  intros Hrun Hlen. unfold calculateMultiprocessing in Hrun.
  destruct (connects db); [|done]. cbn [negb] in Hrun. cbv iota in Hrun.
  rewrite len_DataFrame in Hrun.
  assert (Hl : (length (quotes db id) <? 10)%nat = false) by (apply Nat.ltb_ge; lia).
  rewrite Hl in Hrun.
  destruct (resampleDataFrame rnd _ WEEKLY) as [dfw|]; [|done].
  destruct (resampleDataFrame rnd _ MONTHLY) as [dfm|]; [|done].
  destruct (calculateMultiprocessing_loop _ _ _ _) as [[dfs| |] log1] eqn:Eloop; try done.
  destruct (latest_date dfs) as [date|] eqn:Edate; [|done].
  destruct (merge_rows dfs []) as [data|]; [|done].
  destruct (upsert db _) as [db1|] eqn:Eu; [|done].
  injection Hrun as <- _.
  apply upsert_Some in Eu as (s & d & written & Hs & Hd & -> & Hw & Hcols).
  rewrite !dict_get_set in Hs, Hd. cbn in Hs, Hd.
  injection Hs as <-. injection Hd as <-.
  eexists dfw, dfm, dfs, _, log1, date, written.
  split; [exact Eloop|]. split; [done|]. split; [done|].
  rewrite !Hw, !dict_get_set. by cbn.
Qed.

(** ** The merged row *)

Lemma key_eqb_KStr_r k c : key_eqb k (KStr c) = true → k = KStr c.
Proof. destruct k as [| | |s]; try done. simpl. by intros ->%String.eqb_eq. Qed.

Lemma key_eqb_KStr_l k c : key_eqb (KStr c) k = true → k = KStr c.
Proof. destruct k as [| | |s]; try done. simpl. by intros ->%String.eqb_eq. Qed.

Lemma dict_get_elem d k v :
  dict_get d k = Some v → ∃ k0, key_eqb k0 k = true ∧ (k0, v) ∈ d.
Proof.
  induction d as [|[k' v'] d IH]; [done|]. cbn [dict_get].
  destruct (key_eqb k' k) eqn:E.
  - intros [= <-]. exists k'. split; [done|]. by left.
  - intros H. destruct (IH H) as (k0 & Hk0 & Hin). exists k0. split; [done|]. by right.
Qed.

(** What a dictionary holds after a list of items was stored in it. *)
Lemma stored_sound items acc k v :
  dict_get (fold_left (fun d kv => dict_set d (fst kv) (snd kv)) items acc) k = Some v →
  dict_get acc k = Some v ∨ ∃ k0, key_eqb k0 k = true ∧ (k0, v) ∈ items.
Proof.
  revert acc. induction items as [|[k1 v1] items IH]; intros acc; [by left|].
  cbn [fold_left fst snd]. intros H. destruct (IH _ H) as [H1|(k0 & Hk0 & Hin)].
  - rewrite dict_get_set in H1. destruct (key_eqb k1 k) eqn:E.
    + injection H1 as <-. right. exists k1. split; [done|]. by left.
    + by left.
  - right. exists k0. split; [done|]. by right.
Qed.

Lemma stored_complete items acc k :
  is_Some (dict_get acc k) ∨ (∃ k0 v, key_eqb k0 k = true ∧ (k0, v) ∈ items) →
  is_Some (dict_get (fold_left (fun d kv => dict_set d (fst kv) (snd kv)) items acc) k).
Proof.
  revert acc. induction items as [|[k1 v1] items IH]; intros acc.
  - intros [H|(k0 & v & _ & Hin)]; [done|]. by apply elem_of_nil in Hin.
  - cbn [fold_left fst snd]. intros H. apply IH.
    destruct H as [H|(k0 & v & Hk0 & Hin)].
    + left. rewrite dict_get_set. by destruct (key_eqb k1 k).
    + apply elem_of_cons in Hin as [[= <- <-]|Hin].
      * left. rewrite dict_get_set, Hk0. by eexists.
      * right. by exists k0, v.
Qed.

Lemma lookup_col_elem cols c col : lookup_col cols c = Some col → (c, col) ∈ cols.
Proof.
  induction cols as [|[k0 c0] cols IH]; [done|]. cbn [lookup_col].
  destruct (String.eqb_spec k0 c) as [->|_].
  - intros [= <-]. by left.
  - intros H. right. by apply IH.
Qed.

Lemma remove_col_subset cols k kc : kc ∈ remove_col cols k → kc ∈ cols.
Proof.
  induction cols as [|[k0 c0] cols IH]; [done|]. cbn [remove_col].
  destruct (String.eqb k0 k); [by right|].
  intros [->|H]%elem_of_cons; [by left|]. right. by apply IH.
Qed.

(** Dropping columns keeps the rows, adds no column, and leaves the
    columns of every other name alone. *)
Lemma drop_columns_keeps df ks df' :
  drop_columns df ks = Some df' →
  index df' = index df
  ∧ (∀ kc, kc ∈ columns df' → kc ∈ columns df)
  ∧ (∀ c, c ∉ ks → get_col df' c = get_col df c).
Proof.
  revert df. induction ks as [|k ks IH]; intros df.
  - by intros [= <-].
  - cbn [drop_columns]. unfold del_col at 1.
    destruct (get_col df k) as [c0|]; [|done]. cbn [mbind option_bind].
    intros H. destruct (IH _ H) as (Hi & Hsub & Hget). cbn [index columns] in *.
    split; [done|]. split.
    + intros kc Hkc. by eapply remove_col_subset, Hsub.
    + intros c Hc. apply not_elem_of_cons in Hc as [Hne Hc].
      rewrite (Hget c Hc).
      apply (RSIFacts.get_col_without_ne df k c). congruence.
Qed.

(** The last row of a frame as a dictionary: every value is the cell of
    a column at the last position, and every column has a value. *)
Lemma last_row_cells df row :
  last_row df = Some row →
  (∀ k v, (∃ k0, key_eqb k0 k = true ∧ (k0, v) ∈ row) →
     ∃ c col, k = KStr c ∧ (c, col) ∈ columns df ∧ cell col (len df - 1) = Some v)
  ∧ (∀ c, is_Some (get_col df c) → is_Some (dict_get row (KStr c))).
Proof.
  unfold last_row. destruct (len df) as [|i] eqn:El; [done|].
  destruct (mapM _ (columns df)) as [items|] eqn:Ei; [|done]. cbn [fmap option_fmap option_map].
  intros [= <-]. apply mapM_Some in Ei.
  assert (Hi : (S i - 1)%nat = i) by lia. rewrite Hi.
  assert (Hitems : ∀ k v, (k, v) ∈ items →
            ∃ c col, k = KStr c ∧ (c, col) ∈ columns df ∧ cell col i = Some v).
  { intros k v Hin. apply list_elem_of_lookup_1 in Hin as [n Hn].
    destruct (Forall2_lookup_r _ _ _ _ _ Ei Hn) as ([c col] & Hc & Hcell).
    cbn [fst snd] in Hcell. destruct (cell col i) as [v'|] eqn:Ecell; [|done].
    cbn [mbind option_bind] in Hcell. injection Hcell as <- <-.
    exists c, col. split; [done|]. split; [by eapply list_elem_of_lookup_2|done]. }
  split.
  - intros k v (k0 & Hk0 & Hin).
    assert (Hmem : ∀ its acc a w,
              (a, w) ∈ fold_left (fun d kv => dict_set d (fst kv) (snd kv)) its acc →
              (∃ a', key_eqb a a' = true ∧ (a', w) ∈ acc)
              ∨ ∃ a', key_eqb a a' = true ∧ (a', w) ∈ its).
    { clear. induction its as [|[k1 v1] its IH]; intros acc a w H.
      - left. exists a. split; [apply key_eqb_refl|done].
      - cbn [fold_left fst snd] in H. destruct (IH _ _ _ H) as [(a' & Ha & Hin)|(a' & Ha & Hin)].
        + assert (Hset : ∀ d, (a', w) ∈ dict_set d k1 v1 →
                    (a', w) ∈ d ∨ (w = v1 ∧ key_eqb a' k1 = true)).
          { clear. induction d as [|[k' v'] d IHd]; cbn [dict_set].
            - intros [= -> ->]%list_elem_of_singleton. right. split; [done|apply key_eqb_refl].
            - destruct (key_eqb k' k1) eqn:E.
              + intros [[= -> ->]|Hd]%elem_of_cons; [by right|]. left. by right.
              + intros [[= -> ->]|Hd]%elem_of_cons; [left; by left|].
                destruct (IHd Hd) as [?|?]; [left; by right|by right]. }
          destruct (Hset _ Hin) as [Hacc|[-> Hk]].
          * left. by exists a'.
          * right. exists k1. split; [|by left].
            apply key_eqb_canon. apply key_eqb_canon in Ha, Hk. congruence.
        + right. exists a'. split; [done|]. by right. }
    destruct (Hmem _ _ _ _ Hin) as [(a' & _ & Ha)|(a' & Ha & Hin')];
      [by apply elem_of_nil in Ha|].
    destruct (Hitems _ _ Hin') as (c & col & -> & Hcol & Hcell).
    apply key_eqb_KStr_r in Ha. subst k0. apply key_eqb_KStr_l in Hk0. subst k.
    by exists c, col.
  - intros c [col Hcol]. apply lookup_col_elem in Hcol.
    apply stored_complete. right.
    apply list_elem_of_lookup_1 in Hcol as [n Hn].
    destruct (Forall2_lookup_l _ _ _ _ _ Ei Hn) as ([k v] & Hkv & Hcell).
    cbn [fst snd] in Hcell. destruct (cell col i) as [v'|] eqn:Ecell; [|done].
    cbn [mbind option_bind] in Hcell. injection Hcell as <- <-.
    exists (KStr c), v'. split; [apply key_eqb_refl|by eapply list_elem_of_lookup_2].
Qed.

Lemma replace_nan_props df :
  len (replace_nan df) = len df
  ∧ (∀ c col, (c, col) ∈ columns (replace_nan df) →
       ∃ col0, col = nan_to_none col0 ∧ (c, col0) ∈ columns df)
  ∧ (∀ c, is_Some (get_col df c) → is_Some (get_col (replace_nan df) c)).
Proof.
  split; [done|]. split.
  - intros c col Hin. unfold replace_nan in Hin. cbn [columns] in Hin.
    apply list_elem_of_fmap in Hin as ([c0 col0] & [= -> ->] & Hin).
    by exists col0.
  - intros c. unfold get_col, replace_nan. cbn [columns].
    induction (columns df) as [|[k0 c0] cols IH]; [done|]. cbn [map lookup_col fst snd].
    destruct (String.eqb k0 c); [by eexists|done].
Qed.

(** The dictionary that the loop over the frames leaves: every value is
    one that was there before or the cell of a column at the last
    position of a frame, NaN turned into [None]; every column that is
    none of the eleven of the quotes has a value. *)
Lemma merge_rows_cells dfs data0 data :
  merge_rows dfs data0 = Some data →
  (∀ k v, dict_get data k = Some v →
     dict_get data0 k = Some v
     ∨ ∃ c df col, k = KStr c ∧ df ∈ dfs ∧ (c, col) ∈ columns df
                   ∧ cell (nan_to_none col) (len df - 1) = Some v)
  ∧ (∀ k, is_Some (dict_get data0 k) → is_Some (dict_get data k))
  ∧ (∀ df c, df ∈ dfs → is_Some (get_col df c) → c ∉ ohlcv →
       is_Some (dict_get data (KStr c))).
Proof.
  revert data0. induction dfs as [|df dfs IH]; intros data0.
  - intros [= <-]. split; [by left|]. split; [done|].
    intros df c Hin. by apply elem_of_nil in Hin.
  - cbn [merge_rows].
    destruct (drop_columns df ohlcv) as [df1|] eqn:Ed; [|done]. cbn [mbind option_bind].
    destruct (last_row (replace_nan df1)) as [row|] eqn:Er; [|done]. cbn [mbind option_bind].
    intros Hm. destruct (IH _ Hm) as (Hs & Hk & Hc).
    destruct (drop_columns_keeps _ _ _ Ed) as (Hidx & Hsub & Hget).
    destruct (replace_nan_props df1) as (Hlen & Hcols & Hhas).
    destruct (last_row_cells _ _ Er) as (Hrow & Hall).
    assert (Hl : len df1 = len df) by (unfold len; by rewrite Hidx).
    split; [|split].
    + intros k v Hv. destruct (Hs k v Hv) as [H0|(c & df' & col & -> & Hin & Hcol & Hcell)].
      * unfold update in H0. apply stored_sound in H0 as [H0|Hitem]; [by left|].
        right. destruct (Hrow _ _ Hitem) as (c & col & -> & Hcol & Hcell).
        destruct (Hcols _ _ Hcol) as (col0 & -> & Hcol0).
        exists c, df, col0. split; [done|]. split; [by left|].
        split; [by apply Hsub|]. by rewrite <- Hl, <- Hlen.
      * right. exists c, df', col. split; [done|]. split; [by right|]. done.
    + intros k Hk0. apply Hk. unfold update. apply stored_complete. by left.
    + intros df' c [->|Hin]%elem_of_cons Hcol Hc'.
      * apply Hk. unfold update. apply stored_complete. right.
        assert (Hrowc : is_Some (dict_get row (KStr c))).
        { apply Hall, Hhas. by rewrite Hget. }
        destruct Hrowc as [v Hv]. apply dict_get_elem in Hv as (k0 & Hk0 & Hin).
        by exists k0, v.
      * by apply (Hc df' c).
Qed.

(** What a run of the worker that returns [True] on ten or more quotes
    wrote, by the frames that the loop over the configuration left. *)
Lemma worker_true_row
    (rnd : Q → fval) (globals : string → option indicator_fn)
    (id : Z) (config : list entry) (db db' : Database) (log : list record) :
  calculateMultiprocessing rnd globals id config db = (true, db', log) →
  (10 <= length (quotes db id))%nat →
  ∃ dfWeekly dfMonthly dfs log0 log1 d data written,
    resampleDataFrame rnd (DataFrame (quotes db id)) WEEKLY = Some dfWeekly
    ∧ resampleDataFrame rnd (DataFrame (quotes db id)) MONTHLY = Some dfMonthly
    ∧ calculateMultiprocessing_loop globals config
        [DataFrame (quotes db id); dfWeekly; dfMonthly] log0 = (Completed dfs, log1)
    ∧ latest_date dfs = Some d
    ∧ merge_rows dfs [] = Some data
    ∧ db' = set_indicators db
              (<[(id, d) := written ∪ default ∅ (indicators db !! (id, d))]> (indicators db))
    ∧ (∀ c, written !! c
            = dict_get (dict_set (dict_set data (KStr "security") (PInt id))
                          (KStr "date") (PInt d)) (KStr c))
    ∧ (∀ c, is_Some (written !! c) → c ∈ indicators_columns db).
Proof.
  intros Hrun Hlen. unfold calculateMultiprocessing in Hrun.
  destruct (connects db); [|done]. cbn [negb] in Hrun. cbv iota in Hrun.
  rewrite len_DataFrame in Hrun.
  assert (Hl : (length (quotes db id) <? 10)%nat = false) by (apply Nat.ltb_ge; lia).
  rewrite Hl in Hrun.
  destruct (resampleDataFrame rnd _ WEEKLY) as [dfw|]; [|done].
  destruct (resampleDataFrame rnd _ MONTHLY) as [dfm|]; [|done].
  destruct (calculateMultiprocessing_loop _ _ _ _) as [[dfs| |] log1] eqn:Eloop; try done.
  destruct (latest_date dfs) as [date|] eqn:Edate; [|done].
  destruct (merge_rows dfs []) as [data|] eqn:Em; [|done].
  destruct (upsert db _) as [db1|] eqn:Eu; [|done].
  injection Hrun as <- _.
  apply upsert_Some in Eu as (s & d & written & Hs & Hd & -> & Hw & Hcols).
  rewrite !dict_get_set in Hs, Hd. cbn in Hs, Hd.
  injection Hs as <-. injection Hd as <-.
  eexists dfw, dfm, dfs, _, log1, date, data, written.
  repeat split; try done.
Qed.

(** X12: when the worker returns [True] for a security with ten or
    more quotes, the database differs from the old one in one row of
    [indicators] only. The row is the one of the worker's own security
    and of the date [d] in the last row of the daily frame, as the loop
    over the configuration left the frames. It holds the security, the
    date and the computed columns, over what the row held before: every
    other value that it holds is the cell in the last row of a column of
    one of the three frames, NaN turned into [None]; every column of the
    three frames that is none of the eleven columns of the quotes has
    its value in the row; and every column written is a column of the
    table. *)
Theorem worker_writes_one_row
    (rnd : Q → fval) (globals : string → option indicator_fn)
    (id : Z) (config : list entry) (db db' : Database) (log : list record) :
  calculateMultiprocessing rnd globals id config db = (true, db', log) →
  (10 <= length (quotes db id))%nat →
  ∃ dfWeekly dfMonthly dfs log0 log1 daily ds d written,
    resampleDataFrame rnd (DataFrame (quotes db id)) WEEKLY = Some dfWeekly
    ∧ resampleDataFrame rnd (DataFrame (quotes db id)) MONTHLY = Some dfMonthly
    ∧ calculateMultiprocessing_loop globals config
        [DataFrame (quotes db id); dfWeekly; dfMonthly] log0 = (Completed dfs, log1)
    ∧ dfs !! 0%nat = Some daily
    ∧ get_col daily "date" = Some (ColDate ds)
    ∧ last ds = Some (Some d)
    ∧ db' = set_indicators db
              (<[(id, d) := written ∪ default ∅ (indicators db !! (id, d))]> (indicators db))
    ∧ written !! "security" = Some (PInt id)
    ∧ written !! "date" = Some (PInt d)
    ∧ (∀ c, is_Some (written !! c) → c ∈ indicators_columns db)
    ∧ (∀ c v, written !! c = Some v → c ≠ "security" → c ≠ "date" →
         ∃ df col, df ∈ dfs ∧ (c, col) ∈ columns df
                   ∧ cell (nan_to_none col) (len df - 1) = Some v)
    ∧ (∀ df c, df ∈ dfs → is_Some (get_col df c) → c ∉ ohlcv →
         is_Some (written !! c)).
Proof.
  intros Hrun Hlen.
  destruct (worker_true_row rnd globals id config db db' log Hrun Hlen)
    as (dfw & dfm & dfs & log0 & log1 & d & data & written
        & Hw & Hm & Hloop & Hdate & Hmerge & Hdb & Hwritten & Hcols).
  destruct (merge_rows_cells _ _ _ Hmerge) as (Hsound & _ & Hcomplete).
  unfold latest_date in Hdate.
  destruct (dfs !! 0%nat) as [daily|] eqn:Edaily; [|done]. cbn [mbind option_bind] in Hdate.
  destruct (get_col daily "date") as [[| |ds|]|] eqn:Ecol; try done.
  assert (Hlast : last ds = Some (Some d)).
  { clear -Hdate. induction ds as [|x [|y ds] IH]; [done| |].
    - cbn in Hdate. by subst x.
    - apply IH. exact Hdate. }
  exists dfw, dfm, dfs, log0, log1, daily, ds, d, written.
  repeat (split; [done|]).
  split; [by rewrite Hwritten, dict_get_set, dict_get_set|].
  split; [by rewrite Hwritten, dict_get_set|].
  split; [exact Hcols|]. split.
  - intros c v Hv Hs Hd. rewrite Hwritten, !dict_get_set in Hv.
    cbn [key_eqb] in Hv.
    destruct (String.eqb_spec "date" c) as [<-|_]; [done|].
    destruct (String.eqb_spec "security" c) as [<-|_]; [done|].
    destruct (Hsound _ _ Hv) as [H0|(c' & df & col & [= <-] & Hin & Hcol & Hcell)]; [done|].
    by exists df, col.
  - intros df c Hin Hcol Hc. rewrite Hwritten, !dict_get_set. cbn [key_eqb].
    destruct (String.eqb "date" c); [by eexists|].
    destruct (String.eqb "security" c); [by eexists|].
    by apply (Hcomplete df c).
Qed.

Lemma worker_writes_one_row_witness :
  ∃ dfWeekly dfMonthly dfs log0 log1 daily ds d written,
    resampleDataFrame rnd_exact (DataFrame history) WEEKLY = Some dfWeekly
    ∧ resampleDataFrame rnd_exact (DataFrame history) MONTHLY = Some dfMonthly
    ∧ calculateMultiprocessing_loop (builtin rnd_exact) (drop 1 bad_then_good)
        [DataFrame history; dfWeekly; dfMonthly] log0 = (Completed dfs, log1)
    ∧ dfs !! 0%nat = Some daily
    ∧ get_col daily "date" = Some (ColDate ds)
    ∧ last ds = Some (Some d)
    ∧ snd (fst (calculateMultiprocessing rnd_exact (builtin rnd_exact) 7
                  (drop 1 bad_then_good) (db_of history)))
      = set_indicators (db_of history)
          (<[(7, d) := written ∪ default ∅ (indicators (db_of history) !! (7, d))]>
             (indicators (db_of history)))
    ∧ written !! "security" = Some (PInt 7)
    ∧ written !! "date" = Some (PInt d)
    ∧ (∀ c, is_Some (written !! c) → c ∈ indicators_columns (db_of history))
    ∧ (∀ c v, written !! c = Some v → c ≠ "security" → c ≠ "date" →
         ∃ df col, df ∈ dfs ∧ (c, col) ∈ columns df
                   ∧ cell (nan_to_none col) (len df - 1) = Some v)
    ∧ (∀ df c, df ∈ dfs → is_Some (get_col df c) → c ∉ ohlcv →
         is_Some (written !! c)).
Proof.
  apply (worker_writes_one_row rnd_exact (builtin rnd_exact) 7 (drop 1 bad_then_good)
           (db_of history) _
           (snd (calculateMultiprocessing rnd_exact (builtin rnd_exact) 7
                   (drop 1 bad_then_good) (db_of history)))).
  - by vm_compute.
  - simpl. lia.
Defined.

(** ** Unknown names *)

Lemma run_entry_unknown globals dfs obj :
  intervalFromStr (interval obj) = None ∨ globals (indicator obj) = None →
  run_entry globals dfs obj = StepRaised.
Proof.
  unfold run_entry. intros [->|H]; [done|]. rewrite H. by repeat case_match.
Qed.

Lemma calculate_loop_unknown globals config obj dfs log :
  obj ∈ config →
  intervalFromStr (interval obj) = None ∨ globals (indicator obj) = None →
  fst (calculate_loop globals config dfs log) = LoopRaised.
Proof.
  intros Hin Hobj. revert dfs log.
  induction config as [|o config IH]; intros dfs log; [by apply elem_of_nil in Hin|].
  cbn [calculate_loop].
  apply elem_of_cons in Hin as [<-|Hin].
  - by rewrite (run_entry_unknown _ _ _ Hobj).
  - destruct (run_entry globals dfs o); [by apply IH..|done].
Qed.

Lemma calculateMultiprocessing_loop_unknown globals config obj dfs log :
  obj ∈ config →
  intervalFromStr (interval obj) = None ∨ globals (indicator obj) = None →
  fst (calculateMultiprocessing_loop globals config dfs log) = ReturnedFalse
  ∨ fst (calculateMultiprocessing_loop globals config dfs log) = LoopRaised.
Proof.
  intros Hin Hobj. revert dfs log.
  induction config as [|o config IH]; intros dfs log; [by apply elem_of_nil in Hin|].
  cbn [calculateMultiprocessing_loop].
  apply elem_of_cons in Hin as [<-|Hin].
  - rewrite (run_entry_unknown _ _ _ Hobj). by right.
  - destruct (run_entry globals dfs o); [by apply IH|by left|by right].
Qed.

(** X13: an entry of the configuration that names an unknown
    interval or an indicator that does not exist fails the whole run,
    wherever it stands and whatever the other entries are: the worker
    returns [False], [calculate] raises, and nothing is written. *)
Theorem unknown_name_fails_the_run
    (rnd : Q → fval) (globals : string → option indicator_fn)
    (config : list entry) (obj : entry) (id : Z) (db : Database) :
  obj ∈ config →
  intervalFromStr (interval obj) = None ∨ globals (indicator obj) = None →
  (10 <= length (quotes db id))%nat →
  fst (calculateMultiprocessing rnd globals id config db) = (false, db)
  ∧ fst (calculate rnd globals config id db) = (Raises, db).
Proof.
  intros Hin Hobj Hlen.
  assert (Hl : (length (quotes db id) <? 10)%nat = false) by (apply Nat.ltb_ge; lia).
  unfold calculateMultiprocessing, calculate.
  destruct (connects db); [|done]. cbn [negb]. cbv iota.
  rewrite len_DataFrame, Hl.
  destruct (resampleDataFrame rnd _ WEEKLY) as [dfw|]; [|done].
  destruct (resampleDataFrame rnd _ MONTHLY) as [dfm|]; [|done].
  split.
  - match goal with |- context [calculateMultiprocessing_loop ?g ?c ?d ?l] =>
      destruct (calculateMultiprocessing_loop_unknown g c obj d l Hin Hobj) as [H|H];
      destruct (calculateMultiprocessing_loop g c d l) as [e l1]
    end; simpl in H; by subst e.
  - match goal with |- context [calculate_loop ?g ?c ?d ?l] =>
      pose proof (calculate_loop_unknown g c obj d l Hin Hobj) as H;
      destruct (calculate_loop g c d l) as [e l1]
    end; simpl in H; by subst e.
Qed.

Lemma unknown_name_fails_the_run_witness :
  fst (calculateMultiprocessing rnd_exact (builtin rnd_exact) 7
         (bad_then_good ++ [ {| interval := "daily"; indicator := "MACD";
                                parameters := []; mapping := [] |} ])
         (db_of history))
  = (false, db_of history)
  ∧ fst (calculate rnd_exact (builtin rnd_exact)
           (bad_then_good ++ [ {| interval := "daily"; indicator := "MACD";
                                  parameters := []; mapping := [] |} ])
           7 (db_of history))
    = (Raises, db_of history).
Proof.
  apply (unknown_name_fails_the_run rnd_exact (builtin rnd_exact) _
           {| interval := "daily"; indicator := "MACD"; parameters := []; mapping := [] |}).
  - apply list_elem_of_In, in_app_iff. right. by left.
  - by right.
  - simpl. lia.
Defined.

End PipelineFacts.
(* ===================================================================== *)
(** * Indicators: the contract and the extremes of RSI                    *)
(* ===================================================================== *)

Module SignalsFacts.
Import Py Logging Float Frame Indicators Factory PyFacts Spec Examples FactoryFacts
       RSIFacts Signals.

(** ** The contract of an indicator function *)

Lemma index_set_col df k c : index (set_col df k c) = index df.
Proof. done. Qed.

Lemma set_all_none_props df ks :
  index (set_all_none df ks) = index df
  ∧ (∀ k, k ∈ ks → is_Some (get_col (set_all_none df ks) k))
  ∧ (∀ k, k ∉ ks → get_col (set_all_none df ks) k = get_col df k).
Proof.
  unfold set_all_none. revert df. induction ks as [|k0 ks IH]; intros df.
  - split; [done|]. split; [by intros k ?%elem_of_nil|done].
  - cbn [fold_left]. destruct (IH (set_none df k0)) as (Hi & Hin & Hout).
    split; [by rewrite Hi|]. split.
    + intros k Hk. destruct (decide (k ∈ ks)) as [Hks|Hks]; [by apply Hin|].
      apply elem_of_cons in Hk as [->|Hk]; [|done].
      rewrite Hout by done. unfold set_none. rewrite get_set_col. by eexists.
    + intros k Hk. apply not_elem_of_cons in Hk as [Hne Hk].
      rewrite Hout by done. unfold set_none. by rewrite get_set_col_ne.
Qed.

(** The contract for a function that adds one column. *)
Ltac one_column :=
  cbn [mutated returned keys same_frame]; unfold set_none;
  split; [done|]; split; [done|]; split; [done|]; split;
  [ intros k ->%list_elem_of_singleton; rewrite get_set_col; by eexists
  | intros k Hk; rewrite app_nil_r in Hk; apply not_elem_of_cons in Hk as [Hk _];
    by rewrite get_set_col_ne ].

Section Rounded.
Variable rnd : Q → fval.

Lemma RSI_compute_frame df N s :
  index (snd (RSI_compute rnd df N s)) = index df
  ∧ (fst (RSI_compute rnd df N s) = true →
     is_Some (get_col (snd (RSI_compute rnd df N s)) "rsi"))
  ∧ (∀ k, k ∉ "rsi" :: temporaries "RSI" →
          get_col (snd (RSI_compute rnd df N s)) k = get_col df k).
Proof.
  assert (Hne : ∀ k, k ∉ "rsi" :: temporaries "RSI" →
                k ≠ "rsi" ∧ k ≠ "change" ∧ k ≠ "gain" ∧ k ≠ "loss"
                ∧ k ≠ "avg_gain" ∧ k ≠ "avg_loss" ∧ k ≠ "rs").
  { intros k Hk. change (temporaries "RSI")
      with ["change"; "gain"; "loss"; "avg_gain"; "avg_loss"; "rs"] in Hk.
    repeat (apply not_elem_of_cons in Hk as [? Hk]). done. }
  unfold RSI_compute.
  destruct (floats df s) as [src|]; [|by repeat split].
  destruct (rma rnd _ N) as [ag|].
  2:{ cbn [fst snd]. split; [done|]. split; [done|]. intros k Hk.
      destruct (Hne k Hk) as (? & ? & ? & ? & _).
      by rewrite !get_set_col_ne by done. }
  destruct (rma rnd _ N) as [al|].
  2:{ cbn [fst snd]. split; [done|]. split; [done|]. intros k Hk.
      destruct (Hne k Hk) as (? & ? & ? & ? & ? & _).
      by rewrite !get_set_col_ne by done. }
  match goal with
  | |- context [drop_columns ?d ?ks] =>
      destruct (drop_columns_Some d ks) as (df' & Ed & Hidx & Hget)
  end.
  { apply (bool_decide_unpack _). by vm_compute. }
  { intros k Hk.
    repeat (apply elem_of_cons in Hk as [->|Hk]);
      [..|by apply elem_of_nil in Hk];
      repeat first [ rewrite get_set_col | rewrite get_set_col_ne by done ]; by eexists. }
  rewrite Ed. cbn [fst snd]. split; [by rewrite Hidx|]. split.
  - intros _. rewrite Hget by (apply (bool_decide_unpack _); by vm_compute).
    rewrite get_set_col. by eexists.
  - intros k Hk. destruct (Hne k Hk) as (? & ? & ? & ? & ? & ? & ?).
    rewrite Hget.
    + by rewrite !get_set_col_ne by done.
    + intros Hin. repeat (apply elem_of_cons in Hin as [->|Hin]); try done.
      by apply elem_of_nil in Hin.
Qed.

(** What a call of a built-in indicator function leaves behind. *)
Lemma builtin_frame
    (name : string) (f : indicator_fn) (df : frame) (params : pydict) (out : outcome) :
  builtin rnd name = Some f →
  f df params = Some out →
  mutated out = returned out
  ∧ index (returned out) = index df
  ∧ keys out ≠ []
  ∧ (∀ k, k ∈ keys out → is_Some (get_col (returned out) k))
  ∧ (∀ k, k ∉ keys out ++ temporaries name →
          get_col (returned out) k = get_col df k).
Proof.
  unfold builtin. intros Hname Hrun.
  repeat match type of Hname with
         | (if String.eqb name ?s then _ else _) = _ =>
             destruct (String.eqb_spec name s) as [->|?]
         end; try done; injection Hname as <-; revert Hrun.
  - (* Slope *)
    unfold Slope. destruct (kwargs _ params) as [[|source [|? ?]]|]; try done.
    cbn [mbind option_bind]. intros [= <-].
    destruct (column_name source) as [s|]; cbn [mbind option_bind];
      [destruct (floats df s) as [xs|]; cbn [mbind option_bind]|];
      one_column.
  - (* Larger *)
    unfold Larger. destruct (kwargs _ params) as [[|s1 [|s2 [|? ?]]]|]; try done.
    cbn [mbind option_bind]. intros [= <-].
    destruct (column_name s1) as [n1|]; cbn [mbind option_bind];
      [destruct (column_name s2) as [n2|]; cbn [mbind option_bind];
       [destruct (floats df n1) as [xs|]; cbn [mbind option_bind];
        [destruct (floats df n2) as [ys|]; cbn [mbind option_bind]|]|]|];
      one_column.
  - (* SimpleMovingAverage *)
    unfold SimpleMovingAverage.
    destruct (kwargs _ params) as [[|period [|source [|? ?]]]|]; try done.
    cbn [mbind option_bind]. intros [= <-].
    destruct (set_all_none_props df ["sma"; "rising"]) as (Hi & Hin & Hout).
    assert (Hnone : ∀ ok,
      let out := same_frame ok (set_all_none df ["sma"; "rising"]) ["sma"; "rising"] in
      mutated out = returned out ∧ index (returned out) = index df ∧ keys out ≠ []
      ∧ (∀ k, k ∈ keys out → is_Some (get_col (returned out) k))
      ∧ (∀ k, k ∉ keys out ++ [] → get_col (returned out) k = get_col df k)).
    { intros ok. cbn zeta. cbn [mutated returned keys same_frame].
      split; [done|]. split; [done|]. split; [done|]. split; [done|].
      intros k Hk. rewrite app_nil_r in Hk. by apply Hout. }
    destruct (py_int period) as [N|]; cbn [mbind option_bind]; [|apply Hnone].
    destruct (Z.of_nat (len df) >? N); [|apply Hnone].
    destruct (column_name source) as [s|]; cbn [mbind option_bind]; [|apply Hnone].
    destruct (floats df s) as [xs|]; cbn [mbind option_bind]; [|apply Hnone].
    destruct (N <? 0); [apply Hnone|].
    rewrite floats_set_col. cbn [mbind option_bind mutated returned keys same_frame].
    split; [done|]. split; [done|]. split; [done|]. split.
    + intros k Hk. apply elem_of_cons in Hk as [->|Hk].
      * rewrite get_set_col_ne, get_set_col by done. by eexists.
      * apply list_elem_of_singleton in Hk as ->. rewrite get_set_col. by eexists.
    + intros k Hk. rewrite app_nil_r in Hk.
      apply not_elem_of_cons in Hk as [H1 Hk]. apply not_elem_of_cons in Hk as [H2 _].
      by rewrite !get_set_col_ne by done.
  - (* RSI *)
    unfold RSI. destruct (kwargs _ params) as [[|period [|source [|? ?]]]|]; try done.
    cbn [mbind option_bind]. intros [= <-].
    assert (Hnone : ∀ ok,
      let out := same_frame ok (set_none df "rsi") ["rsi"] in
      mutated out = returned out ∧ index (returned out) = index df ∧ keys out ≠ []
      ∧ (∀ k, k ∈ keys out → is_Some (get_col (returned out) k))
      ∧ (∀ k, k ∉ keys out ++ temporaries "RSI" →
              get_col (returned out) k = get_col df k)).
    { intros ok. cbn zeta. cbn [mutated returned keys same_frame].
      split; [done|]. split; [done|]. split; [done|]. split.
      - intros k ->%list_elem_of_singleton. unfold set_none. rewrite get_set_col. by eexists.
      - intros k Hk. apply not_elem_of_app in Hk as [Hk _].
        apply not_elem_of_cons in Hk as [Hk _]. unfold set_none.
        by rewrite get_set_col_ne. }
    destruct (py_int period) as [N|]; [|apply Hnone].
    destruct (Z.of_nat (len df) >? N); [|apply Hnone].
    destruct (column_name source) as [s|]; [|apply Hnone].
    destruct (RSI_compute_frame df N s) as (Hi & Hrsi & Hout).
    destruct (RSI_compute rnd df N s) as [[|] df'];
      cbn [fst snd mutated returned keys same_frame] in *.
    + split; [done|]. split; [done|]. split; [done|]. split.
      * intros k ->%list_elem_of_singleton. by apply Hrsi.
      * intros k Hk. by apply Hout.
    + split; [done|]. split; [done|]. split; [done|]. split.
      * intros k ->%list_elem_of_singleton. unfold set_none. rewrite get_set_col. by eexists.
      * intros k Hk. unfold set_none. rewrite get_set_col_ne.
        -- by apply Hout.
        -- intros <-. apply Hk. by left.
Qed.

(** X14: the contract of the built-in indicator functions [Slope],
    [Larger], [SimpleMovingAverage] and [RSI]. Whenever the call returns,
    with success or without, the frame returned is the caller's frame, it
    has the rows it had, every column the function names in [keys] is
    there, and every other column is as it was, except the working
    columns that [RSI] creates and deletes. *)
Theorem builtin_contract
    (name : string) (f : indicator_fn) (df : frame) (params : pydict) (out : outcome) :
  builtin rnd name = Some f →
  f df params = Some out →
  mutated out = returned out
  ∧ index (returned out) = index df
  ∧ keys out ≠ []
  ∧ (∀ k, k ∈ keys out → is_Some (get_col (returned out) k))
  ∧ (∀ k, k ∉ keys out ++ temporaries name →
          get_col (returned out) k = get_col df k).
Proof. apply builtin_frame. Qed.

End Rounded.

Lemma builtin_contract_witness :
  ∃ out,
    RSI rnd_exact (DataFrame history) [(KStr "period", PInt 3)] = Some out
    ∧ index (returned out) = index (DataFrame history)
    ∧ (∀ k, k ∈ keys out → is_Some (get_col (returned out) k))
    ∧ (∀ k, k ∉ keys out ++ temporaries "RSI" →
            get_col (returned out) k = get_col (DataFrame history) k).
Proof.
  destruct (RSI rnd_exact (DataFrame history) [(KStr "period", PInt 3)]) as [out|] eqn:E;
    [|by vm_compute in E].
  exists out. split; [done|].
  by destruct (builtin_contract rnd_exact "RSI" (RSI rnd_exact) (DataFrame history)
                 [(KStr "period", PInt 3)] out eq_refl E) as (_ & ? & _ & ? & ?).
Defined.

(** ** RSI where prices move one way *)

Section Extremes.
Variable rnd : Q → fval.
Hypothesis Hrnd : rounding rnd.

Lemma rnd_at q c :
  (q == c)%Q → (c == 0 ∨ c == 1 ∨ c == 100)%Q → ∃ r, rnd q = FFin r ∧ (r == c)%Q.
Proof.
  intros Hq Hc. destruct (rnd_fixes rnd Hrnd q) as (r & E & Hr).
  { by rewrite Hq. }
  exists r. split; [done|]. by rewrite Hr.
Qed.

Lemma rnd_zero q : (q == 0)%Q → zero_or_nan (rnd q).
Proof.
  intros Hq. destruct (rnd_at q 0 Hq) as (r & -> & Hr); [by left|]. done.
Qed.

Lemma fadd_zero x y : zero_or_nan x → zero_or_nan y → zero_or_nan (fadd rnd x y).
Proof.
  destruct x as [|[]|p], y as [|[]|q]; simpl; try done.
  intros Hp Hq. apply rnd_zero. by rewrite Hp, Hq.
Qed.

Lemma fmul_zero x z : zero_or_nan x → zero_or_nan (fmul rnd x (of_Z z)).
Proof.
  destruct x as [|[]|p]; simpl; try done.
  intros Hp. apply rnd_zero. rewrite Hp. apply Qmult_0_l.
Qed.

Lemma fdiv_zero x z : zero_or_nan x → zero_or_nan (fdiv rnd x (of_Z z)).
Proof.
  destruct x as [|[]|p]; simpl; try done.
  intros Hp. destruct (Qzero_b (inject_Z z)).
  - by rewrite (proj2 (Qzero_b_spec p) Hp).
  - apply rnd_zero. unfold Qdiv. rewrite Hp. apply Qmult_0_l.
Qed.

Lemma fsum_zero xs : Forall zero_or_nan xs → zero_or_nan (fsum rnd xs).
Proof.
  unfold fsum. assert (H0 : zero_or_nan f0) by (simpl; reflexivity).
  revert H0. generalize f0. induction xs as [|x xs IH]; intros acc Hacc Hall; [done|].
  inversion Hall; subst. simpl. apply IH; [|done]. by apply fadd_zero.
Qed.

Lemma rma_step_zero x n a i :
  length a = length x → Forall zero_or_nan a → Forall zero_or_nan x →
  1 <= i < Z.of_nat (length x) →
  ∃ a', rma_step rnd x n (Some a) i = Some a'
        ∧ length a' = length x ∧ Forall zero_or_nan a'.
Proof.
  intros Hlen Ha Hx Hi. unfold rma_step. simpl.
  rewrite Hlen, !py_index_inside by lia. simpl.
  destruct (lookup_lt_is_Some_2 a (Z.to_nat (i - 1))) as [ap Hap]; [lia|].
  destruct (lookup_lt_is_Some_2 x (Z.to_nat i)) as [xi Hxi]; [lia|].
  rewrite Hap, Hxi. simpl. eexists. split; [reflexivity|].
  split; [by rewrite length_insert|].
  apply Forall_insert; [done|].
  apply fdiv_zero, fadd_zero.
  - apply fmul_zero. by eapply (Forall_lookup_1 _ a).
  - by eapply (Forall_lookup_1 _ x).
Qed.

Lemma rma_fold_zero x n idx a :
  length a = length x → Forall zero_or_nan a → Forall zero_or_nan x →
  Forall (fun i => 1 <= i < Z.of_nat (length x)) idx →
  ∃ a', fold_left (rma_step rnd x n) idx (Some a) = Some a'
        ∧ length a' = length x ∧ Forall zero_or_nan a'.
Proof.
  revert a. induction idx as [|i idx IH]; intros a Hlen Ha Hx Hidx.
  - exists a. done.
  - inversion Hidx as [|? ? Hi Hidx']; subst.
    destruct (rma_step_zero x n a i Hlen Ha Hx Hi) as (a1 & E1 & Hlen1 & Ha1).
    cbn [fold_left]. rewrite E1. by apply IH.
Qed.

(** The running average of a column of zeros holds zeros. *)
Lemma rma_zero x n :
  1 <= n < Z.of_nat (length x) → Forall zero_or_nan x →
  ∃ a, rma rnd x n = Some a ∧ length a = length x ∧ Forall zero_or_nan a.
Proof.
  intros Hn Hx. unfold rma.
  rewrite length_replicate, py_index_inside by lia. simpl.
  apply rma_fold_zero; try done.
  - by rewrite length_insert, length_replicate.
  - apply Forall_insert.
    + apply Forall_replicate. done.
    + unfold fmean. apply fdiv_zero, fsum_zero.
      unfold py_slice. by apply Forall_take, Forall_drop.
  - apply Forall_forall. intros i Hi. apply elem_of_seqZ in Hi. lia.
Qed.

(** The change from one finite price to the next. *)
Lemma diff_finite qs i c :
  diff rnd (map FFin qs) !! i = Some c →
  c = FNaN ∨ ∃ a b, (∃ j, i = S j ∧ qs !! j = Some a) ∧ qs !! i = Some b
                    ∧ c = rnd (b + - a)%Q.
Proof.
  unfold diff. intros H. apply lookup_zip_with_Some in H as (x & y & -> & Hx & Hy).
  rewrite list_lookup_fmap in Hx.
  destruct (qs !! i) as [b|] eqn:Eb; [|done]. injection Hx as <-.
  destruct i as [|j].
  - destruct qs; [done|]. simpl in Hy. injection Hy as <-. by left.
  - rewrite shift1_lookup_S in Hy.
    2:{ rewrite length_map. apply lookup_lt_Some in Eb. lia. }
    rewrite list_lookup_fmap in Hy.
    destruct (qs !! j) as [a|] eqn:Ea; [|done]. injection Hy as <-.
    right. exists a, b. split; [by exists j|]. done.
Qed.

Lemma change_never_falls qs :
  never_falls qs → Forall nonneg (diff rnd (map FFin qs)).
Proof.
  intros Hq. apply Forall_lookup. intros i c Hc.
  apply diff_finite in Hc as [->|(a & b & (j & -> & Ha) & Hb & ->)]; [done|].
  apply (rnd_nonneg rnd Hrnd). specialize (Hq j a b Ha Hb). lra.
Qed.

Lemma change_never_rises qs :
  never_rises qs → Forall (fun c => nonneg (fneg c)) (diff rnd (map FFin qs)).
Proof.
  intros Hq. apply Forall_lookup. intros i c Hc.
  apply diff_finite in Hc as [->|(a & b & (j & -> & Ha) & Hb & ->)]; [done|].
  specialize (Hq j a b Ha Hb).
  destruct (rnd_fixes rnd Hrnd 0) as (r0 & E0 & Hr0); [by left|].
  assert (Hle : (b + - a <= 0)%Q) by lra.
  pose proof (rnd_monotone rnd Hrnd _ _ Hle) as Hm. rewrite E0 in Hm.
  pose proof (rnd_number rnd Hrnd (b + - a)%Q) as Hn.
  destruct (rnd (b + - a)%Q) as [|[]|r]; simpl in *; try done.
  apply Qle_bool_iff in Hm. lra.
Qed.

Lemma loss_of_rise c :
  nonneg c → zero_or_nan (fneg (if fgt c f0 then fneg f0 else c)).
Proof.
  destruct c as [|[]|q]; simpl; try done.
  intros Hq. unfold Qlt_b. destruct (Qle_bool q 0) eqn:E; simpl; [|reflexivity].
  apply Qle_bool_iff in E. lra.
Qed.

Lemma gain_of_fall c :
  nonneg (fneg c) → zero_or_nan (if flt c f0 then f0 else c).
Proof.
  destruct c as [|[]|q]; simpl; try done.
  intros Hq. unfold Qlt_b. destruct (Qle_bool 0 q) eqn:E; simpl; [|reflexivity].
  apply Qle_bool_iff in E. lra.
Qed.

Lemma zero_nonneg x : zero_or_nan x → nonneg x.
Proof. destruct x as [|[]|q]; simpl; try done. intros ->. lra. Qed.

(** The three cases of a cell of the column [rsi]. *)
Lemma rsi_cell_top g l :
  nonneg g → zero_or_nan l →
  is_nan (fsub rnd f100 (fdiv rnd f100 (fadd rnd f1 (fdiv rnd g l)))) = false →
  ∃ q, fsub rnd f100 (fdiv rnd f100 (fadd rnd f1 (fdiv rnd g l))) = FFin q
       ∧ (q == 100)%Q.
Proof.
  intros Hg Hl.
  assert (Hrs : fdiv rnd g l = FNaN ∨ fdiv rnd g l = FInf false).
  { destruct g as [|[]|a], l as [|[]|b]; simpl in *; try done; try (by left).
    - right. by rewrite (Qneg_b_nonneg b) by lra.
    - rewrite (proj2 (Qzero_b_spec b) Hl).
      destruct (Qzero_b a); [by left|]. right. by rewrite Qneg_b_nonneg. }
  destruct Hrs as [->| ->]; [done|]. intros _. simpl.
  apply rnd_at; [ring|by right; right].
Qed.

Lemma rsi_cell_bottom g l :
  zero_or_nan g → nonneg l →
  is_nan (fsub rnd f100 (fdiv rnd f100 (fadd rnd f1 (fdiv rnd g l)))) = false →
  ∃ q, fsub rnd f100 (fdiv rnd f100 (fadd rnd f1 (fdiv rnd g l))) = FFin q
       ∧ (q == 0)%Q.
Proof.
  intros Hg Hl.
  assert (Hrs : zero_or_nan (fdiv rnd g l)).
  { destruct g as [|[]|a], l as [|[]|b]; simpl in *; try done.
    destruct (Qzero_b b).
    - by rewrite (proj2 (Qzero_b_spec a) Hg).
    - apply rnd_zero. unfold Qdiv. rewrite Hg. apply Qmult_0_l. }
  destruct (fdiv rnd g l) as [|[]|z]; simpl in Hrs; try done. intros Hv.
  cbn [fadd f1] in *.
  destruct (rnd_at (1 + z) 1) as (r1 & E1 & Hr1); [by rewrite Hrs|by right; left|].
  rewrite E1 in *. cbn [fdiv f100] in *.
  assert (Ez : Qzero_b r1 = false).
  { destruct (Qzero_b r1) eqn:Ez; [|done]. apply Qzero_b_spec in Ez. lra. }
  rewrite Ez in *.
  destruct (rnd_at (100 / r1) 100) as (r2 & E2 & Hr2);
    [by rewrite Hr1|by right; right|].
  rewrite E2 in *. cbn [fsub fneg fadd f100].
  apply rnd_at; [rewrite Hr2; ring|by left].
Qed.

Lemma rsi_cell_flat g l :
  zero_or_nan g → zero_or_nan l →
  fsub rnd f100 (fdiv rnd f100 (fadd rnd f1 (fdiv rnd g l))) = FNaN.
Proof.
  intros Hg Hl.
  assert (Hrs : fdiv rnd g l = FNaN).
  { destruct g as [|[]|a], l as [|[]|b]; simpl in *; try done.
    by rewrite (proj2 (Qzero_b_spec b) Hl), (proj2 (Qzero_b_spec a) Hg). }
  by rewrite Hrs.
Qed.

(** [RSI] on a column of finite prices that is longer than the period:
    the column [rsi] cell by cell. *)
Lemma RSI_cells (df : frame) (s : string) (qs : list Q) (period : pyval) (N : Z) :
  py_int period = Some N →
  floats df s = Some (map FFin qs) →
  length qs = len df →
  1 <= N < Z.of_nat (len df) →
  let change := diff rnd (map FFin qs) in
  ∃ out ag al,
    RSI rnd df [(KStr "period", period); (KStr "source", PStr s)] = Some out
    ∧ success out = true
    ∧ rma rnd (map (fun c => if flt c f0 then f0 else c) change) N = Some ag
    ∧ rma rnd (map (fun c => fneg (if fgt c f0 then fneg f0 else c)) change) N = Some al
    ∧ Forall nonneg ag ∧ Forall nonneg al
    ∧ length ag = len df ∧ length al = len df
    ∧ floats (returned out) "rsi"
      = Some (map (fun r => fsub rnd f100 (fdiv rnd f100 (fadd rnd f1 r)))
                  (zip_with (fdiv rnd) ag al)).
Proof.
  intros HN Hxs Hlen HNr. cbn zeta.
  set (change := diff rnd (map FFin qs)).
  set (gain := map (fun c => if flt c f0 then f0 else c) change).
  set (loss := map (fun c => fneg (if fgt c f0 then fneg f0 else c)) change).
  assert (Lc : length change = len df).
  { unfold change. by rewrite diff_length, length_map. }
  destruct (rma_nonneg rnd Hrnd gain N) as (ag & Eg & Lg & Hg).
  { unfold gain. rewrite length_map. lia. }
  { unfold gain. apply Forall_map, Forall_forall. intros c _. apply gain_nonneg. }
  destruct (rma_nonneg rnd Hrnd loss N) as (al & El & Ll & Hl).
  { unfold loss. rewrite length_map. lia. }
  { unfold loss. apply Forall_map, Forall_forall. intros c _. apply loss_nonneg. }
  unfold gain in Lg. unfold loss in Ll. rewrite length_map in Lg, Ll.
  unfold RSI. cbn -[py_int RSI_compute Z.gtb len set_none].
  rewrite HN.
  assert (H1 : (Z.of_nat (len df) >? N) = true) by (apply Z.gtb_lt; lia).
  rewrite H1. unfold RSI_compute. rewrite Hxs.
  fold change. fold gain. fold loss. rewrite Eg, El.
  match goal with
  | |- context [drop_columns ?d ?ks] =>
      destruct (drop_columns_Some d ks) as (df' & Ed & _ & Hget)
  end.
  { apply (bool_decide_unpack _). by vm_compute. }
  { intros k Hk.
    repeat (apply elem_of_cons in Hk as [->|Hk]);
      [..|by apply elem_of_nil in Hk];
      repeat first [ rewrite get_set_col | rewrite get_set_col_ne by done ]; by eexists. }
  rewrite Ed. eexists _, ag, al. split; [reflexivity|].
  split; [done|]. split; [done|]. split; [done|].
  split; [done|]. split; [done|]. split; [lia|]. split; [lia|].
  cbn [returned same_frame]. unfold floats.
  rewrite Hget by (apply (bool_decide_unpack _); by vm_compute).
  by rewrite get_set_col.
Qed.

(** X15: for a column of finite prices that never fall from one row
    to the next, every value of [rsi] that is not NaN is 100, whatever
    rounding the arithmetic uses (monotone, with 0, 1 and 100 exact). *)
Theorem RSI_of_prices_that_never_fall
    (df : frame) (s : string) (qs : list Q) (period : pyval) (N : Z) :
  py_int period = Some N →
  floats df s = Some (map FFin qs) →
  length qs = len df →
  1 <= N < Z.of_nat (len df) →
  never_falls qs →
  ∃ out rsi,
    RSI rnd df [(KStr "period", period); (KStr "source", PStr s)] = Some out
    ∧ success out = true
    ∧ floats (returned out) "rsi" = Some rsi
    ∧ length rsi = len df
    ∧ ∀ i v, rsi !! i = Some v → is_nan v = false → ∃ q, v = FFin q ∧ (q == 100)%Q.
Proof.
  intros HN Hxs Hlen HNr Hup.
  destruct (RSI_cells df s qs period N HN Hxs Hlen HNr)
    as (out & ag & al & Eo & Hok & Eg & El & Hg & _ & Lg & Ll & Ersi).
  destruct (rma_zero (map (fun c => fneg (if fgt c f0 then fneg f0 else c))
                          (diff rnd (map FFin qs))) N)
    as (al' & El' & _ & Hz).
  { rewrite length_map, diff_length, length_map. lia. }
  { apply Forall_map. eapply Forall_impl; [by apply change_never_falls|].
    intros c Hc. by apply loss_of_rise. }
  rewrite El in El'. injection El' as <-.
  eexists out, _. split; [done|]. split; [done|]. split; [exact Ersi|].
  split; [rewrite length_map, length_zip_with; lia|].
  intros i v Hv Hnan. rewrite list_lookup_fmap in Hv.
  destruct (zip_with (fdiv rnd) ag al !! i) as [r|] eqn:Er; [|done].
  injection Hv as <-.
  apply lookup_zip_with_Some in Er as (g & l & -> & Hgi & Hli).
  apply rsi_cell_top; [|by eapply (Forall_lookup_1 _ al)|done].
  by eapply (Forall_lookup_1 _ ag).
Qed.

(** X16: for a column of finite prices that never rise, every value
    of [rsi] that is not NaN is 0. *)
Theorem RSI_of_prices_that_never_rise
    (df : frame) (s : string) (qs : list Q) (period : pyval) (N : Z) :
  py_int period = Some N →
  floats df s = Some (map FFin qs) →
  length qs = len df →
  1 <= N < Z.of_nat (len df) →
  never_rises qs →
  ∃ out rsi,
    RSI rnd df [(KStr "period", period); (KStr "source", PStr s)] = Some out
    ∧ success out = true
    ∧ floats (returned out) "rsi" = Some rsi
    ∧ length rsi = len df
    ∧ ∀ i v, rsi !! i = Some v → is_nan v = false → ∃ q, v = FFin q ∧ (q == 0)%Q.
Proof.
  intros HN Hxs Hlen HNr Hdown.
  destruct (RSI_cells df s qs period N HN Hxs Hlen HNr)
    as (out & ag & al & Eo & Hok & Eg & El & _ & Hl & Lg & Ll & Ersi).
  destruct (rma_zero (map (fun c => if flt c f0 then f0 else c)
                          (diff rnd (map FFin qs))) N)
    as (ag' & Eg' & _ & Hz).
  { rewrite length_map, diff_length, length_map. lia. }
  { apply Forall_map. eapply Forall_impl; [by apply change_never_rises|].
    intros c Hc. by apply gain_of_fall. }
  rewrite Eg in Eg'. injection Eg' as <-.
  eexists out, _. split; [done|]. split; [done|]. split; [exact Ersi|].
  split; [rewrite length_map, length_zip_with; lia|].
  intros i v Hv Hnan. rewrite list_lookup_fmap in Hv.
  destruct (zip_with (fdiv rnd) ag al !! i) as [r|] eqn:Er; [|done].
  injection Hv as <-.
  apply lookup_zip_with_Some in Er as (g & l & -> & Hgi & Hli).
  apply rsi_cell_bottom; [by eapply (Forall_lookup_1 _ ag)| |done].
  by eapply (Forall_lookup_1 _ al).
Qed.

(** X17: for a column of prices that stand still, [RSI] succeeds and
    its column holds no number at all: every cell is NaN, which the
    pipeline stores as null. *)
Theorem RSI_of_prices_that_stand_still
    (df : frame) (s : string) (qs : list Q) (period : pyval) (N : Z) :
  py_int period = Some N →
  floats df s = Some (map FFin qs) →
  length qs = len df →
  1 <= N < Z.of_nat (len df) →
  never_falls qs → never_rises qs →
  ∃ out rsi,
    RSI rnd df [(KStr "period", period); (KStr "source", PStr s)] = Some out
    ∧ success out = true
    ∧ floats (returned out) "rsi" = Some rsi
    ∧ length rsi = len df
    ∧ ∀ i v, rsi !! i = Some v → v = FNaN.
Proof.
  intros HN Hxs Hlen HNr Hup Hdown.
  destruct (RSI_cells df s qs period N HN Hxs Hlen HNr)
    as (out & ag & al & Eo & Hok & Eg & El & _ & _ & Lg & Ll & Ersi).
  destruct (rma_zero (map (fun c => if flt c f0 then f0 else c)
                          (diff rnd (map FFin qs))) N)
    as (ag' & Eg' & _ & Hzg).
  { rewrite length_map, diff_length, length_map. lia. }
  { apply Forall_map. eapply Forall_impl; [by apply change_never_rises|].
    intros c Hc. by apply gain_of_fall. }
  destruct (rma_zero (map (fun c => fneg (if fgt c f0 then fneg f0 else c))
                          (diff rnd (map FFin qs))) N)
    as (al' & El' & _ & Hzl).
  { rewrite length_map, diff_length, length_map. lia. }
  { apply Forall_map. eapply Forall_impl; [by apply change_never_falls|].
    intros c Hc. by apply loss_of_rise. }
  rewrite Eg in Eg'. injection Eg' as <-. rewrite El in El'. injection El' as <-.
  eexists out, _. split; [done|]. split; [done|]. split; [exact Ersi|].
  split; [rewrite length_map, length_zip_with; lia|].
  intros i v Hv. rewrite list_lookup_fmap in Hv.
  destruct (zip_with (fdiv rnd) ag al !! i) as [r|] eqn:Er; [|done].
  injection Hv as <-.
  apply lookup_zip_with_Some in Er as (g & l & -> & Hgi & Hli).
  apply rsi_cell_flat; [by eapply (Forall_lookup_1 _ ag)|by eapply (Forall_lookup_1 _ al)].
Qed.

End Extremes.

(** Lists of six prices, row by row. *)
Ltac six_rows :=
  let i := fresh "i" in
  intros i ? ? ? ?;
  do 6 (destruct i as [|i]; [simplify_eq/=; try lra|]); simplify_eq/=.

Lemma RSI_of_prices_that_never_fall_witness :
  ∃ out rsi q,
    RSI rnd_exact (prices "close" rising)
        [(KStr "period", PInt 3); (KStr "source", PStr "close")] = Some out
    ∧ floats (returned out) "rsi" = Some rsi
    ∧ rsi !! 5%nat = Some (FFin q)
    ∧ (q == 100)%Q.
Proof.
  destruct (RSI_of_prices_that_never_fall rnd_exact rnd_exact_rounding
              (prices "close" rising) "close" rising (PInt 3) 3
              eq_refl eq_refl eq_refl)
    as (out & rsi & Eo & _ & Er & _ & Hcell); [by compute|six_rows|].
  assert (Hlast : ∃ v, rsi !! 5%nat = Some v ∧ is_nan v = false).
  { vm_compute in Eo. injection Eo as <-. vm_compute in Er. injection Er as <-.
    eexists. split; reflexivity. }
  destruct Hlast as (v & Hv & Hnan).
  destruct (Hcell 5%nat v Hv Hnan) as (q & -> & Hq).
  by exists out, rsi, q.
Defined.

Lemma RSI_of_prices_that_never_rise_witness :
  ∃ out rsi q,
    RSI rnd_exact (prices "close" falling)
        [(KStr "period", PInt 3); (KStr "source", PStr "close")] = Some out
    ∧ floats (returned out) "rsi" = Some rsi
    ∧ rsi !! 5%nat = Some (FFin q)
    ∧ (q == 0)%Q.
Proof.
  destruct (RSI_of_prices_that_never_rise rnd_exact rnd_exact_rounding
              (prices "close" falling) "close" falling (PInt 3) 3
              eq_refl eq_refl eq_refl)
    as (out & rsi & Eo & _ & Er & _ & Hcell); [by compute|six_rows|].
  assert (Hlast : ∃ v, rsi !! 5%nat = Some v ∧ is_nan v = false).
  { vm_compute in Eo. injection Eo as <-. vm_compute in Er. injection Er as <-.
    eexists. split; reflexivity. }
  destruct Hlast as (v & Hv & Hnan).
  destruct (Hcell 5%nat v Hv Hnan) as (q & -> & Hq).
  by exists out, rsi, q.
Defined.

Lemma RSI_of_prices_that_stand_still_witness :
  ∃ out rsi,
    RSI rnd_exact (prices "close" flat)
        [(KStr "period", PInt 3); (KStr "source", PStr "close")] = Some out
    ∧ floats (returned out) "rsi" = Some rsi
    ∧ length rsi = 6%nat
    ∧ rsi !! 5%nat = Some FNaN.
Proof.
  destruct (RSI_of_prices_that_stand_still rnd_exact rnd_exact_rounding
              (prices "close" flat) "close" flat (PInt 3) 3
              eq_refl eq_refl eq_refl)
    as (out & rsi & Eo & _ & Er & Hlen & Hcell); [by compute|six_rows|six_rows|].
  exists out, rsi. split; [done|]. split; [done|]. split; [done|].
  destruct (lookup_lt_is_Some_2 rsi 5%nat) as [v Hv]; [rewrite Hlen; compute; lia|].
  by rewrite Hv, (Hcell 5%nat v Hv).
Defined.

End SignalsFacts.
(* ===================================================================== *)
(** * database.py and the quotes mutation: facts                          *)
(* ===================================================================== *)

Module StoreFacts.
Import Py Logging Tasks Factory PyFacts Inputs InputsFacts Queue Store Mutation.

Lemma dict_get_update identifier e k :
  dict_get (update identifier e) k
  = match dict_get (update [] e) k with
    | Some v => Some v
    | None => dict_get identifier k
    end.
Proof.
  unfold update.
  assert (H0 : dict_get identifier k
               = match dict_get (@nil (pykey * pyval)) k with
                 | Some v => Some v
                 | None => dict_get identifier k
                 end) by done.
  revert H0. generalize identifier at 1 3. generalize (@nil (pykey * pyval)).
  induction e as [|[k0 v0] e IH]; intros acc acc' H0; [done|].
  cbn [fold_left fst snd]. apply IH.
  rewrite !dict_get_set. by destruct (key_eqb k0 k).
Qed.

Section Connection.
Variable DB : Type.
Variable select_security : string → string → DB → option (list (Z * Z)).
Variable executemany : string → list string → string → list (list pyval) → DB → option DB.

Lemma write_entries_Some table identifier entries constraint db db' :
  write_entries DB executemany table identifier entries constraint db = Some db' →
  ∃ first rest f columns rows,
    entries = PDict f :: rest ∧ first = PDict f
    ∧ mapM Indicators.key_name (dict_keys (update identifier f)) = Some columns
    ∧ executemany table columns constraint rows db = Some db'
    ∧ length rows = length entries
    ∧ ∀ i entry, entries !! i = Some entry →
        ∃ e row, entry = PDict e ∧ rows !! i = Some row
                 ∧ length row = length columns
                 ∧ ∀ j c, columns !! j = Some c →
                     ∃ v, row !! j = Some v
                          ∧ dict_get (update identifier e) (KStr c) = Some v.
Proof.
  unfold write_entries. destruct entries as [|first rest]; [done|].
  cbn [head mbind option_bind].
  destruct first as [| | | | | | | |f]; try done. cbn [union mbind option_bind].
  destruct (mapM Indicators.key_name _) as [columns|] eqn:Ec; [|done].
  cbn [mbind option_bind].
  destruct (tuples identifier _ _) as [rows|] eqn:Et; [|done].
  cbn [mbind option_bind]. intros Hex.
  exists (PDict f), rest, f, columns, rows.
  split; [done|]. split; [done|]. split; [done|]. split; [done|].
  unfold tuples in Et. apply mapM_Some in Et.
  split; [symmetry; by eapply Forall2_length|].
  intros i entry Hi.
  destruct (Forall2_lookup_l _ _ _ _ _ Et Hi) as (row & Hrow & Hr).
  destruct entry as [| | | | | | | |e]; try done. cbn [union mbind option_bind] in Hr.
  exists e, row. split; [done|]. split; [done|].
  apply mapM_Some in Hr. apply mapM_Some in Ec.
  split.
  { rewrite <- (Forall2_length _ _ _ Hr). by eapply Forall2_length. }
  intros j c Hc.
  destruct (Forall2_lookup_r _ _ _ _ _ Ec Hc) as (k & Hk & Hkc).
  destruct k as [| | |n]; try done. injection Hkc as ->.
  destruct (Forall2_lookup_l _ _ _ _ _ Hr Hk) as (v & Hv & Hget).
  exists v. done.
Qed.

(** A call that fails leaves the database as it was. *)
Lemma forceUpdateEntries_failure table identifier data constraint db :
  let r := forceUpdateEntries DB executemany table identifier data constraint db in
  success (fst r) = false → snd r = db.
Proof.
  cbn zeta. unfold forceUpdateEntries.
  destruct data as [| | | | |s|l|l|d]; try done.
  - by destruct s.
  - destruct l as [|x l]; [done|]. by destruct (write_entries _ _ _ _ _ _ _).
  - destruct l as [|x l]; [done|]. by destruct (write_entries _ _ _ _ _ _ _).
  - by destruct d.
Qed.

(** X18: [forceUpdateEntries] writes all entries with one statement
    whose columns are the keys of the identifier followed by the new
    keys of the FIRST entry. A call that reports failure leaves the
    database as it was. A call that reports success was given a list or
    tuple of dictionaries, made one row for every entry, each as long as
    the column list, and filled each cell from the entry, or from the
    identifier where the entry has no such key; keys that only later
    entries have are not written. *)
Theorem forceUpdateEntries_first_entry_decides
    (table : string) (identifier : pydict) (data : pyval) (constraint : string) (db : DB) :
  let r := forceUpdateEntries DB executemany table identifier data constraint db in
  (success (fst r) = false → snd r = db)
  ∧ (success (fst r) = true →
     ∃ f rest columns rows,
       (data = PList (PDict f :: rest) ∨ data = PTuple (PDict f :: rest))
       ∧ mapM Indicators.key_name (dict_keys (update identifier f)) = Some columns
       ∧ executemany table columns constraint rows db = Some (snd r)
       ∧ length rows = S (length rest)
       ∧ ∀ i entry, (PDict f :: rest) !! i = Some entry →
           ∃ e row, entry = PDict e ∧ rows !! i = Some row
                    ∧ length row = length columns
                    ∧ ∀ j c, columns !! j = Some c →
                        row !! j = match dict_get (update [] e) (KStr c) with
                                   | Some v => Some v
                                   | None => dict_get identifier (KStr c)
                                   end).
Proof.
  cbn zeta. unfold forceUpdateEntries.
  assert (Hmain : ∀ entries,
    let r := match write_entries DB executemany table identifier entries constraint db with
             | Some db' => (UpdateResult_init true 0 None, db')
             | None => (UpdateResult_init false 0 (Some Caught), db)
             end in
    (success (fst r) = false → snd r = db)
    ∧ (success (fst r) = true →
       ∃ f rest columns rows,
         entries = PDict f :: rest
         ∧ mapM Indicators.key_name (dict_keys (update identifier f)) = Some columns
         ∧ executemany table columns constraint rows db = Some (snd r)
         ∧ length rows = S (length rest)
         ∧ ∀ i entry, (PDict f :: rest) !! i = Some entry →
             ∃ e row, entry = PDict e ∧ rows !! i = Some row
                      ∧ length row = length columns
                      ∧ ∀ j c, columns !! j = Some c →
                          row !! j = match dict_get (update [] e) (KStr c) with
                                     | Some v => Some v
                                     | None => dict_get identifier (KStr c)
                                     end)).
  { intros entries. cbn zeta.
    destruct (write_entries _ _ _ _ entries _ _) as [db'|] eqn:Ew; cbn [fst snd success UpdateResult_init];
      [|by split].
    split; [done|]. intros _.
    apply write_entries_Some in Ew
      as (first & rest & f & columns & rows & -> & _ & Hc & Hex & Hlen & Hrows).
    exists f, rest, columns, rows. repeat split; try done.
    intros i entry Hi. destruct (Hrows i entry Hi) as (e & row & -> & Hr & Hl & Hcells).
    exists e, row. repeat split; try done.
    intros j c Hj. destruct (Hcells j c Hj) as (v & -> & Hv).
    by rewrite <- dict_get_update, Hv. }
  destruct data as [| | | | |s|l|l|d]; try (by split).
  - destruct s; by split.
  - destruct l as [|x l]; [by split|].
    destruct (Hmain (x :: l)) as [H1 H2]. split; [exact H1|].
    intros Hs. destruct (H2 Hs) as (f & rest & columns & rows & E & H).
    exists f, rest, columns, rows. split; [left; by rewrite E|exact H].
  - destruct l as [|x l]; [by split|].
    destruct (Hmain (x :: l)) as [H1 H2]. split; [exact H1|].
    intros Hs. destruct (H2 Hs) as (f & rest & columns & rows & E & H).
    exists f, rest, columns, rows. split; [right; by rewrite E|exact H].
  - destruct d; by split.
Qed.

Lemma getSecurityAndExchange_found c x s ex more db :
  c ≠ "" → x ≠ "" →
  select_security c x db = Some ((s, ex) :: more) →
  sec_id <$> getSecurityAndExchange DB select_security (PStr c) (PStr x) db
  = Some (Some s).
Proof.
  intros Hc Hx Hsel. unfold getSecurityAndExchange. cbn [upper_or_none mbind option_bind].
  destruct c as [|c0 c]; [done|]. destruct x as [|x0 x]; [done|].
  cbn [String.length Nat.ltb Nat.leb andb]. rewrite Hsel. by destruct more.
Qed.

(** X19: the quotes mutation and the job queue. An answer that is not
    [ok] comes with an unchanged database. The handler is left as it
    was, or it got exactly one job, a [quotes] job for the security that
    was found, and only with indicator calculation switched on. Where
    the security is found and the input has quotes, the job is queued
    whatever the write gives: the answer and the database are those of
    [forceUpdateEntries], also when it fails. *)
Theorem updateSecurityQuotes_queues_the_job
    (env : pyval) (e : Entropy) (data : pydict) (th : TaskHandler) (db : DB) :
  let r := resolve_updateSecurityQuotes DB select_security executemany env e data th db in
  (ok (fst (fst r)) = false → snd r = db)
  ∧ (snd (fst r) = th
     ∨ ∃ s, snd (fst r) = addJob (new_job e (PStr "quotes") (PInt s)) th
            ∧ parseBoolean env = true
            ∧ annotated (new_job e (PStr "quotes") (PInt s)) = true
            ∧ is_quotes (new_job e (PStr "quotes") (PInt s)) = true)
  ∧ (∀ data' c x s ex more quotes,
       securityInputFilter data = Some data' →
       dict_get data' (KStr "code") = Some (PStr c) →
       dict_get data' (KStr "exchange_code") = Some (PStr x) →
       c ≠ "" → x ≠ "" →
       select_security c x db = Some ((s, ex) :: more) →
       dict_get data' (KStr "quotes") = Some quotes →
       parseBoolean env = true →
       let w := forceUpdateEntries DB executemany "quotes" [(KStr "security", PInt s)]
                  quotes "security_date_uq" db in
       snd (fst r) = addJob (new_job e (PStr "quotes") (PInt s)) th
       ∧ ok (fst (fst r)) = success (fst w)
       ∧ snd r = snd w).
Proof.
  cbn zeta. unfold resolve_updateSecurityQuotes. split; [|split].
  - destruct (securityInputFilter data) as [data'|]; [|done].
    destruct (dict_get data' (KStr "code")) as [c|]; [|done].
    destruct (dict_get data' (KStr "exchange_code")) as [x|]; [|done].
    destruct (getSecurityAndExchange _ _ c x db) as [sel|]; [|done].
    destruct (sec_id sel) as [s|]; [|done].
    destruct (dict_get data' (KStr "quotes")) as [quotes|]; [|done].
    pose proof (forceUpdateEntries_failure "quotes"
                  [(KStr "security", PInt s)] quotes "security_date_uq" db) as Hw.
    destruct (forceUpdateEntries _ _ _ _ quotes _ db) as [res db'].
    cbn [fst snd ok] in *. exact Hw.
  - destruct (securityInputFilter data) as [data'|]; [|by left].
    destruct (dict_get data' (KStr "code")) as [c|]; [|by left].
    destruct (dict_get data' (KStr "exchange_code")) as [x|]; [|by left].
    destruct (getSecurityAndExchange _ _ c x db) as [sel|]; [|by left].
    destruct (sec_id sel) as [s|]; [|by left].
    destruct (dict_get data' (KStr "quotes")) as [quotes|]; [|by left].
    destruct (forceUpdateEntries _ _ _ _ quotes _ db) as [res db'].
    cbn [fst snd]. destruct (parseBoolean env); [|by left].
    right. exists s. by repeat split.
  - intros data' c x s ex more quotes -> -> -> Hc Hx Hsel -> ->.
    pose proof (getSecurityAndExchange_found c x s ex more db Hc Hx Hsel) as Hf.
    destruct (getSecurityAndExchange _ _ (PStr c) (PStr x) db) as [sel|]; [|done].
    injection Hf as ->.
    by destruct (forceUpdateEntries _ _ _ _ quotes _ db) as [res db'].
Qed.

End Connection.

Lemma updateSecurityQuotes_queues_the_job_witness :
  let r := resolve_updateSecurityQuotes quotes_only one_security append_rows
             (PStr "True") Examples.entropy0 ragged_quotes Examples.handler0 [] in
  jobQueue (snd (fst r)) = [Examples.job_a]
  ∧ ok (fst (fst r)) = false
  ∧ snd r = [].
Proof.
  cbn zeta.
  destruct (proj2 (proj2 (updateSecurityQuotes_queues_the_job quotes_only one_security
                            append_rows (PStr "True") Examples.entropy0 ragged_quotes
                            Examples.handler0 []))
              [ (KStr "code", PStr "AAPL"); (KStr "exchange_code", PStr "US");
                (KStr "quotes",
                 PList [ PDict [(KStr "date", PStr "2024-01-02"); (KStr "close", PInt 185)];
                         PDict [(KStr "date", PStr "2024-01-03")] ]) ]
              "AAPL" "US" 7 1 []
              (PList [ PDict [(KStr "date", PStr "2024-01-02"); (KStr "close", PInt 185)];
                       PDict [(KStr "date", PStr "2024-01-03")] ])
              eq_refl eq_refl eq_refl ltac:(done) ltac:(done) eq_refl eq_refl eq_refl)
    as (H1 & H2 & H3).
  rewrite H1, H2, H3. by vm_compute.
Defined.

End StoreFacts.
(* ===================================================================== *)
(** * The worker with the built-in indicators                             *)
(* ===================================================================== *)

Module WorkerFacts.
Import Py Logging Float Frame Indicators Factory PyFacts Spec Examples FactoryFacts
       ResampleFacts RSIFacts InputsFacts PipelineFacts Signals SignalsFacts.

(** ** Columns that a mapping does not touch *)

Lemma lookup_name_None mapping k :
  k ∉ map fst mapping → lookup_name mapping k = None.
Proof.
  induction mapping as [|[k0 v0] mapping IH]; simpl; [done|].
  intros Hk. apply not_elem_of_cons in Hk as [Hne Hk].
  destruct (String.eqb_spec k0 k) as [->|_]; [done|]. by apply IH.
Qed.

Lemma lookup_name_Some mapping k v :
  lookup_name mapping k = Some v → v ∈ map snd mapping.
Proof.
  induction mapping as [|[k0 v0] mapping IH]; simpl; [done|].
  destruct (String.eqb k0 k).
  - intros [= ->]. by left.
  - intros H. right. by apply IH.
Qed.

Lemma get_col_rename_other df mapping k :
  k ∉ map fst mapping → k ∉ map snd mapping →
  get_col (rename df mapping) k = get_col df k.
Proof.
  intros Hdom Hran. unfold get_col, rename. cbn [columns].
  induction (columns df) as [|[k0 c0] cols IH]; [done|].
  cbn [map fst snd lookup_col].
  destruct (String.eqb_spec k0 k) as [->|Hne].
  - rewrite (lookup_name_None _ _ Hdom). simpl. by rewrite String.eqb_refl.
  - destruct (lookup_name mapping k0) as [v|] eqn:Ev; simpl.
    + destruct (String.eqb_spec v k) as [->|_]; [|done].
      by apply lookup_name_Some in Ev.
    + destruct (String.eqb_spec k0 k) as [?|_]; [done|]. exact IH.
Qed.

Lemma get_col_drop_unmapped df ks mapping df' k :
  drop_unmapped df ks mapping = Some df' → k ∉ ks →
  get_col df' k = get_col df k.
Proof.
  revert df. induction ks as [|k0 ks IH]; intros df; simpl.
  - by intros [= <-].
  - intros Hd Hk. apply not_elem_of_cons in Hk as [Hne Hk].
    destruct (one_of k0 (map fst mapping)); [by apply IH|].
    unfold del_col in Hd. destruct (get_col df k0) as [c|] eqn:Ec; [|done].
    simpl in Hd. rewrite (IH _ Hd Hk).
    by apply (get_col_without_ne df k0 k).
Qed.

(** ** The date column of the daily frame *)

Section Rounded.
Variable rnd : Q → fval.

Lemma keys_not_date name f df params out :
  builtin rnd name = Some f → f df params = Some out →
  "date" ∉ keys out ++ temporaries name.
Proof.
  unfold builtin. intros Hname Hrun.
  repeat match type of Hname with
         | (if String.eqb name ?s then _ else _) = _ =>
             destruct (String.eqb_spec name s) as [->|?]
         end; try done; injection Hname as <-; revert Hrun.
  - unfold Slope. destruct (kwargs _ params) as [[|? [|? ?]]|]; try done.
    cbn [mbind option_bind]. intros [= <-].
    case_match; apply (bool_decide_unpack _); by vm_compute.
  - unfold Larger. destruct (kwargs _ params) as [[|? [|? [|? ?]]]|]; try done.
    cbn [mbind option_bind]. intros [= <-].
    case_match; apply (bool_decide_unpack _); by vm_compute.
  - unfold SimpleMovingAverage. destruct (kwargs _ params) as [[|? [|? [|? ?]]]|]; try done.
    cbn [mbind option_bind]. intros [= <-].
    case_match; apply (bool_decide_unpack _); by vm_compute.
  - unfold RSI. destruct (kwargs _ params) as [[|? [|? [|? ?]]]|]; try done.
    cbn [mbind option_bind]. intros [= <-].
    repeat case_match; apply (bool_decide_unpack _); by vm_compute.
Qed.

Lemma run_entry_keeps_date dfs obj dfs' df c :
  run_entry (builtin rnd) dfs obj = Succeeded dfs' →
  "date" ∉ map fst (mapping obj) → "date" ∉ map snd (mapping obj) →
  dfs !! 0%nat = Some df → get_col df "date" = Some c →
  length dfs' = length dfs
  ∧ ∃ df', dfs' !! 0%nat = Some df' ∧ get_col df' "date" = Some c.
Proof.
  unfold run_entry. intros Hrun Hdom Hran Hdf Hc.
  destruct (intervalFromStr (interval obj)) as [iv|]; [|done].
  destruct (dfs !! Interval_value iv) as [df0|] eqn:E0; [|done].
  destruct (builtin rnd (indicator obj)) as [f|] eqn:Ef; [|done].
  destruct (f df0 _) as [out|] eqn:Eout; [|done].
  destruct (success out); [|done].
  destruct (drop_unmapped _ _ _) as [df1|] eqn:Ed; [|done].
  injection Hrun as <-. split; [by rewrite length_insert|].
  destruct (builtin_frame rnd _ _ _ _ _ Ef Eout) as (_ & _ & _ & _ & Hother).
  pose proof (keys_not_date _ _ _ _ _ Ef Eout) as Hnot.
  destruct iv; cbn [Interval_value] in *.
  - rewrite Hdf in E0. injection E0 as <-.
    exists (rename df1 (mapping obj)). split.
    + apply list_lookup_insert_eq. by apply lookup_lt_Some in Hdf.
    + rewrite get_col_rename_other by done.
      rewrite (get_col_drop_unmapped _ _ _ _ _ Ed).
      * by rewrite Hother.
      * intros Hin. apply Hnot. apply elem_of_app. by left.
  - exists df. by rewrite list_lookup_insert_ne.
  - exists df. by rewrite list_lookup_insert_ne.
Qed.

Lemma loop_keeps_date config dfs log dfs' log' df c :
  calculateMultiprocessing_loop (builtin rnd) config dfs log = (Completed dfs', log') →
  Forall keeps_date config →
  dfs !! 0%nat = Some df → get_col df "date" = Some c →
  ∃ df', dfs' !! 0%nat = Some df' ∧ get_col df' "date" = Some c.
Proof.
  intros Hloop Hmaps. revert dfs log df Hloop.
  induction Hmaps as [|obj config [Hdom Hran] _ IH]; intros dfs log df Hloop Hdf Hc.
  - simpl in Hloop. injection Hloop as <- _. by exists df.
  - cbn [calculateMultiprocessing_loop] in Hloop.
    destruct (run_entry (builtin rnd) dfs obj) as [dfs1| |] eqn:Erun; try done.
    destruct (run_entry_keeps_date _ _ _ _ _ Erun Hdom Hran Hdf Hc)
      as (_ & df1 & Hdf1 & Hc1).
    exact (IH dfs1 _ df1 Hloop Hdf1 Hc1).
Qed.

(** X20: with the built-in indicators and a configuration whose
    mappings leave the name [date] alone, the row that the worker writes
    is the row of its security at the date of the latest quote. *)
Theorem worker_row_has_the_latest_date
    (id : Z) (config : list entry) (db db' : Database) (log : list record)
    (latest : quote) :
  calculateMultiprocessing rnd (builtin rnd) id config db = (true, db', log) →
  (10 <= length (quotes db id))%nat →
  last (quotes db id) = Some latest →
  Forall keeps_date config →
  ∃ written,
    db' = set_indicators db
            (<[(id, q_date latest) :=
                 written ∪ default ∅ (indicators db !! (id, q_date latest))]>
               (indicators db))
    ∧ written !! "security" = Some (PInt id)
    ∧ written !! "date" = Some (PInt (q_date latest)).
Proof.
  intros Hrun Hlen Hlast Hmaps.
  destruct (worker_true_run rnd (builtin rnd) id config db db' log Hrun Hlen)
    as (dfw & dfm & dfs & log0 & log1 & d & written & Hloop & Hdate & -> & Hs & Hd & _).
  destruct (loop_keeps_date _ _ _ _ _ (DataFrame (quotes db id))
              (ColDate (map (fun r => Some (q_date r)) (quotes db id)))
              Hloop Hmaps eq_refl eq_refl) as (df' & Hdf' & Hc').
  unfold latest_date in Hdate. rewrite Hdf' in Hdate. cbn [mbind option_bind] in Hdate.
  rewrite Hc' in Hdate.
  assert (Hd' : d = q_date latest).
  { revert Hdate Hlast. generalize (quotes db id). intros rows.
    induction rows as [|r [|r' rows] IH]; [done| |].
    - simpl. by intros [= <-] [= <-].
    - intros H1 H2. apply IH; [exact H1|exact H2]. }
  subst d. by exists written.
Qed.

End Rounded.

Lemma worker_row_has_the_latest_date_witness :
  ∃ written,
    snd (fst (calculateMultiprocessing rnd_exact (builtin rnd_exact) 7
                (drop 1 bad_then_good) (db_of history)))
    = set_indicators (db_of history)
        (<[(7, 19738) := written ∪ default ∅ (indicators (db_of history) !! (7, 19738))]>
           (indicators (db_of history)))
    ∧ written !! "security" = Some (PInt 7)
    ∧ written !! "date" = Some (PInt 19738).
Proof.
  apply (worker_row_has_the_latest_date rnd_exact 7 (drop 1 bad_then_good)
           (db_of history) _
           (snd (calculateMultiprocessing rnd_exact (builtin rnd_exact) 7
                   (drop 1 bad_then_good) (db_of history)))
           (day 19738 18)).
  - by vm_compute.
  - simpl. lia.
  - reflexivity.
  - repeat constructor; apply (bool_decide_unpack _); by vm_compute.
Defined.

End WorkerFacts.
(* ===================================================================== *)
(** * Bands, returns and slopes: facts                                    *)
(* ===================================================================== *)

Module BandsFacts.
Import Py Logging Float Frame Indicators Factory PyFacts Spec Examples FactoryFacts
       ResampleFacts RSIFacts PipelineFacts Signals SignalsFacts Numbers Bands.

(** ** Slope *)

Section Rounded.
Variable rnd : Q → fval.
Hypothesis Hrnd : rounding rnd.

(** A difference that is greater than zero is the difference of a
    greater and a smaller number. *)
Lemma fsub_positive b a : fgt (fsub rnd b a) f0 = true → flt a b = true.
Proof.
  destruct b as [|[]|p], a as [|[]|q]; simpl; try done.
  intros H. unfold Qlt_b. apply negb_true_iff.
  destruct (Qle_bool p q) eqn:E; [|done]. exfalso.
  apply Qle_bool_iff in E.
  destruct (rnd_fixes rnd Hrnd 0) as (r0 & E0 & Hr0); [by left|].
  assert (Hle : (p + - q <= 0)%Q) by lra.
  pose proof (rnd_monotone rnd Hrnd _ _ Hle) as Hm. rewrite E0 in Hm.
  destruct (rnd (p + - q)%Q) as [|[]|r]; simpl in *; try done.
  unfold Qlt_b in H. apply negb_true_iff in H. apply Qle_bool_iff in Hm.
  assert (Hr : Qle_bool r 0 = true) by (apply Qle_bool_iff; lra).
  congruence.
Qed.

(** X21: [Slope] succeeds on every column of numbers and writes one
    truth value per row. With any rounding that is monotone and keeps 0,
    [slope] is true at a row only if that row has a predecessor and its
    number is greater than the predecessor's: the first row, and a row
    beside a NaN, never show a rise. *)
Theorem Slope_reports_only_real_rises
    (df : frame) (s : string) (xs : list fval) :
  floats df s = Some xs →
  ∃ out bs,
    Slope rnd df [(KStr "source", PStr s)] = Some out
    ∧ success out = true
    ∧ get_col (returned out) "slope" = Some (ColBool bs)
    ∧ length bs = length xs
    ∧ ∀ i, bs !! i = Some true →
        ∃ j a b, i = S j ∧ xs !! j = Some a ∧ xs !! i = Some b ∧ flt a b = true.
Proof.
  intros Hxs. unfold Slope. cbn -[floats set_col diff]. rewrite Hxs. cbn -[set_col diff].
  eexists _, _. split; [reflexivity|]. split; [done|]. cbn [returned same_frame].
  split; [apply get_set_col|]. split; [by rewrite length_map, diff_length|].
  intros i Hi. rewrite list_lookup_fmap in Hi.
  destruct (diff rnd xs !! i) as [d|] eqn:Ed; [|done]. injection Hi as Hd.
  unfold diff in Ed. apply lookup_zip_with_Some in Ed as (b & a & -> & Hb & Ha).
  destruct i as [|j].
  - destruct xs as [|x xs']; [done|]. simpl in Ha. injection Ha as <-.
    by rewrite fsub_nan_r in Hd.
  - rewrite shift1_lookup_S in Ha by (apply lookup_lt_Some in Hb; lia).
    exists j, a, b. repeat split; try done. by apply fsub_positive.
Qed.

End Rounded.

Lemma Slope_reports_only_real_rises_witness :
  ∃ out bs,
    Slope rnd_exact (DataFrame history) [(KStr "source", PStr "close")] = Some out
    ∧ get_col (returned out) "slope" = Some (ColBool bs)
    ∧ bs !! 1%nat = Some true
    ∧ ∃ a b, map q_close history !! 0%nat = Some a
             ∧ map q_close history !! 1%nat = Some b ∧ flt a b = true.
Proof.
  destruct (Slope_reports_only_real_rises rnd_exact rnd_exact_rounding (DataFrame history)
              "close" (map q_close history) eq_refl)
    as (out & bs & Eo & _ & Eb & _ & Hrise).
  exists out, bs. split; [done|]. split; [done|].
  assert (H1 : bs !! 1%nat = Some true).
  { vm_compute in Eo. injection Eo as <-. vm_compute in Eb. by injection Eb as <-. }
  split; [done|].
  destruct (Hrise 1%nat H1) as (j & a & b & [= <-] & Ha & Hb & Hlt).
  by exists a, b.
Defined.

(** ** CumulativeReturn *)

Lemma rename_nothing df k t :
  get_col df k = None → columns (rename df [(k, t)]) = columns df.
Proof.
  unfold get_col, rename. cbn [columns].
  induction (columns df) as [|[k0 c0] cols IH]; [done|].
  cbn [lookup_col]. destruct (String.eqb_spec k0 k) as [->|Hne]; [done|].
  intros H. cbn [map fst snd lookup_name]. f_equal; [|by apply IH].
  destruct (String.eqb_spec k k0) as [->|_]; done.
Qed.

Section Library.
Variable rnd : Q → fval.
Variable log : fval → fval.
Variable rolling_sum : pyval → list fval → option (list fval).

(** Where [CumulativeReturn] succeeds, the new column is
    [cumulative_return], and the column it names is not touched. *)
Lemma CumulativeReturn_success df params out :
  CumulativeReturn rnd log rolling_sum df params = Some out →
  keys out = ["cum_return"]
  ∧ (success out = true →
     is_Some (get_col (returned out) "cumulative_return")
     ∧ get_col (returned out) "cum_return" = get_col df "cum_return"
     ∧ ∀ t, t ≠ "cumulative_return" → t ≠ "logReturns" →
         get_col (returned out) t = get_col df t).
Proof.
  unfold CumulativeReturn.
  destruct (kwargs _ params) as [[|interval [|source [|? ?]]]|]; try done.
  cbn [mbind option_bind]. intros [= <-].
  destruct (column_name source ≫= floats df) as [xs|]; [|by split].
  rewrite floats_set_col. cbn [mbind option_bind].
  destruct (rolling_sum interval _) as [total|]; [|by split].
  erewrite del_col_Some; [|by rewrite get_set_col_ne, get_set_col by done].
  cbn [success keys returned same_frame]. split; [done|]. intros _.
  assert (Hother : ∀ t, t ≠ "cumulative_return" → t ≠ "logReturns" →
            get_col (without (set_col (set_col df "logReturns"
                       (ColFloat (map log (zip_with (fdiv rnd) xs (shift1 xs)))))
                       "cumulative_return" (ColFloat total)) "logReturns") t
            = get_col df t).
  { intros t Ht Hl. rewrite get_col_without_ne by done.
    by rewrite !get_set_col_ne by done. }
  split; [|split; [by apply Hother|exact Hother]].
  rewrite get_col_without_ne by done. rewrite get_set_col. by eexists.
Qed.

(** X22: [CumulativeReturn] announces the key [cum_return] and writes
    the column [cumulative_return]. In a run of the pipeline on frames
    without a column [cum_return], an entry of this indicator that does
    not map [cum_return] never succeeds (dropping the announced key
    raises); an entry that maps it to a name [t] leaves the returns in
    [cumulative_return] and the column [t] as it was before. *)
Theorem CumulativeReturn_names_a_column_it_does_not_add
    (globals : string → option indicator_fn) (dfs : list frame) (obj : entry) :
  globals (indicator obj) = Some (CumulativeReturn rnd log rolling_sum) →
  Forall (fun df => get_col df "cum_return" = None) dfs →
  ("cum_return" ∉ map fst (mapping obj) →
   ∀ dfs', run_entry globals dfs obj ≠ Succeeded dfs')
  ∧ (∀ t dfs' iv,
       mapping obj = [("cum_return", t)] →
       run_entry globals dfs obj = Succeeded dfs' →
       intervalFromStr (interval obj) = Some iv →
       ∃ df df',
         dfs !! Interval_value iv = Some df
         ∧ dfs' !! Interval_value iv = Some df'
         ∧ is_Some (get_col df' "cumulative_return")
         ∧ (t ≠ "cumulative_return" → t ≠ "logReturns" →
            get_col df' t = get_col df t)).
Proof.
  intros Hg Hdfs. unfold run_entry. rewrite Hg. split.
  - intros Hmap dfs'.
    destruct (intervalFromStr (interval obj)) as [iv|]; [|done].
    destruct (dfs !! Interval_value iv) as [df|] eqn:Edf; [|done].
    destruct (CumulativeReturn _ _ _ df _) as [out|] eqn:Eout; [|done].
    destruct (CumulativeReturn_success _ _ _ Eout) as (Hk & Hs).
    destruct (success out); [|done]. destruct (Hs eq_refl) as (_ & Hc & _).
    rewrite Hk. cbn [drop_unmapped].
    assert (Hone : one_of "cum_return" (map fst (mapping obj)) = false).
    { destruct (one_of _ _) eqn:E; [|done]. by apply one_of_elem in E. }
    rewrite Hone. unfold del_col. cbn [drop_columns mbind option_bind].
    unfold del_col. rewrite Hc, (proj1 (Forall_forall _ _) Hdfs df); [done|].
    by eapply list_elem_of_lookup_2.
  - intros t dfs' iv Hmap Hrun Hiv. rewrite Hiv in Hrun.
    destruct (dfs !! Interval_value iv) as [df|] eqn:Edf; [|done].
    destruct (CumulativeReturn _ _ _ df _) as [out|] eqn:Eout; [|done].
    destruct (CumulativeReturn_success _ _ _ Eout) as (Hk & Hs).
    destruct (success out); [|done]. destruct (Hs eq_refl) as (Hcr & Hc & Hrest).
    rewrite Hk, Hmap in Hrun. cbn in Hrun. injection Hrun as <-.
    assert (Hnone : get_col df "cum_return" = None).
    { apply (proj1 (Forall_forall _ _) Hdfs df). by eapply list_elem_of_lookup_2. }
    exists df, (rename (returned out) [("cum_return", t)]).
    split; [done|]. split.
    { apply list_lookup_insert_eq. by apply lookup_lt_Some in Edf. }
    assert (Hcols : ∀ k, get_col (rename (returned out) [("cum_return", t)]) k
                         = get_col (returned out) k).
    { intros k. unfold get_col. rewrite rename_nothing; [done|]. by rewrite Hc. }
    rewrite !Hcols. split; [done|]. intros Ht Hl. by apply Hrest.
Qed.

End Library.

Lemma CumulativeReturn_names_a_column_it_does_not_add_witness :
  let dfs := [DataFrame history; DataFrame history; DataFrame history] in
  (∀ dfs', run_entry with_bands dfs unmapped_return ≠ Succeeded dfs')
  ∧ ∃ dfs' df',
      run_entry with_bands dfs mapped_return = Succeeded dfs'
      ∧ dfs' !! 0%nat = Some df'
      ∧ is_Some (get_col df' "cumulative_return")
      ∧ get_col df' "return_2d" = None.
Proof.
  intros dfs.
  assert (Hdfs : Forall (fun df => get_col df "cum_return" = None) dfs).
  { by repeat constructor. }
  split.
  - apply (CumulativeReturn_names_a_column_it_does_not_add
             rnd_exact log_at_one window_sum with_bands dfs unmapped_return eq_refl Hdfs).
    by apply (bool_decide_unpack _).
  - destruct (run_entry with_bands dfs mapped_return) as [dfs'| |] eqn:Erun;
      try (exfalso; by vm_compute in Erun).
    destruct (proj2 (CumulativeReturn_names_a_column_it_does_not_add
                rnd_exact log_at_one window_sum with_bands dfs mapped_return eq_refl Hdfs)
                "return_2d" dfs' DAILY eq_refl Erun eq_refl)
      as (df & df' & Hdf & Hdf' & Hcr & Hsame).
    exists dfs', df'. split; [done|]. split; [done|]. split; [done|].
    rewrite Hsame by done. cbn in Hdf. by injection Hdf as <-.
Defined.

(** ** BollingerBands *)

Lemma set_none_keeps_object df k0 k :
  (∃ vs, get_col df k = Some (ColObject vs)) →
  ∃ vs, get_col (set_none df k0) k = Some (ColObject vs).
Proof.
  intros Hk. unfold set_none. destruct (decide (k0 = k)) as [->|Hne].
  - rewrite get_set_col. by eexists.
  - by rewrite get_set_col_ne.
Qed.

Lemma set_all_none_keeps_object df ks k :
  (∃ vs, get_col df k = Some (ColObject vs)) →
  ∃ vs, get_col (set_all_none df ks) k = Some (ColObject vs).
Proof.
  unfold set_all_none. revert df. induction ks as [|k0 ks IH]; intros df Hk; [done|].
  cbn [fold_left]. apply IH. by apply set_none_keeps_object.
Qed.

(** The columns that [df[k] = None] writes are no columns of numbers. *)
Lemma set_all_none_object df ks k xs :
  k ∈ ks → get_col (set_all_none df ks) k ≠ Some (ColFloat xs).
Proof.
  intros Hin.
  assert (H : ∃ vs, get_col (set_all_none df ks) k = Some (ColObject vs)).
  { unfold set_all_none. revert df. induction ks as [|k0 ks IH]; intros df.
    - by apply elem_of_nil in Hin.
    - cbn [fold_left]. destruct (decide (k = k0)) as [->|Hne].
      + apply (set_all_none_keeps_object (set_none df k0) ks k0).
        unfold set_none. rewrite get_set_col. by eexists.
      + apply IH. apply elem_of_cons in Hin as [?|?]; done. }
  destruct H as [vs ->]. done.
Qed.

Section Spread.
Variable rnd : Q → fval.
Hypothesis Hrnd : rounding rnd.
Variable rolling_std : nat → list fval → list fval.
Hypothesis Hstd : ∀ n xs, Forall nonneg (rolling_std n xs).

(** A number less a spread is not above the number plus the spread. *)
Lemma band_cell a t :
  nonneg t → is_nan (fadd rnd a t) = false → is_nan (fsub rnd a t) = false →
  fle (fsub rnd a t) (fadd rnd a t) = true.
Proof.
  unfold fsub. destruct a as [|[]|p], t as [|[]|q]; simpl; try done.
  intros Hq _ _. apply (rnd_monotone rnd Hrnd). lra.
Qed.

Lemma BollingerBands_compute_bands df N stdev s df' up lo :
  nonneg stdev →
  BollingerBands_compute rnd rolling_std df N stdev s = (true, df') →
  get_col df' "bb_upper" = Some (ColFloat up) →
  get_col df' "bb_lower" = Some (ColFloat lo) →
  ∃ sma spread,
    up = zip_with (fadd rnd) sma spread ∧ lo = zip_with (fsub rnd) sma spread
    ∧ Forall nonneg spread.
Proof.
  intros Hs. unfold BollingerBands_compute.
  destruct (floats df s) as [xs|]; [|done].
  destruct (N <? 0); [done|].
  rewrite floats_set_col.
  destruct (floats (set_col df "std" _) s) as [xs'|]; [|done].
  cbn zeta.
  destruct (get_col _ s ≫= astype_float rnd) as [src|]; [|done].
  intros [= <-]. rewrite !get_set_col_ne by done. rewrite get_set_col.
  intros [= <-]. rewrite !get_set_col_ne by done. rewrite get_set_col.
  intros [= <-]. eexists _, _. split; [done|]. split; [done|].
  apply Forall_fmap. eapply Forall_impl; [apply Hstd|].
  intros x Hx. by apply fmul_nonneg.
Qed.

Lemma BollingerBands_body_bands df period std source up lo :
  (∀ x, py_float rnd std = Some x → nonneg x) →
  let out := BollingerBands_body rnd rolling_std df period std source in
  get_col (returned out) "bb_upper" = Some (ColFloat up) →
  get_col (returned out) "bb_lower" = Some (ColFloat lo) →
  length up = length lo
  ∧ ∀ i u l, up !! i = Some u → lo !! i = Some l →
      is_nan u = false → is_nan l = false → fle l u = true.
Proof.
  intros Hnn out. subst out. unfold BollingerBands_body.
  assert (Hobj : ∀ ok df0 ks,
            "bb_upper" ∈ ks →
            get_col (returned (same_frame ok (set_all_none df0 ks) ks)) "bb_upper"
              = Some (ColFloat up) → False).
  { intros ok df0 ks Hin. cbn [returned same_frame]. by apply set_all_none_object. }
  assert (Hin : "bb_upper" ∈ ["sma"; "bb_upper"; "bb_lower"; "bb_pc"; "bb_expanding"])
    by apply (list_elem_of_lookup_2 _ 1%nat), eq_refl.
  destruct (py_int period) as [N|]; [|by intros H%Hobj].
  destruct (py_float rnd std) as [stdev|]; [|by intros H%Hobj].
  destruct (Z.of_nat (len df) >? N); [|by intros H%Hobj].
  destruct (column_name source) as [s|]; [|by intros H%Hobj].
  destruct (BollingerBands_compute rnd rolling_std df N stdev s) as [[] df'] eqn:Ec;
    [|by intros H%Hobj].
  destruct (get_col df' "std") as [c|] eqn:Estd; unfold del_col; rewrite Estd;
    [|by intros H%Hobj].
  cbn [returned]. fold (without df' "std"). rewrite !get_col_without_ne by done.
  intros Hup Hlo.
  destruct (BollingerBands_compute_bands df N stdev s df' up lo) as (sma & spread & -> & -> & Hsp);
    [by apply Hnn|done..|].
  split; [by rewrite !length_zip_with|].
  intros i u l Hu Hl.
  apply lookup_zip_with_Some in Hu as (a & t & -> & Ha & Ht).
  apply lookup_zip_with_Some in Hl as (a' & t' & -> & Ha' & Ht').
  assert (a' = a) as -> by congruence. assert (t' = t) as -> by congruence.
  apply band_cell. by apply (Forall_lookup_1 _ _ _ _ Hsp Ht).
Qed.

(** X23: the lower band is never above the upper band. With a
    monotone rounding, a rolling deviation that is not negative and a
    number of deviations that is not negative, at every row where
    [BollingerBands] gives two numbers for [bb_lower] and [bb_upper],
    the first is less than or equal to the second; both columns have the
    same length. *)
Theorem BollingerBands_lower_is_never_above_upper
    (df : frame) (params : pydict) (out : outcome) (up lo : list fval) :
  (∀ v x, dict_get params (KStr "std") = Some v → py_float rnd v = Some x → nonneg x) →
  BollingerBands rnd rolling_std df params = Some out →
  get_col (returned out) "bb_upper" = Some (ColFloat up) →
  get_col (returned out) "bb_lower" = Some (ColFloat lo) →
  length up = length lo
  ∧ ∀ i u l, up !! i = Some u → lo !! i = Some l →
      is_nan u = false → is_nan l = false → fle l u = true.
Proof.
  intros Hparam. unfold BollingerBands, kwargs.
  destruct (forallb _ params); [|done].
  cbn [mapM mbind option_bind fst snd].
  destruct (dict_get params (KStr "period")) as [period|];
    destruct (dict_get params (KStr "std")) as [std|] eqn:Estd;
    destruct (dict_get params (KStr "source")) as [source|];
    cbn [mbind option_bind mret option_ret fmap option_fmap option_map];
    intros [= <-]; apply BollingerBands_body_bands; intros x Hx;
    first [ by eapply Hparam
          | cbn in Hx; injection Hx as <-; by apply rnd_nonneg ].
Qed.

End Spread.

Lemma unit_spread_nonneg n xs : Forall nonneg (unit_spread n xs).
Proof.
  unfold unit_spread. apply Forall_lookup_2. intros i x Hx.
  rewrite list_lookup_imap in Hx.
  destruct (xs !! i); [|done]. cbn in Hx. injection Hx as <-.
  destruct (n <=? S i)%nat; by cbn.
Qed.

Lemma BollingerBands_lower_is_never_above_upper_witness :
  ∃ out up lo,
    BollingerBands rnd_exact unit_spread (DataFrame history) wide_bands = Some out
    ∧ success out = true
    ∧ get_col (returned out) "bb_upper" = Some (ColFloat up)
    ∧ get_col (returned out) "bb_lower" = Some (ColFloat lo)
    ∧ up !! 2%nat = Some (FFin (29 # 2)) ∧ lo !! 2%nat = Some (FFin (19 # 2))
    ∧ ∀ i u l, up !! i = Some u → lo !! i = Some l →
        is_nan u = false → is_nan l = false → fle l u = true.
Proof.
  destruct (BollingerBands rnd_exact unit_spread (DataFrame history) wide_bands)
    as [out|] eqn:Eout; [|by vm_compute in Eout].
  destruct (get_col (returned out) "bb_upper") as [[up| | |]|] eqn:Eup;
    try (exfalso; vm_compute in Eout; injection Eout as <-; by vm_compute in Eup).
  destruct (get_col (returned out) "bb_lower") as [[lo| | |]|] eqn:Elo;
    try (exfalso; vm_compute in Eout; injection Eout as <-; by vm_compute in Elo).
  exists out, up, lo.
  pose proof (BollingerBands_lower_is_never_above_upper rnd_exact rnd_exact_rounding
                unit_spread unit_spread_nonneg (DataFrame history) wide_bands out up lo)
    as Hbands.
  assert (Hstd : ∀ v x, dict_get wide_bands (KStr "std") = Some v →
                        py_float rnd_exact v = Some x → nonneg x).
  { intros v x [= <-]. vm_compute. by intros [= <-]. }
  destruct (Hbands Hstd Eout Eup Elo) as [_ Hle].
  vm_compute in Eout. injection Eout as <-.
  vm_compute in Eup. injection Eup as <-. vm_compute in Elo. injection Elo as <-.
  repeat split; try done.
Defined.

End BandsFacts.
